(** * doc-intel-starter: router agent, invoice agent and PDF text extraction

    A shallow embedding of [router_agent.py], [invoice_agent.py] and
    [pdf_utils.py].  Python strings are sequences of Unicode code points, the
    values produced by [json.loads] are a tagged union, and the calls to the
    outside world (language model, OCR service, file system, environment) are
    explicit parameters, so that every statement below quantifies over what
    those collaborators may answer. *)

From Stdlib Require Import List NArith ZArith Bool Lia String Ascii DecimalString.
Import ListNotations.

Set Warnings "-register-all".

(** ** Python strings *)

Module PyStr.

(** A [str] is a sequence of code points; indexing and slicing count code
    points, so [s[:200]] is [firstn 200]. *)
Definition char := N.
Definition str := list char.

Definition chr_of (a : ascii) : char := N_of_ascii a.

(** String literals of the source, written as Rocq literals. *)
Definition lit (s : string) : str := List.map chr_of (list_ascii_of_string s).

(** Literals that contain double quotes are written with apostrophes: [jlit]
    turns every apostrophe into a double quote. *)
Definition jlit (s : string) : str :=
  List.map (fun c => if N.eqb c 39 then 34%N else c) (lit s).

Definition str_eqb (a b : str) : bool :=
  if list_eq_dec N.eq_dec a b then true else false.

(** [s.startswith(p)] *)
Fixpoint starts_with (p s : str) : bool :=
  match p, s with
  | [], _ => true
  | _ :: _, [] => false
  | a :: p', b :: s' => N.eqb a b && starts_with p' s'
  end.

(** [p in s] *)
Fixpoint contains (p s : str) : bool :=
  starts_with p s ||
  match s with
  | [] => false
  | _ :: s' => contains p s'
  end.

(** No occurrence of [p] begins inside [y] when [y] is followed by [t]. *)
Fixpoint no_start (p y t : str) : bool :=
  match y with
  | [] => true
  | _ :: y' => negb (starts_with p (y ++ t)) && no_start p y' t
  end.

(** [s.replace(old, new)] for a non-empty [old]: scan from the left; at a
    match emit [new] and jump over the match, so matches never overlap.  The
    counter [skip] is the number of characters of the current match that are
    still to be jumped over. *)
Fixpoint replace_from (old new : str) (skip : nat) (s : str) : str :=
  match s with
  | [] => []
  | c :: s' =>
      match skip with
      | S k => replace_from old new k s'
      | O =>
          if starts_with old s
          then new ++ replace_from old new (List.length old - 1) s'
          else c :: replace_from old new 0 s'
      end
  end.

(** [s.replace(old, new)]; with an empty [old] Python inserts [new] before
    every character and at the end. *)
Definition replace (old new s : str) : str :=
  match old with
  | [] => new ++ flat_map (fun c => c :: new) s
  | _ :: _ => replace_from old new 0 s
  end.

(** [c.isspace()]: the code points Python treats as whitespace. *)
Definition isspace (c : char) : bool :=
  ((9 <=? c) && (c <=? 13) || (28 <=? c) && (c <=? 32) ||
   (c =? 133) || (c =? 160) || (c =? 5760) ||
   (8192 <=? c) && (c <=? 8202) ||
   (c =? 8232) || (c =? 8233) || (c =? 8239) || (c =? 8287) ||
   (c =? 12288))%N.

(** [s.lstrip()] *)
Fixpoint lstrip (s : str) : str :=
  match s with
  | [] => []
  | c :: s' => if isspace c then lstrip s' else s
  end.

(** [s.rstrip()] *)
Fixpoint rstrip (s : str) : str :=
  match s with
  | [] => []
  | c :: s' =>
      match rstrip s' with
      | [] => if isspace c then [] else [c]
      | t => c :: t
      end
  end.

(** [s.strip()] *)
Definition strip (s : str) : str := rstrip (lstrip s).

(** [s[:n]] *)
Definition slice_to (n : nat) (s : str) : str := firstn n s.

End PyStr.

Import PyStr.

(** ** Python values and [json.loads]

    [json.loads] is library code.  It is modelled in two passes that accept
    the same texts and build the same values as the decoder: the text is cut
    into tokens (strings with their escapes, numbers, the literals, the
    punctuation marks), then the tokens are read with an explicit stack of
    open containers.  Every text has an answer, a value or
    [JSONDecodeError]; the limits of an interpreter (recursion depth of the
    decoder, the cap on the digits of an integer literal) are not part of
    the model: nesting is arbitrary and integers are unbounded. *)

Module Json.

(** The objects [json.loads] builds: [None], [bool], [int], [float], [str],
    [list] and [dict].  A [dict] keeps its keys in insertion order, without
    duplicates.  A float is kept as the decimal literal it was read from (or
    written with, in the source), so equal literals are equal floats; nothing
    below computes with floats. *)
Inductive value : Type :=
| VNone
| VBool (b : bool)
| VInt (z : Z)
| VFloat (literal : str)
| VStr (s : str)
| VList (items : list value)
| VDict (members : list (str * value)).

Definition dict := list (str * value).

(** [d.get(k)] *)
Fixpoint dict_get (d : dict) (k : str) : option value :=
  match d with
  | [] => None
  | (k', v) :: d' => if str_eqb k' k then Some v else dict_get d' k
  end.

(** [d[k] = v]: overwrite in place when the key is there, else append. *)
Fixpoint dict_set (d : dict) (k : str) (v : value) : dict :=
  match d with
  | [] => [(k, v)]
  | (k', v') :: d' =>
      if str_eqb k' k then (k', v) :: d' else (k', v') :: dict_set d' k v
  end.

(** [k in d] *)
Definition dict_has (d : dict) (k : str) : bool :=
  match dict_get d k with Some _ => true | None => false end.

(** *** Lexical level *)

(** The whitespace of the JSON grammar: space, tab, line feed, carriage
    return.  It is a strict subset of [isspace]. *)
Definition is_json_ws (c : char) : bool :=
  ((c =? 32) || (c =? 9) || (c =? 10) || (c =? 13))%N.

Definition is_digit (c : char) : bool := ((48 <=? c) && (c <=? 57))%N.

Definition hex_val (c : char) : option N :=
  if is_digit c then Some (c - 48)%N
  else if ((97 <=? c) && (c <=? 102))%N then Some (c - 87)%N
  else if ((65 <=? c) && (c <=? 70))%N then Some (c - 55)%N
  else None.

(** The four hexadecimal digits of a [\uXXXX] escape. *)
Definition hex4 (a b c d : char) : option N :=
  match hex_val a, hex_val b, hex_val c, hex_val d with
  | Some x, Some y, Some z, Some w => Some (((x * 16 + y) * 16 + z) * 16 + w)%N
  | _, _, _, _ => None
  end.

Definition is_high_surrogate (u : N) : bool := ((55296 <=? u) && (u <=? 56319))%N.
Definition is_low_surrogate (u : N) : bool := ((56320 <=? u) && (u <=? 57343))%N.
Definition join_surrogates (hi lo : N) : N :=
  (65536 + N.lor (N.shiftl (hi - 55296) 10) (lo - 56320))%N.

(** The one-character escapes: quote, backslash, slash, b, f, n, r, t. *)
Definition simple_escape (e : char) : option char :=
  (if e =? 34 then Some 34
   else if e =? 92 then Some 92
   else if e =? 47 then Some 47
   else if e =? 98 then Some 8
   else if e =? 102 then Some 12
   else if e =? 110 then Some 10
   else if e =? 114 then Some 13
   else if e =? 116 then Some 9
   else None)%N.

(** The escape sequence after a backslash: the character it stands for and
    the number of characters it takes (1, 5 for [\uXXXX], 11 more for a
    surrogate pair).  A high surrogate followed by a [\u] escape of a low
    surrogate is joined with it. *)
Definition escape_at (r : str) : option (char * nat) :=
  match r with
  | [] => None
  | e :: r2 =>
      if (e =? 117)%N then
        match r2 with
        | h1 :: h2 :: h3 :: h4 :: r3 =>
            match hex4 h1 h2 h3 h4 with
            | None => None
            | Some u =>
                match r3 with
                | b :: e' :: g1 :: g2 :: g3 :: g4 :: _ =>
                    if is_high_surrogate u && (b =? 92)%N && (e' =? 117)%N then
                      match hex4 g1 g2 g3 g4 with
                      | None => None
                      | Some u2 =>
                          if is_low_surrogate u2
                          then Some (join_surrogates u u2, 11)
                          else Some (u, 5)
                      end
                    else Some (u, 5)
                | _ => Some (u, 5)
                end
            end
        | _ => None
        end
      else
        match simple_escape e with
        | Some x => Some (x, 1)
        | None => None
        end
  end.

(** Prepend a decoded character to the rest of a scanned string and count
    one more source character. *)
Definition push (c : char) (r : option (str * nat)) : option (str * nat) :=
  match r with
  | Some (t, m) => Some (c :: t, S m)
  | None => None
  end.

(** Count one more source character. *)
Definition passed (r : option (str * nat)) : option (str * nat) :=
  match r with
  | Some (t, m) => Some (t, S m)
  | None => None
  end.

(** [scanstring] (strict mode) on the text after the opening quote: the
    decoded string and the number of characters read, closing quote included.
    [None] is a [JSONDecodeError]: no closing quote, a control character, a
    bad escape.  [skip] counts the characters of the current escape still to
    be passed over. *)
Fixpoint scan_from (skip : nat) (s : str) : option (str * nat) :=
  match s with
  | [] => None
  | c :: r =>
      match skip with
      | S k => passed (scan_from k r)
      | O =>
          if (c =? 34)%N then Some ([], 1)
          else if (c =? 92)%N then
            match escape_at r with
            | Some (x, used) => push x (scan_from used r)
            | None => None
            end
          else if (c <? 32)%N then None
          else push c (scan_from 0 r)
      end
  end.

Definition scanstring (s : str) : option (str * nat) := scan_from 0 s.

(** Number of leading decimal digits. *)
Fixpoint digits_len (s : str) : nat :=
  match s with
  | c :: r => if is_digit c then S (digits_len r) else 0
  | [] => 0
  end.

(** Value of a run of decimal digits, most significant first. *)
Definition digits_val (ds : str) : Z :=
  fold_left (fun acc c => (acc * 10 + Z.of_N (c - 48))%Z) ds 0%Z.

(** Length of the integer part [0|[1-9][0-9]*]; 0 when there is none. *)
Definition int_len (s : str) : nat :=
  match s with
  | c :: r =>
      if (c =? 48)%N then 1
      else if is_digit c then S (digits_len r)
      else 0
  | [] => 0
  end.

(** Length of the fraction [\.[0-9]+]; 0 when there is none. *)
Definition frac_len (s : str) : nat :=
  match s with
  | c :: r =>
      if (c =? 46)%N then
        match digits_len r with 0 => 0 | S k => S (S k) end
      else 0
  | [] => 0
  end.

(** Length of the exponent [[eE][-+]?[0-9]+]; 0 when there is none. *)
Definition exp_len (s : str) : nat :=
  match s with
  | c :: r =>
      if ((c =? 101) || (c =? 69))%N then
        match r with
        | sg :: r' =>
            if ((sg =? 43) || (sg =? 45))%N then
              match digits_len r' with 0 => 0 | S k => S (S (S k)) end
            else
              match digits_len r with 0 => 0 | S k => S (S k) end
        | [] => 0
        end
      else 0
  | [] => 0
  end.

(** The number at the head of [s]: an [int] when it has neither fraction nor
    exponent, else a [float]; with the number of characters read. *)
Definition match_number (s : str) : option (value * nat) :=
  let sign := match s with c :: _ => if (c =? 45)%N then 1 else 0 | [] => 0 end in
  let body := skipn sign s in
  match int_len body with
  | 0 => None
  | S _ as il =>
      let fl := frac_len (skipn il body) in
      let el := exp_len (skipn (il + fl) body) in
      let n := sign + il + fl + el in
      match fl + el with
      | 0 =>
          let m := digits_val (firstn il body) in
          Some (VInt (if Nat.eqb sign 1 then Z.opp m else m), n)
      | S _ => Some (VFloat (firstn n s), n)
      end
  end.

Inductive token : Type :=
| TLBrace | TRBrace | TLBracket | TRBracket | TComma | TColon
| TVal (v : value).

(** The token at the head of [s] (not whitespace) and its length. *)
Definition next_token (s : str) : option (token * nat) :=
  match s with
  | [] => None
  | c :: r =>
      if (c =? 34)%N then
        match scanstring r with
        | Some (t, n) => Some (TVal (VStr t), S n)
        | None => None
        end
      else if (c =? 123)%N then Some (TLBrace, 1)
      else if (c =? 125)%N then Some (TRBrace, 1)
      else if (c =? 91)%N then Some (TLBracket, 1)
      else if (c =? 93)%N then Some (TRBracket, 1)
      else if (c =? 44)%N then Some (TComma, 1)
      else if (c =? 58)%N then Some (TColon, 1)
      else if starts_with (lit "null") s then Some (TVal VNone, 4)
      else if starts_with (lit "true") s then Some (TVal (VBool true), 4)
      else if starts_with (lit "false") s then Some (TVal (VBool false), 5)
      else if starts_with (lit "NaN") s then Some (TVal (VFloat (lit "NaN")), 3)
      else if starts_with (lit "Infinity") s then Some (TVal (VFloat (lit "Infinity")), 8)
      else if starts_with (lit "-Infinity") s then Some (TVal (VFloat (lit "-Infinity")), 9)
      else
        match match_number s with
        | Some (v, n) => Some (TVal v, n)
        | None => None
        end
  end.

(** All tokens of [s].  [skip] counts the characters of the current token
    still to be passed over. *)
Fixpoint lex_from (skip : nat) (s : str) : option (list token) :=
  match s with
  | [] => Some []
  | c :: r =>
      match skip with
      | S k => lex_from k r
      | O =>
          if is_json_ws c then lex_from 0 r
          else
            match next_token s with
            | None => None
            | Some (t, n) =>
                match lex_from (n - 1) r with
                | Some ts => Some (t :: ts)
                | None => None
                end
            end
      end
  end.

Definition lex (s : str) : option (list token) := lex_from 0 s.

(** *** Grammar level *)

(** A container under construction: a list with the elements read so far, or
    a dict with its members so far and the key whose value is awaited. *)
Inductive frame : Type :=
| FList (items : list value)
| FDict (members : dict) (key : str).

Inductive pstate : Type :=
| AwaitValue (stack : list frame)
| ListStart (stack : list frame)
| DictStart (stack : list frame)
| InList (items : list value) (stack : list frame)
| InDict (members : dict) (stack : list frame)
| AwaitKey (members : dict) (stack : list frame)
| AwaitColon (members : dict) (key : str) (stack : list frame)
| Finished (v : value).

(** A value is complete: hand it to the innermost open container. *)
Definition push_value (v : value) (stack : list frame) : pstate :=
  match stack with
  | [] => Finished v
  | FList items :: stack' => InList (items ++ [v]) stack'
  | FDict members key :: stack' => InDict (dict_set members key v) stack'
  end.

Definition begin_value (stack : list frame) (t : token) : option pstate :=
  match t with
  | TVal v => Some (push_value v stack)
  | TLBracket => Some (ListStart stack)
  | TLBrace => Some (DictStart stack)
  | _ => None
  end.

Definition begin_key (members : dict) (stack : list frame) (t : token) : option pstate :=
  match t with
  | TVal (VStr k) => Some (AwaitColon members k stack)
  | _ => None
  end.

Definition step (st : pstate) (t : token) : option pstate :=
  match st with
  | AwaitValue stack => begin_value stack t
  | ListStart stack =>
      match t with
      | TRBracket => Some (push_value (VList []) stack)
      | _ => begin_value (FList [] :: stack) t
      end
  | DictStart stack =>
      match t with
      | TRBrace => Some (push_value (VDict []) stack)
      | _ => begin_key [] stack t
      end
  | InList items stack =>
      match t with
      | TComma => Some (AwaitValue (FList items :: stack))
      | TRBracket => Some (push_value (VList items) stack)
      | _ => None
      end
  | InDict members stack =>
      match t with
      | TComma => Some (AwaitKey members stack)
      | TRBrace => Some (push_value (VDict members) stack)
      | _ => None
      end
  | AwaitKey members stack => begin_key members stack t
  | AwaitColon members key stack =>
      match t with
      | TColon => Some (AwaitValue (FDict members key :: stack))
      | _ => None
      end
  | Finished _ => None
  end.

Fixpoint run (st : pstate) (ts : list token) : option pstate :=
  match ts with
  | [] => Some st
  | t :: ts' =>
      match step st t with
      | Some st' => run st' ts'
      | None => None
      end
  end.

(** One value and nothing else. *)
Definition parse (ts : list token) : option value :=
  match run (AwaitValue []) ts with
  | Some (Finished v) => Some v
  | _ => None
  end.

(** [json.loads(s)] for a [str]: [None] is [json.JSONDecodeError]. *)
Definition json_loads (s : str) : option value :=
  if starts_with [65279%N] s then None
  else
    match lex s with
    | Some ts => parse ts
    | None => None
    end.

End Json.

Import Json.

(** ** Texts that [json.loads] accepts

    Vocabulary for the statements about deleting fence markers from a JSON
    text: what the text of a string is, which patterns can be deleted from
    it, and when two token sequences or parser states are alike. *)

Module JsonText.

(** A character that stands for itself inside a string: neither the quote
    nor the backslash nor a control character. *)
Definition plain (c : char) : bool :=
  (negb (c =? 34) && negb (c =? 92) && (32 <=? c))%N.

(** The text of a string after its opening quote, up to its closing quote:
    plain characters and escapes. *)
Inductive StrBody : str -> Prop :=
| SB_end : StrBody [34%N]
| SB_plain (c : char) (b : str) :
    plain c = true -> StrBody b -> StrBody (c :: b)
| SB_esc (e : char) (b : str) :
    simple_escape e <> None -> StrBody b -> StrBody (92%N :: e :: b)
| SB_uni (h1 h2 h3 h4 : char) (b : str) :
    hex4 h1 h2 h3 h4 <> None -> StrBody b ->
    StrBody (92%N :: 117%N :: h1 :: h2 :: h3 :: h4 :: b).

(** A pattern [replace] may delete inside strings: it begins with a
    backtick and is made of plain characters. *)
Definition deletable (p : str) : Prop :=
  (exists p', p = 96%N :: p') /\ forallb plain p = true.

(** What may follow a token in a text that lexes: no character that would
    have continued a number. *)
Definition ok_after (x : str) : bool :=
  match x with
  | [] => true
  | c :: _ => negb (N.eqb c 46) && negb (N.eqb c 101) && negb (N.eqb c 69)
  end.

(** Any character but the backtick. *)
Definition not_tick (c : char) : bool := negb (N.eqb 96 c).

(** Two values of the same kind: both strings, both lists, both dicts, or
    the same scalar. *)
Definition same_kind (v v' : value) : Prop :=
  match v, v' with
  | VStr _, VStr _ => True
  | VList _, VList _ => True
  | VDict _, VDict _ => True
  | _, _ => v = v'
  end.

(** Two tokens alike up to the text of a string. *)
Definition sim_tok (t t' : token) : Prop :=
  match t, t' with
  | TVal v, TVal v' => same_kind v v'
  | _, _ => t = t'
  end.

(** Two open containers alike: both lists, or both dicts. *)
Definition sim_frame (f f' : frame) : Prop :=
  match f, f' with
  | FList _, FList _ => True
  | FDict _ _, FDict _ _ => True
  | _, _ => False
  end.

(** Two parser states alike: the same state, over stacks of the same
    containers. *)
Definition sim_state (st st' : pstate) : Prop :=
  match st, st' with
  | AwaitValue s, AwaitValue s' => Forall2 sim_frame s s'
  | ListStart s, ListStart s' => Forall2 sim_frame s s'
  | DictStart s, DictStart s' => Forall2 sim_frame s s'
  | InList _ s, InList _ s' => Forall2 sim_frame s s'
  | InDict _ s, InDict _ s' => Forall2 sim_frame s s'
  | AwaitKey _ s, AwaitKey _ s' => Forall2 sim_frame s s'
  | AwaitColon _ _ s, AwaitColon _ _ s' => Forall2 sim_frame s s'
  | Finished v, Finished v' => same_kind v v'
  | _, _ => False
  end.

(** Two outcomes of a parser step alike: both errors, or states alike. *)
Definition sim_result (r r' : option pstate) : Prop :=
  match r, r' with
  | Some st, Some st' => sim_state st st'
  | None, None => True
  | _, _ => False
  end.

End JsonText.

Import JsonText.

(** ** Exceptions and fallible calls *)

Module PyExn.

(** The exception classes that occur.  All of them derive from [Exception],
    so an [except Exception] clause catches every exception of this model;
    interpreter signals deriving from [BaseException] only
    ([KeyboardInterrupt], [SystemExit]) are not raised by any call modelled
    here. *)
Inductive exn_class : Type :=
| FileNotFoundError
| ValueError
| RuntimeError
| TypeError
| IndexError
| OSError
| OtherException (name : str).

(** An exception: class, [str(e)], and the exception that was being handled
    when it was raised ([__context__]). *)
Inductive exn : Type :=
| Exn (cls : exn_class) (msg : str) (context : option exn).

Definition exn_cls (e : exn) : exn_class := let 'Exn c _ _ := e in c.
Definition exn_str (e : exn) : str := let 'Exn _ m _ := e in m.
Definition exn_context (e : exn) : option exn := let 'Exn _ _ c := e in c.

Inductive result (A : Type) : Type :=
| Ok (a : A)
| Raise (e : exn).

Arguments Ok {A} a.
Arguments Raise {A} e.

Definition bind {A B : Type} (m : result A) (k : A -> result B) : result B :=
  match m with
  | Ok a => k a
  | Raise e => Raise e
  end.

End PyExn.

Import PyExn.

Notation "x <- m ;; k" := (bind m (fun x => k))
  (at level 61, m at next level, right associativity).

(** [obj[key] = v] with a [str] key: only a [dict] supports it. *)
Definition setitem (obj : value) (key : str) (v : value) : result value :=
  let no_assign (ty : string) :=
    Raise (Exn TypeError
             (lit "'" ++ lit ty ++ lit "' object does not support item assignment")
             None) in
  match obj with
  | VDict d => Ok (VDict (dict_set d key v))
  | VList _ =>
      Raise (Exn TypeError (lit "list indices must be integers or slices, not str") None)
  | VNone => no_assign "NoneType"%string
  | VBool _ => no_assign "bool"%string
  | VInt _ => no_assign "int"%string
  | VFloat _ => no_assign "float"%string
  | VStr _ => no_assign "str"%string
  end.

(** ** The language-model client *)

Module Anthropic.

(** The arguments of [client.messages.create]. *)
Record request : Type := {
  req_model : str;
  req_max_tokens : N;
  req_system : str;
  req_user : str
}.

(** A response is its list of content blocks, each a text. *)
Definition message := list str.

(** The client is whatever answers a request: a message, or an exception of
    the call (time-out, authentication, malformed request). *)
Definition client := request -> result message.

(** [response.content[0].text] *)
Definition first_text (response : message) : result str :=
  match response with
  | t :: _ => Ok t
  | [] => Raise (Exn IndexError (lit "list index out of range") None)
  end.

End Anthropic.

(** The fields both agents keep: [self.client], [self.model],
    [self.prompt_version]. *)
Record agent : Type := {
  agent_client : Anthropic.client;
  agent_model : str;
  agent_prompt_version : str
}.

(** [result["_meta"] = {"model": ..., "prompt_version": ...}] *)
Definition meta (self : agent) : value :=
  VDict [ (lit "model", VStr (agent_model self));
          (lit "prompt_version", VStr (agent_prompt_version self)) ].

Definition parse_failed : str := lit "Failed to parse response: ".

(** ** router_agent.py *)

Module RouterAgent.

Definition DOCUMENT_TYPES : list str :=
  [ lit "invoice"; lit "progress_claim"; lit "contract"; lit "variation";
    lit "settlement"; lit "unknown" ].

(** [RouterAgent.__init__] *)
Definition init (c : Anthropic.client) : agent :=
  {| agent_client := c;
     agent_model := lit "claude-sonnet-4-20250514";
     agent_prompt_version := lit "v1" |}.

Definition system_prompt : str := jlit "You are a document classification agent for a property development company.

Your job is to look at a document and determine:
1. What TYPE of document is it?
2. Key metadata you can extract from it

Document types:
- invoice: A bill requesting payment for goods/services
- progress_claim: A claim from a contractor for completed work stages
- contract: A formal agreement between parties
- variation: A change order or amendment to existing contract
- settlement: Property settlement statement
- unknown: Cannot determine

Confidence scoring:
- 0.9+ : Document explicitly states its type (e.g., 'TAX INVOICE' header)
- 0.7-0.9 : Strongly implied by format and content
- 0.5-0.7 : Reasonable guess based on content
- Below 0.5 : Uncertain, might need human review

You MUST respond with valid JSON only, no other text. Use this exact structure:
{
    'document_type': 'invoice',
    'confidence': 0.95,
    'vendor_name': 'Smith Constructions Pty Ltd',
    'project_name': 'Balmoral Estate',
    'document_date': '2024-03-15',
    'amount': 24750.00,
    'reasoning': 'Document has TAX INVOICE header, ABN, GST breakdown...'
}

If a field cannot be determined, use null.".

Definition user_message (document_text : str) : str :=
  lit "Classify this document:

---
" ++ document_text ++ lit "
---

Respond with JSON only.".

Definition request_for (self : agent) (document_text : str) : Anthropic.request :=
  {| Anthropic.req_model := agent_model self;
     Anthropic.req_max_tokens := 1000;
     Anthropic.req_system := system_prompt;
     Anthropic.req_user := user_message document_text |}.

(** The dict built in the [except json.JSONDecodeError] branch. *)
Definition fallback (response_text : str) : dict :=
  [ (lit "document_type", VStr (lit "unknown"));
    (lit "confidence", VFloat (lit "0.0"));
    (lit "vendor_name", VNone);
    (lit "project_name", VNone);
    (lit "document_date", VNone);
    (lit "amount", VNone);
    (lit "reasoning", VStr (parse_failed ++ slice_to 200 response_text)) ].

(** [classify] from [response_text = response.content[0].text] on. *)
Definition classify_response (self : agent) (response_text : str) : result value :=
  let result :=
    match json_loads response_text with
    | Some v => v
    | None => VDict (fallback response_text)
    end in
  setitem result (lit "_meta") (meta self).

(** [RouterAgent.classify] *)
Definition classify (self : agent) (document_text : str) : result value :=
  response <- agent_client self (request_for self document_text) ;;
  response_text <- Anthropic.first_text response ;;
  classify_response self response_text.

End RouterAgent.

(** ** invoice_agent.py *)

Module InvoiceAgent.

(** [InvoiceAgent.__init__] *)
Definition init (c : Anthropic.client) : agent :=
  {| agent_client := c;
     agent_model := lit "claude-sonnet-4-20250514";
     agent_prompt_version := lit "v1" |}.

Definition system_prompt : str := jlit "You are an invoice data extraction agent for a property development company.

Extract all invoice details into structured JSON. Be precise with numbers and dates.

ABN format: XX XXX XXX XXX (Australian Business Number)
Date format: YYYY-MM-DD
Currency: numeric only, no symbols (e.g., 1500.00 not $1,500.00)

You MUST respond with valid JSON only, no other text:
{
    'invoice_number': 'INV-2024-001',
    'vendor_name': 'Smith Constructions Pty Ltd',
    'vendor_abn': '12 345 678 901',
    'invoice_date': '2024-03-15',
    'due_date': '2024-03-29',
    'project_reference': 'Balmoral Estate - Lot 42',
    'description': 'Concrete slab pour and related works',
    'line_items': [
        {'description': 'Concrete slab pour', 'quantity': 1, 'unit_price': 15000.00, 'amount': 15000.00}
    ],
    'subtotal': 22000.00,
    'gst_amount': 2200.00,
    'total_inc_gst': 24200.00,
    'payment_terms': '14 days'
}

Use null for any field that cannot be determined from the document.".

Definition user_message (document_text : str) : str :=
  lit "Extract invoice data:

---
" ++ document_text ++ lit "
---

Respond with JSON only.".

Definition request_for (self : agent) (document_text : str) : Anthropic.request :=
  {| Anthropic.req_model := agent_model self;
     Anthropic.req_max_tokens := 2000;
     Anthropic.req_system := system_prompt;
     Anthropic.req_user := user_message document_text |}.

(** [response_text.replace("```json", "").replace("```", "").strip()] *)
Definition clean (response_text : str) : str :=
  strip (replace (lit "```") [] (replace (lit "```json") [] response_text)).

(** The dict built in the [except json.JSONDecodeError] branch;
    [response_text] is the cleaned text. *)
Definition fallback (response_text : str) : dict :=
  [ (lit "invoice_number", VNone); (lit "vendor_name", VNone);
    (lit "vendor_abn", VNone); (lit "invoice_date", VNone);
    (lit "due_date", VNone); (lit "project_reference", VNone);
    (lit "description", VNone); (lit "line_items", VList []);
    (lit "subtotal", VNone); (lit "gst_amount", VNone);
    (lit "total_inc_gst", VNone); (lit "payment_terms", VNone);
    (lit "error", VStr (parse_failed ++ slice_to 200 response_text)) ].

(** [extract] from [response_text = response.content[0].text] on. *)
Definition extract_response (self : agent) (response_text : str) : result value :=
  let response_text := clean response_text in
  let result :=
    match json_loads response_text with
    | Some v => v
    | None => VDict (fallback response_text)
    end in
  setitem result (lit "_meta") (meta self).

(** [InvoiceAgent.extract] *)
Definition extract (self : agent) (document_text : str) : result value :=
  response <- agent_client self (request_for self document_text) ;;
  response_text <- Anthropic.first_text response ;;
  extract_response self response_text.

End InvoiceAgent.

(** ** pdf_utils.py *)

Module PdfUtils.

(** What [poller.result()] returns: pages, each with its lines ([None] or a
    list), each line with its [content]. *)
Record line : Type := { line_content : str }.
Record page : Type := { page_lines : option (list line) }.
Record analyze_result : Type := { result_pages : list page }.

(** A poller is the outcome of its [result()] call. *)
Definition poller := result analyze_result.

(** The outside world of [extract_text]: the file system, the process
    environment and the document-analysis service. *)
Record world : Type := {
  path_exists : str -> bool;
  getenv : str -> option str;
  open_rb : str -> result (list N);
  begin_analyze_document :
    forall (endpoint key model_id : str) (body : list N), result poller
}.

(** The calls made to the outside world, in order. *)
Inductive event : Type :=
| EvExists (path : str)
| EvGetenv (name : str)
| EvOpen (path : str)
| EvBeginAnalyze (model_id : str)
| EvPollerResult.

(** The two calls that go over the network. *)
Definition is_network (e : event) : bool :=
  match e with
  | EvBeginAnalyze _ | EvPollerResult => true
  | _ => false
  end.

(** A computation: the calls it made and how it ended. *)
Definition io (A : Type) : Type := (list event * result A)%type.

Definition ret {A : Type} (a : A) : io A := ([], Ok a).
Definition throw {A : Type} (e : exn) : io A := ([], Raise e).
Definition call {A : Type} (ev : event) (r : result A) : io A := ([ev], r).

Definition iobind {A B : Type} (m : io A) (k : A -> io B) : io B :=
  match m with
  | (t, Ok a) => let '(t', r) := k a in (t ++ t', r)
  | (t, Raise e) => (t, Raise e)
  end.

(** [try: m  except Exception as e: h e] *)
Definition try_except {A : Type} (m : io A) (h : exn -> io A) : io A :=
  match m with
  | (t, Ok a) => (t, Ok a)
  | (t, Raise e) => let '(t', r) := h e in (t ++ t', r)
  end.

Notation "x <~ m ;; k" := (iobind m (fun x => k))
  (at level 61, m at next level, right associativity).

(** The client: the endpoint and the key it was built with. *)
Record client : Type := { client_endpoint : str; client_key : str }.

(** [not x] for [x = os.getenv(...)]: unset or empty. *)
Definition falsy (x : option str) : bool :=
  match x with
  | None | Some [] => true
  | Some (_ :: _) => false
  end.

Definition or_empty (x : option str) : str :=
  match x with Some s => s | None => [] end.

Definition missing_secret : str :=
  lit "Missing AZURE_DOC_INTEL_ENDPOINT or AZURE_DOC_INTEL_KEY in .env".

Definition endpoint_name : str := lit "AZURE_DOC_INTEL_ENDPOINT".
Definition key_name : str := lit "AZURE_DOC_INTEL_KEY".

(** Either secret is unset or empty: the test [not endpoint or not key]. *)
Definition secret_missing (w : world) : bool :=
  falsy (getenv w endpoint_name) || falsy (getenv w key_name).

(** [_get_client] *)
Definition _get_client (w : world) : io client :=
  endpoint <~ call (EvGetenv endpoint_name) (Ok (getenv w endpoint_name)) ;;
  key <~ call (EvGetenv key_name) (Ok (getenv w key_name)) ;;
  if falsy endpoint || falsy key
  then throw (Exn ValueError missing_secret None)
  else ret {| client_endpoint := or_empty endpoint; client_key := or_empty key |}.

(** ["\n".join(parts)] *)
Fixpoint join_lines (parts : list str) : str :=
  match parts with
  | [] => []
  | [p] => p
  | p :: rest => p ++ 10%N :: join_lines rest
  end.

(** The two nested loops over [result.pages] and [page.lines or []]. *)
Definition text_parts (r : analyze_result) : list str :=
  flat_map
    (fun pg => List.map line_content
                 (match page_lines pg with Some ls => ls | None => [] end))
    (result_pages r).

(** The body of the [try] block. *)
Definition extract_body (w : world) (file_path : str) : io str :=
  c <~ _get_client w ;;
  f <~ call (EvOpen file_path) (open_rb w file_path) ;;
  p <~ call (EvBeginAnalyze (lit "prebuilt-read"))
            (begin_analyze_document w (client_endpoint c) (client_key c)
               (lit "prebuilt-read") f) ;;
  r <~ call EvPollerResult p ;;
  ret (join_lines (text_parts r)).

(** [extract_text] *)
Definition extract_text (w : world) (file_path : str) : io str :=
  found <~ call (EvExists file_path) (Ok (path_exists w file_path)) ;;
  if negb found
  then throw (Exn FileNotFoundError (lit "File not found: " ++ file_path) None)
  else
    try_except (extract_body w file_path)
      (fun e =>
         throw (Exn RuntimeError (lit "Failed to extract text: " ++ exn_str e)
                  (Some e))).

End PdfUtils.

(** ** The declared result shapes *)

Module Shape.

(** The field keys of a ClassificationResult (the keys listed in the
    docstring of [classify] and in its prompt). *)
Definition classification_fields : list str :=
  [ lit "document_type"; lit "confidence"; lit "vendor_name";
    lit "project_name"; lit "document_date"; lit "amount"; lit "reasoning" ].

(** The field keys of an InvoiceRecord (the keys of the prompt of [extract]
    and of its fallback, [error] apart). *)
Definition invoice_fields : list str :=
  [ lit "invoice_number"; lit "vendor_name"; lit "vendor_abn";
    lit "invoice_date"; lit "due_date"; lit "project_reference";
    lit "description"; lit "line_items"; lit "subtotal"; lit "gst_amount";
    lit "total_inc_gst"; lit "payment_terms" ].

(** Every key of [fields] is a key of the dict [v]. *)
Definition has_fields (fields : list str) (v : value) : bool :=
  match v with
  | VDict d => forallb (dict_has d) fields
  | _ => false
  end.

(** [v["document_type"]] is one of [DOCUMENT_TYPES]. *)
Definition document_type_valid (v : value) : bool :=
  match v with
  | VDict d =>
      match dict_get d (lit "document_type") with
      | Some (VStr t) => existsb (str_eqb t) RouterAgent.DOCUMENT_TYPES
      | _ => false
      end
  | _ => false
  end.

Definition is_number (v : value) : bool :=
  match v with VInt _ | VFloat _ => true | _ => false end.

Definition opt_string (v : option value) : bool :=
  match v with Some (VStr _) | Some VNone => true | _ => false end.

Definition opt_number (v : option value) : bool :=
  match v with Some (VInt _) | Some (VFloat _) | Some VNone => true | _ => false end.

(** One entry of [line_items]. *)
Definition line_item_ok (v : value) : bool :=
  match v with
  | VDict d =>
      match dict_get d (lit "description"), dict_get d (lit "quantity"),
            dict_get d (lit "unit_price"), dict_get d (lit "amount") with
      | Some (VStr _), Some q, Some u, Some a =>
          is_number q && is_number u && is_number a
      | _, _, _, _ => false
      end
  | _ => false
  end.

(** The shape the prompt of [extract] asks for. *)
Definition invoice_schema (v : value) : bool :=
  match v with
  | VDict d =>
      opt_string (dict_get d (lit "invoice_number")) &&
      opt_string (dict_get d (lit "vendor_name")) &&
      opt_string (dict_get d (lit "vendor_abn")) &&
      opt_string (dict_get d (lit "invoice_date")) &&
      opt_string (dict_get d (lit "due_date")) &&
      opt_string (dict_get d (lit "project_reference")) &&
      opt_string (dict_get d (lit "description")) &&
      match dict_get d (lit "line_items") with
      | Some (VList items) => forallb line_item_ok items
      | _ => false
      end &&
      opt_number (dict_get d (lit "subtotal")) &&
      opt_number (dict_get d (lit "gst_amount")) &&
      opt_number (dict_get d (lit "total_inc_gst")) &&
      opt_string (dict_get d (lit "payment_terms")) &&
      Nat.eqb (List.length d) 12
  | _ => false
  end.

(** The shape the prompt of [classify] asks for. *)
Definition classification_schema (v : value) : bool :=
  match v with
  | VDict d =>
      document_type_valid v &&
      match dict_get d (lit "confidence") with
      | Some c => is_number c
      | None => false
      end &&
      opt_string (dict_get d (lit "vendor_name")) &&
      opt_string (dict_get d (lit "project_name")) &&
      opt_string (dict_get d (lit "document_date")) &&
      opt_number (dict_get d (lit "amount")) &&
      opt_string (dict_get d (lit "reasoning")) &&
      Nat.eqb (List.length d) 7
  | _ => false
  end.

(** [r[k]] for the dict a call returned; [None] when the call raised, did
    not return a dict, or the key is absent. *)
Definition field (r : result value) (k : str) : option value :=
  match r with
  | Ok (VDict d) => dict_get d k
  | _ => None
  end.

(** [json.loads(t)[k]], [None] likewise. *)
Definition loaded_field (t : str) (k : str) : option value :=
  match json_loads t with
  | Some (VDict d) => dict_get d k
  | _ => None
  end.

End Shape.

(** ** Sample inputs *)

Module Samples.

(** A client that answers every request with the one text [t]. *)
Definition answering (t : str) : Anthropic.client := fun _ => Ok [t].

Definition router (t : str) : agent := RouterAgent.init (answering t).
Definition invoicer (t : str) : agent := InvoiceAgent.init (answering t).

Definition tracking : value :=
  VDict [ (lit "model", VStr (lit "claude-sonnet-4-20250514"));
          (lit "prompt_version", VStr (lit "v1")) ].

(** Valid JSON whose [document_type] is not one of the six. *)
Definition spreadsheet : str :=
  jlit "{'document_type': 'spreadsheet', 'confidence': 0.9, 'vendor_name': null, 'project_name': null, 'document_date': null, 'amount': null, 'reasoning': 'rows and columns'}".

(** The classification the prompt of [classify] gives as its example. *)
Definition classification_json : str :=
  jlit "{
    'document_type': 'invoice',
    'confidence': 0.95,
    'vendor_name': 'Smith Constructions Pty Ltd',
    'project_name': 'Balmoral Estate',
    'document_date': '2024-03-15',
    'amount': 24750.00,
    'reasoning': 'Document has TAX INVOICE header, ABN, GST breakdown...'
}".

(** A schema-valid invoice. *)
Definition invoice_members : str :=
  jlit "'invoice_number': 'INV-1', 'vendor_name': 'Smith', 'vendor_abn': '12 345 678 901', 'invoice_date': '2024-03-15', 'due_date': null, 'project_reference': null, 'description': 'slab', 'line_items': [{'description': 'pour', 'quantity': 1, 'unit_price': 15000.00, 'amount': 15000.00}], 'subtotal': 15000.00, 'gst_amount': 1500.00, 'total_inc_gst': 16500.00, 'payment_terms': '14 days'".

Definition invoice_json : str := 123%N :: invoice_members ++ [125%N].

Definition invoice_dict : dict :=
  [ (lit "invoice_number", VStr (lit "INV-1"));
    (lit "vendor_name", VStr (lit "Smith"));
    (lit "vendor_abn", VStr (lit "12 345 678 901"));
    (lit "invoice_date", VStr (lit "2024-03-15"));
    (lit "due_date", VNone);
    (lit "project_reference", VNone);
    (lit "description", VStr (lit "slab"));
    (lit "line_items",
     VList [ VDict [ (lit "description", VStr (lit "pour"));
                     (lit "quantity", VInt 1);
                     (lit "unit_price", VFloat (lit "15000.00"));
                     (lit "amount", VFloat (lit "15000.00")) ] ]);
    (lit "subtotal", VFloat (lit "15000.00"));
    (lit "gst_amount", VFloat (lit "1500.00"));
    (lit "total_inc_gst", VFloat (lit "16500.00"));
    (lit "payment_terms", VStr (lit "14 days")) ].

(** The same invoice inside a Markdown code fence. *)
Definition fenced_invoice : str :=
  lit "```json" ++ [10%N] ++ invoice_json ++ [10%N] ++ lit "```".

(** A schema-valid invoice whose description quotes a code fence. *)
Definition invoice_with_backticks : str :=
  jlit "{'invoice_number': 'INV-2', 'vendor_name': 'Docs Pty Ltd', 'vendor_abn': null, 'invoice_date': null, 'due_date': null, 'project_reference': null, 'description': 'wrap code in ```json fences', 'line_items': [], 'subtotal': null, 'gst_amount': null, 'total_inc_gst': null, 'payment_terms': null}".

(** Prose that quotes a fence marker: not JSON, before or after cleaning. *)
Definition prose : str := lit "```Sorry```, I cannot read this document.".

Definition secrets (name : str) : option str :=
  if str_eqb name (lit "AZURE_DOC_INTEL_ENDPOINT") then Some (lit "https://ocr.example")
  else if str_eqb name (lit "AZURE_DOC_INTEL_KEY") then Some (lit "k3y")
  else None.

Definition only_key (name : str) : option str :=
  if str_eqb name (lit "AZURE_DOC_INTEL_KEY") then Some (lit "k3y") else None.

Definition two_pages : PdfUtils.analyze_result :=
  {| PdfUtils.result_pages :=
       [ {| PdfUtils.page_lines :=
              Some [ {| PdfUtils.line_content := lit "TAX INVOICE" |};
                     {| PdfUtils.line_content := lit "ABN 12 345 678 901" |} ] |};
         {| PdfUtils.page_lines := None |};
         {| PdfUtils.page_lines :=
              Some [ {| PdfUtils.line_content := lit "TOTAL 24200.00" |} ] |} ] |}.

Definition timeout_error : exn :=
  Exn (OtherException (lit "ServiceRequestError")) (lit "connection timed out") None.

Definition analysis_error : exn :=
  Exn (OtherException (lit "HttpResponseError")) (lit "(InvalidContent) corrupt file") None.

(** Worlds: everything in place; no file; endpoint unset; the service
    refuses the submission; the analysis fails. *)
Definition healthy : PdfUtils.world :=
  {| PdfUtils.path_exists := fun _ => true;
     PdfUtils.getenv := secrets;
     PdfUtils.open_rb := fun _ => Ok [37; 80; 68; 70]%N;
     PdfUtils.begin_analyze_document := fun _ _ _ _ => Ok (Ok two_pages) |}.

Definition no_file : PdfUtils.world :=
  {| PdfUtils.path_exists := fun _ => false;
     PdfUtils.getenv := fun _ => None;
     PdfUtils.open_rb := fun _ => Raise (Exn FileNotFoundError (lit "No such file") None);
     PdfUtils.begin_analyze_document := fun _ _ _ _ => Ok (Ok two_pages) |}.

Definition no_endpoint : PdfUtils.world :=
  {| PdfUtils.path_exists := fun _ => true;
     PdfUtils.getenv := only_key;
     PdfUtils.open_rb := fun _ => Ok [37; 80; 68; 70]%N;
     PdfUtils.begin_analyze_document := fun _ _ _ _ => Ok (Ok two_pages) |}.

Definition refusing : PdfUtils.world :=
  {| PdfUtils.path_exists := fun _ => true;
     PdfUtils.getenv := secrets;
     PdfUtils.open_rb := fun _ => Ok [37; 80; 68; 70]%N;
     PdfUtils.begin_analyze_document := fun _ _ _ _ => Raise timeout_error |}.

Definition failing_analysis : PdfUtils.world :=
  {| PdfUtils.path_exists := fun _ => true;
     PdfUtils.getenv := secrets;
     PdfUtils.open_rb := fun _ => Ok [37; 80; 68; 70]%N;
     PdfUtils.begin_analyze_document := fun _ _ _ _ => Ok (Raise analysis_error) |}.

End Samples.

(** ** test_pdf_pipeline.py *)

Module Pipeline.

(** What the script does to the outside world, in order: the calls of
    [extract_text], the requests sent to the language model and the texts
    handed to [print] (each without the newline that [print] appends).
    Building the two agents and writing to the standard output are taken to
    succeed. *)
Inductive event : Type :=
| Pdf (e : PdfUtils.event)
| Request (r : Anthropic.request)
| Print (s : str).

Definition script (A : Type) : Type := (list event * result A)%type.

Definition andthen {A B : Type} (m : script A) (k : A -> script B) : script B :=
  match m with
  | (t, Ok a) => let '(t', r) := k a in (t ++ t', r)
  | (t, Raise e) => (t, Raise e)
  end.

Notation "x <~~ m ;; k" := (andthen m (fun x => k))
  (at level 61, m at next level, right associativity).

Definition print (s : str) : script unit := ([Print s], Ok tt).

(** A computation that touches nothing outside. *)
Definition pure {A : Type} (r : result A) : script A := ([], r).

(** [extract_text], with its calls recorded among those of the script. *)
Definition of_pdf {A : Type} (m : PdfUtils.io A) : script A :=
  (List.map Pdf (fst m), snd m).

(** A call of [classify] or [extract]: the request goes out, then the agent
    makes its result of the answer. *)
Definition asking (r : Anthropic.request) (answer : result value) : script value :=
  ([Request r], answer).

(** [type(v).__name__] *)
Definition type_name (v : value) : string :=
  match v with
  | VNone => "NoneType"
  | VBool _ => "bool"
  | VInt _ => "int"
  | VFloat _ => "float"
  | VStr _ => "str"
  | VList _ => "list"
  | VDict _ => "dict"
  end.

(** [obj.get(key)]: a method of [dict] only. *)
Definition get (obj : value) (key : str) : result (option value) :=
  match obj with
  | VDict d => Ok (dict_get d key)
  | _ =>
      Raise (Exn (OtherException (lit "AttributeError"))
               (lit "'" ++ lit (type_name obj) ++ lit "' object has no attribute 'get'")
               None)
  end.

(** [x == s] for what [get] returned and a [str] [s]. *)
Definition equals_str (x : option value) (s : str) : bool :=
  match x with
  | Some (VStr t) => str_eqb t s
  | _ => false
  end.

(** What an f-string puts in place of [{x}] for what [get] returned: a
    [str] as it is, [None] (also for an absent key) and the booleans by
    name; numbers, lists and dicts as [repr] writes them. *)
Definition fstr (repr : value -> str) (x : option value) : str :=
  match x with
  | None | Some VNone => lit "None"
  | Some (VStr s) => s
  | Some (VBool true) => lit "True"
  | Some (VBool false) => lit "False"
  | Some v => repr v
  end.

Definition pdf_name : str := lit "Invoice INV-0911.pdf".

(** The script.  [service] answers the requests of both agents; [dumps] is
    [json.dumps(_, indent=2)] and [repr] is Python's [repr], two pure
    functions the script only prints the results of. *)
Definition run (w : PdfUtils.world) (service : Anthropic.client)
    (dumps repr : value -> str) : script unit :=
  text <~~ of_pdf (PdfUtils.extract_text w pdf_name) ;;
  _ <~~ print (lit "=== Extracted Text ===") ;;
  _ <~~ print (slice_to 500 text) ;;
  _ <~~ print (10%N :: lit "=== Router Classification ===") ;;
  let router := RouterAgent.init service in
  router_result <~~ asking (RouterAgent.request_for router text)
                      (RouterAgent.classify router text) ;;
  _ <~~ print (dumps router_result) ;;
  document_type <~~ pure (get router_result (lit "document_type")) ;;
  if equals_str document_type (lit "invoice")
  then
    _ <~~ print (10%N :: lit "=== Invoice Extraction ===") ;;
    let invoice_agent := InvoiceAgent.init service in
    extraction <~~ asking (InvoiceAgent.request_for invoice_agent text)
                     (InvoiceAgent.extract invoice_agent text) ;;
    print (dumps extraction)
  else
    document_type <~~ pure (get router_result (lit "document_type")) ;;
    print (10%N :: lit "Skipping invoice extraction - document is: "
             ++ fstr repr document_type).

(** The requests among the events, and the printed texts. *)
Definition requests (t : list event) : list Anthropic.request :=
  flat_map (fun ev => match ev with Request r => [r] | _ => [] end) t.

Definition printed (t : list event) : list str :=
  flat_map (fun ev => match ev with Print s => [s] | _ => [] end) t.

End Pipeline.

(** ** pdf_utils.py run as a script *)

Module PdfMain.

(** The calls of [extract_text] and the texts handed to [print]. *)
Inductive event : Type :=
| Pdf (e : PdfUtils.event)
| Print (s : str).

(** How the process ends: at the end of the script, through [sys.exit], or
    with an exception nobody caught. *)
Inductive outcome : Type :=
| Completed
| Exit (status : N)
| Uncaught (e : exn).

(** [str(n)] for a length. *)
Definition decimal (n : nat) : str := lit (NilEmpty.string_of_uint (Nat.to_uint n)).

(** [text[:500] if len(text) > 500 else text] *)
Definition preview (text : str) : str :=
  if Nat.ltb 500 (List.length text) then slice_to 500 text else text.

(** The block under [if __name__ == "__main__"], given [sys.argv]. *)
Definition main (w : PdfUtils.world) (argv : list str) : list event * outcome :=
  if Nat.ltb (List.length argv) 2
  then ([Print (lit "Usage: python pdf_utils.py <path_to_pdf>")], Exit 1)
  else
    let pdf_path := nth 1 argv [] in
    let started :=
      [ Print (lit "Processing: " ++ pdf_path ++ [10%N]);
        Print (lit "=== extract_text ===") ] in
    match PdfUtils.extract_text w pdf_path with
    | (calls, Ok text) =>
        (started ++ List.map Pdf calls ++
         [ Print (preview text);
           Print (10%N :: lit "[Total: " ++ decimal (List.length text)
                    ++ lit " characters]") ],
         Completed)
    | (calls, Raise e) => (started ++ List.map Pdf calls, Uncaught e)
    end.

End PdfMain.

(** ** More sample inputs *)

Module Scenarios.

(** A client that answers the request about the document [doc] with [a] and
    every other request with [b]. *)
Definition answering_about (doc a b : str) : Anthropic.client :=
  fun r =>
    if contains (lit "---" ++ [10%N] ++ doc ++ [10%N] ++ lit "---") (Anthropic.req_user r)
    then Ok [a] else Ok [b].

(** The sample invoice with a line feed before it and a tab and a no-break
    space after it. *)
Definition padded_invoice : str := [10%N] ++ Samples.invoice_json ++ [9%N; 160%N].

(** The sample classification with JSON whitespace around it. *)
Definition spaced_classification : str :=
  [32%N; 10%N] ++ Samples.classification_json ++ [13%N; 10%N].

(** An object that brings its own [_meta]. *)
Definition with_own_meta : str :=
  jlit "{'_meta': 'mine', 'document_type': 'contract'}".

(** A model that classifies everything as an invoice and answers the
    extraction with the sample invoice; one whose classification is prose;
    one that leaves [document_type] out. *)
Definition invoice_service : Anthropic.client :=
  fun r =>
    if N.eqb (Anthropic.req_max_tokens r) 1000
    then Ok [Samples.classification_json]
    else Ok [Samples.fenced_invoice].

Definition prose_service : Anthropic.client := Samples.answering Samples.prose.
Definition untyped_service : Anthropic.client := Samples.answering (lit "{}").

(** A world whose file exists and cannot be opened. *)
Definition permission_denied : exn :=
  Exn (OtherException (lit "PermissionError"))
    (lit "[Errno 13] Permission denied: 'a.pdf'") None.

Definition unreadable : PdfUtils.world :=
  {| PdfUtils.path_exists := fun _ => true;
     PdfUtils.getenv := Samples.secrets;
     PdfUtils.open_rb := fun _ => Raise permission_denied;
     PdfUtils.begin_analyze_document := fun _ _ _ _ => Ok (Ok Samples.two_pages) |}.

(** Stand-ins for [json.dumps] and [repr] in examples. *)
Definition no_text (v : value) : str := [].

End Scenarios.

Import Samples.
Import Scenarios.

(** ** Sanity checks of the embedding *)

Example replace_demo :
  replace (lit "```") [] (lit "a```b``````c``d") = lit "abc``d".
Proof. reflexivity. Qed.

Example strip_demo : strip (10%N :: lit "  x y  " ++ [9%N; 160%N]) = lit "x y".
Proof. reflexivity. Qed.

Example prompts_have_source_length :
  List.length RouterAgent.system_prompt = 1169 /\
  List.length InvoiceAgent.system_prompt = 983.
Proof. split; vm_compute; reflexivity. Qed.

Example loads_duplicate_keys :
  json_loads (jlit "{'a': 1, 'b': [true, null], 'a': -2.5e3}") =
  Some (VDict [ (lit "a", VFloat (lit "-2.5e3"));
                (lit "b", VList [VBool true; VNone]) ]).
Proof. vm_compute. reflexivity. Qed.

Example loads_rejects_trailing_comma : json_loads (lit "[1,]") = None.
Proof. vm_compute. reflexivity. Qed.

Example invoice_json_loads : json_loads invoice_json = Some (VDict invoice_dict).
Proof. vm_compute. reflexivity. Qed.

Example samples_are_schema_valid :
  option_map Shape.invoice_schema (json_loads invoice_json) = Some true /\
  option_map Shape.invoice_schema (json_loads invoice_with_backticks) = Some true.
Proof. split; vm_compute; reflexivity. Qed.

Example classification_samples :
  option_map Shape.classification_schema (json_loads classification_json) = Some true /\
  option_map Shape.classification_schema (json_loads spreadsheet) = Some false.
Proof. split; vm_compute; reflexivity. Qed.

Example extract_text_joins_lines :
  PdfUtils.extract_text healthy (lit "a.pdf") =
  ( [ PdfUtils.EvExists (lit "a.pdf");
      PdfUtils.EvGetenv (lit "AZURE_DOC_INTEL_ENDPOINT");
      PdfUtils.EvGetenv (lit "AZURE_DOC_INTEL_KEY");
      PdfUtils.EvOpen (lit "a.pdf");
      PdfUtils.EvBeginAnalyze (lit "prebuilt-read");
      PdfUtils.EvPollerResult ],
    Ok (lit "TAX INVOICE
ABN 12 345 678 901
TOTAL 24200.00") ).
Proof. vm_compute. reflexivity. Qed.

(** ** Slices *)

Lemma slice_to_length (n : nat) (s : str) : List.length (slice_to n s) <= n.
Proof. unfold slice_to. apply firstn_le_length. Qed.

Lemma slice_to_prefix (n : nat) (s : str) : s = slice_to n s ++ skipn n s.
Proof. unfold slice_to. symmetry. apply firstn_skipn. Qed.

(** ** The classifier *)

(** C1, evaluated on the code: a response that is valid JSON with
    [document_type] "spreadsheet" and confidence 0.9 comes back as it is; the
    returned [document_type] is none of the six [DOCUMENT_TYPES] and the
    confidence is not reset. *)
Theorem classify_returns_unlisted_type (doc : str) :
  exists d,
    RouterAgent.classify (router spreadsheet) doc = Ok (VDict d) /\
    dict_get d (lit "document_type") = Some (VStr (lit "spreadsheet")) /\
    dict_get d (lit "confidence") = Some (VFloat (lit "0.9")) /\
    Shape.document_type_valid (VDict d) = false.
Proof.
  eexists. split; [vm_compute; reflexivity|].
  repeat split; vm_compute; reflexivity.
Qed.



(** C5, evaluated on the code: a response that is valid JSON but not an
    object (a number, a list, null) is parsed, and the assignment
    [result["_meta"] = ...] then raises [TypeError] out of [classify] and out
    of [extract]; no result is returned. *)
Theorem non_object_json_raises_type_error (doc : str) :
  RouterAgent.classify (router (lit "42")) doc =
    Raise (Exn TypeError (lit "'int' object does not support item assignment") None) /\
  InvoiceAgent.extract (invoicer (lit "[1, 2]")) doc =
    Raise (Exn TypeError (lit "list indices must be integers or slices, not str") None) /\
  InvoiceAgent.extract (invoicer (lit "```json null ```")) doc =
    Raise (Exn TypeError (lit "'NoneType' object does not support item assignment") None).
Proof. repeat split; vm_compute; reflexivity. Qed.

(** C6, evaluated on the code: when the response is the JSON object [{}]
    (or any object that leaves keys out), the result holds the keys of the
    response and [_meta] only; the declared field keys are absent, not
    null. *)
Theorem absent_keys_stay_absent (doc : str) :
  RouterAgent.classify (router (lit "{}")) doc = Ok (VDict [(lit "_meta", tracking)]) /\
  Shape.has_fields Shape.classification_fields (VDict [(lit "_meta", tracking)]) = false /\
  InvoiceAgent.extract (invoicer (jlit "{'invoice_number': 'INV-1'}")) doc =
    Ok (VDict [(lit "invoice_number", VStr (lit "INV-1")); (lit "_meta", tracking)]) /\
  Shape.has_fields Shape.invoice_fields
    (VDict [(lit "invoice_number", VStr (lit "INV-1")); (lit "_meta", tracking)]) = false.
Proof. repeat split; vm_compute; reflexivity. Qed.

(** ** Text extraction *)

Section ExtractText.

Import PdfUtils.

Variable w : world.
Variable path : str.

(** What [_get_client] does when both secrets are there. *)
Lemma get_client_ok (endpoint key : str) :
  getenv w endpoint_name = Some endpoint -> endpoint <> [] ->
  getenv w key_name = Some key -> key <> [] ->
  _get_client w =
    ([EvGetenv endpoint_name; EvGetenv key_name],
     Ok {| client_endpoint := endpoint; client_key := key |}).
Proof.
  intros He Hne Hk Hnk. unfold _get_client, call, iobind.
  rewrite He, Hk.
  destruct endpoint; [congruence|]. destruct key; [congruence|]. reflexivity.
Qed.

(** What [_get_client] does when a secret is missing. *)
Lemma get_client_missing :
  secret_missing w = true ->
  _get_client w =
    ([EvGetenv endpoint_name; EvGetenv key_name],
     Raise (Exn ValueError missing_secret None)).
Proof.
  unfold secret_missing, _get_client, call, iobind.
  intros ->. reflexivity.
Qed.

(** Whatever the world answers, an existing path ends in a text or in a
    [RuntimeError]: no other exception class leaves [extract_text]. *)
Lemma extract_text_raises_runtime_error_only :
  path_exists w path = true ->
  match snd (extract_text w path) with
  | Ok _ => True
  | Raise e => exn_cls e = RuntimeError
  end.
Proof.
  intros Hex. unfold extract_text, call, iobind. rewrite Hex. simpl.
  destruct (extract_body w path) as [t [a|e]]; simpl; auto.
Qed.

End ExtractText.

(** C7, the claim as stated fails: the path exists and the endpoint secret
    is unset, and what leaves [extract_text] is the [RuntimeError] of the
    [except Exception] clause, with the [ValueError] of [_get_client] as the
    exception it wraps. *)
Lemma missing_secret_is_wrapped :
  PdfUtils.path_exists no_endpoint (lit "a.pdf") = true /\
  PdfUtils.getenv no_endpoint PdfUtils.endpoint_name = None /\
  snd (PdfUtils.extract_text no_endpoint (lit "a.pdf")) =
    Raise (Exn RuntimeError
             (lit "Failed to extract text: Missing AZURE_DOC_INTEL_ENDPOINT or AZURE_DOC_INTEL_KEY in .env")
             (Some (Exn ValueError PdfUtils.missing_secret None))) /\
  (forall m c,
      snd (PdfUtils.extract_text no_endpoint (lit "a.pdf")) <>
      Raise (Exn ValueError m c)).
Proof.
  repeat split; try (vm_compute; reflexivity).
  intros m c H. vm_compute in H. discriminate H.
Qed.

(** C7, amended: when the path does not exist, [extract_text] raises
    [FileNotFoundError] after the existence check alone (no secret is read,
    no network call is made); when the path exists and either secret is
    unset or empty, the [ValueError] of [_get_client] is caught and what
    leaves [extract_text] is a [RuntimeError] that wraps it, raised before
    the file is opened and before any network call. *)
Theorem extract_text_early_failures (w : PdfUtils.world) (path : str) :
  (PdfUtils.path_exists w path = false ->
   PdfUtils.extract_text w path =
     ([PdfUtils.EvExists path],
      Raise (Exn FileNotFoundError (lit "File not found: " ++ path) None))) /\
  (PdfUtils.path_exists w path = true ->
   PdfUtils.secret_missing w = true ->
   PdfUtils.extract_text w path =
     ([PdfUtils.EvExists path; PdfUtils.EvGetenv PdfUtils.endpoint_name;
       PdfUtils.EvGetenv PdfUtils.key_name],
      Raise (Exn RuntimeError
               (lit "Failed to extract text: " ++ PdfUtils.missing_secret)
               (Some (Exn ValueError PdfUtils.missing_secret None)))) /\
   existsb PdfUtils.is_network (fst (PdfUtils.extract_text w path)) = false).
Proof.
  split.
  - intros Hex. unfold PdfUtils.extract_text, PdfUtils.call, PdfUtils.iobind.
    rewrite Hex. reflexivity.
  - intros Hex Hmiss.
    assert (E : PdfUtils.extract_text w path =
                ([PdfUtils.EvExists path; PdfUtils.EvGetenv PdfUtils.endpoint_name;
                  PdfUtils.EvGetenv PdfUtils.key_name],
                 Raise (Exn RuntimeError
                          (lit "Failed to extract text: " ++ PdfUtils.missing_secret)
                          (Some (Exn ValueError PdfUtils.missing_secret None))))).
    { unfold PdfUtils.extract_text, PdfUtils.call, PdfUtils.iobind at 1.
      rewrite Hex. simpl negb. cbv iota.
      unfold PdfUtils.extract_body, PdfUtils.iobind at 1.
      rewrite (get_client_missing w Hmiss). reflexivity. }
    split; [exact E|]. rewrite E. reflexivity.
Qed.

Lemma extract_text_early_failures_witness :
  PdfUtils.extract_text no_file (lit "a.pdf") =
    ([PdfUtils.EvExists (lit "a.pdf")],
     Raise (Exn FileNotFoundError (lit "File not found: " ++ lit "a.pdf") None)) /\
  existsb PdfUtils.is_network
    (fst (PdfUtils.extract_text no_endpoint (lit "a.pdf"))) = false.
Proof.
  split.
  - apply (proj1 (extract_text_early_failures no_file (lit "a.pdf"))).
    reflexivity.
  - apply (proj2 (extract_text_early_failures no_endpoint (lit "a.pdf")));
      reflexivity.
Defined.

(** C8: the path exists, both secrets are set and the file opens; if the
    OCR backend raises [e], when the document is submitted or when the
    analysis result is awaited, [extract_text] raises a [RuntimeError] whose
    text is "Failed to extract text: " followed by [str(e)] and whose
    context is [e]; the class of [e] is not what the caller sees. *)
Theorem extract_text_wraps_backend_failure
    (w : PdfUtils.world) (path endpoint key : str) (body : list N) (e : exn) :
  PdfUtils.path_exists w path = true ->
  PdfUtils.getenv w PdfUtils.endpoint_name = Some endpoint -> endpoint <> [] ->
  PdfUtils.getenv w PdfUtils.key_name = Some key -> key <> [] ->
  PdfUtils.open_rb w path = Ok body ->
  PdfUtils.begin_analyze_document w endpoint key (lit "prebuilt-read") body = Raise e \/
  PdfUtils.begin_analyze_document w endpoint key (lit "prebuilt-read") body = Ok (Raise e) ->
  snd (PdfUtils.extract_text w path) =
    Raise (Exn RuntimeError (lit "Failed to extract text: " ++ exn_str e) (Some e)) /\
  exists e', snd (PdfUtils.extract_text w path) = Raise e' /\
             exn_cls e' = RuntimeError /\ exn_context e' = Some e.
Proof.
  intros Hex He Hne Hk Hnk Hopen Hfail.
  assert (E : snd (PdfUtils.extract_text w path) =
              Raise (Exn RuntimeError (lit "Failed to extract text: " ++ exn_str e)
                       (Some e))).
  { unfold PdfUtils.extract_text, PdfUtils.call, PdfUtils.iobind at 1.
    rewrite Hex. simpl negb. cbv iota.
    unfold PdfUtils.extract_body, PdfUtils.iobind at 1.
    rewrite (get_client_ok w endpoint key He Hne Hk Hnk).
    unfold PdfUtils.call, PdfUtils.iobind. rewrite Hopen. simpl.
    destruct Hfail as [-> | ->]; reflexivity. }
  split; [exact E|].
  eexists. split; [exact E|]. split; reflexivity.
Qed.

Lemma extract_text_wraps_backend_failure_witness :
  snd (PdfUtils.extract_text refusing (lit "a.pdf")) =
    Raise (Exn RuntimeError (lit "Failed to extract text: " ++ lit "connection timed out")
             (Some timeout_error)) /\
  snd (PdfUtils.extract_text failing_analysis (lit "a.pdf")) =
    Raise (Exn RuntimeError
             (lit "Failed to extract text: " ++ lit "(InvalidContent) corrupt file")
             (Some analysis_error)).
Proof.
  split.
  - apply (extract_text_wraps_backend_failure refusing (lit "a.pdf")
             (lit "https://ocr.example") (lit "k3y")
             [37; 80; 68; 70]%N timeout_error);
      try reflexivity; try discriminate.
    left; reflexivity.
  - apply (extract_text_wraps_backend_failure failing_analysis (lit "a.pdf")
             (lit "https://ocr.example") (lit "k3y")
             [37; 80; 68; 70]%N analysis_error);
      try reflexivity; try discriminate.
    right; reflexivity.
Defined.

(** ** Strings: occurrences and [replace] *)

Section StrFacts.

Lemma starts_with_app (p a b : str) :
  starts_with p a = true -> starts_with p (a ++ b) = true.
Proof.
  revert a. induction p as [|x p IH]; intros [|y a]; simpl; auto; try discriminate.
  intros H. apply andb_true_iff in H as [-> H]. simpl. auto.
Qed.

Lemma starts_with_length (p s : str) :
  starts_with p s = true -> List.length p <= List.length s.
Proof.
  revert s. induction p as [|x p IH]; intros [|y s]; simpl; try lia; try discriminate.
  intros H. apply andb_true_iff in H as [_ H]. apply IH in H. lia.
Qed.

(** A match that begins in [u] and is not inside [u] covers the rest of
    [u]. *)
Lemma starts_with_app_inv (p u z : str) :
  starts_with p (u ++ z) = true ->
  starts_with p u = true \/ (forall c, In c u -> In c p).
Proof.
  revert u. induction p as [|a p IH]; intros u H.
  - left. destruct u; reflexivity.
  - destruct u as [|b u].
    + right. intros c [].
    + simpl in H. apply andb_true_iff in H as [Hab H].
      apply N.eqb_eq in Hab. subst b.
      destruct (IH u H) as [Hu | Hu].
      * left. simpl. rewrite N.eqb_refl. exact Hu.
      * right. intros c [<- | Hc]; [left; reflexivity | right; auto].
Qed.

Lemma contains_cons (p : str) (c : char) (s : str) :
  contains p (c :: s) = starts_with p (c :: s) || contains p s.
Proof. reflexivity. Qed.

Lemma contains_app_l (p a b : str) :
  contains p a = true -> contains p (a ++ b) = true.
Proof.
  induction a as [|c a IH]; intros H.
  - simpl in H. rewrite orb_false_r in H. destruct p; [|discriminate].
    destruct b; reflexivity.
  - rewrite contains_cons in H. simpl app. rewrite contains_cons.
    apply orb_true_iff in H as [H | H].
    + change (c :: a ++ b) with ((c :: a) ++ b).
      rewrite (starts_with_app _ _ b H). reflexivity.
    + rewrite (IH H). apply orb_true_r.
Qed.

Lemma contains_app_r (p a b : str) :
  contains p b = true -> contains p (a ++ b) = true.
Proof.
  intros H. induction a as [|c a IH]; [exact H|].
  simpl app. rewrite contains_cons, IH. apply orb_true_r.
Qed.

Lemma contains_tail (p : str) (c : char) (s : str) :
  contains p (c :: s) = false -> contains p s = false.
Proof. rewrite contains_cons. intros H. apply orb_false_iff in H. tauto. Qed.

(** *** [replace] *)

Lemma replace_from_skip (old new : str) (k : nat) (s : str) :
  replace_from old new k s = replace_from old new 0 (skipn k s).
Proof.
  revert k. induction s as [|c s IH]; intros [|k]; try reflexivity.
  simpl. apply IH.
Qed.

Lemma replace_from_cons (old new : str) (c : char) (s : str) :
  replace_from old new 0 (c :: s) =
  if starts_with old (c :: s)
  then new ++ replace_from old new 0 (skipn (List.length old - 1) s)
  else c :: replace_from old new 0 s.
Proof.
  cbn [replace_from].
  rewrite (replace_from_skip old new (List.length old - 1) s). reflexivity.
Qed.

(** Where no occurrence begins, [replace] copies. *)
Lemma replace_from_no_start (p new y t : str) :
  no_start p y t = true ->
  replace_from p new 0 (y ++ t) = y ++ replace_from p new 0 t.
Proof.
  induction y as [|c y IH]; intros H; [reflexivity|].
  simpl in H. apply andb_true_iff in H as [H1 H2].
  apply negb_true_iff in H1.
  change ((c :: y) ++ t) with (c :: (y ++ t)).
  rewrite replace_from_cons.
  change (c :: (y ++ t)) with ((c :: y) ++ t). 
  destruct p as [|a p]; [discriminate H1|].
  simpl in H1. simpl starts_with. rewrite H1. simpl. f_equal. auto.
Qed.

Lemma no_start_app (p a b t : str) :
  no_start p (a ++ b) t = no_start p a (b ++ t) && no_start p b t.
Proof.
  induction a as [|c a IH]; [reflexivity|].
  simpl. rewrite IH, <- app_assoc, andb_assoc. reflexivity.
Qed.

(** No occurrence begins at a character other than the first of [p]. *)
Lemma no_start_other_head (a : char) (p y t : str) :
  forallb (fun c => negb (N.eqb a c)) y = true ->
  no_start (a :: p) y t = true.
Proof.
  induction y as [|c y IH]; intros H; [reflexivity|].
  simpl in H. apply andb_true_iff in H as [H1 H2].
  simpl. apply negb_true_iff in H1. rewrite H1. simpl. auto.
Qed.

(** A text without occurrence of [p] that ends in a character foreign to
    [p] has no occurrence beginning in it, whatever follows. *)
Lemma no_start_closed (p b : str) (c : char) (z : str) :
  contains p (b ++ [c]) = false -> ~ In c p ->
  no_start p (b ++ [c]) z = true.
Proof.
  intros H Hc. induction b as [|x b IH].
  - simpl. rewrite andb_true_r. apply negb_true_iff.
    destruct (starts_with p (c :: z)) eqn:E; [|reflexivity].
    destruct (starts_with_app_inv p [c] z E) as [E' | E'].
    + simpl in H. simpl in E'. rewrite E' in H. discriminate.
    + exfalso. apply Hc, E'. left. reflexivity.
  - simpl app in *. rewrite contains_cons in H.
    apply orb_false_iff in H as [H1 H2].
    simpl. rewrite (IH H2), andb_true_r. apply negb_true_iff.
    destruct (starts_with p (x :: (b ++ [c]) ++ z)) eqn:E; [|reflexivity].
    destruct (starts_with_app_inv p (x :: b ++ [c]) z E) as [E' | E'].
    + rewrite E' in H1. discriminate.
    + exfalso. apply Hc, E'. right. apply in_or_app. right. left. reflexivity.
Qed.

Lemma no_start_weaken (p q y t : str) :
  no_start p y t = true -> no_start (p ++ q) y t = true.
Proof.
  induction y as [|c y IH]; intros H; [reflexivity|].
  simpl in *. apply andb_true_iff in H as [H1 H2].
  rewrite (IH H2), andb_true_r. apply negb_true_iff. apply negb_true_iff in H1.
  destruct (starts_with (p ++ q) (c :: y ++ t)) eqn:E; [|reflexivity].
  rewrite <- H1. symmetry.
  clear - E. revert E. generalize (c :: y ++ t). 
  induction p as [|a p IHp]; intros l E; [destruct l; reflexivity|].
  destruct l as [|b l]; [discriminate E|].
  simpl in *. apply andb_true_iff in E as [-> E]. simpl. auto.
Qed.

(** Without occurrence of [old], [replace] is the identity. *)
Lemma replace_absent (old new s : str) :
  contains old s = false -> replace old new s = s.
Proof.
  intros H. destruct old as [|a old].
  - destruct s; discriminate H.
  - unfold replace. induction s as [|c s IH]; [reflexivity|].
    rewrite contains_cons in H. apply orb_false_iff in H as [H1 H2].
    rewrite replace_from_cons, H1, (IH H2). reflexivity.
Qed.

End StrFacts.

(** ** Code fences *)

Section FenceFacts.

Let tick3 : str := [96; 96; 96]%N.

Local Arguments N.eqb : simpl never.

(** After [replace("```", "")] two backticks never begin the text unless
    they did before. *)
Lemma tick2_not_created (s : str) :
  starts_with [96; 96]%N s = false ->
  starts_with [96; 96]%N (replace_from tick3 [] 0 s) = false.
Proof.
  destruct s as [|c1 [|c2 s]]; intros H.
  - reflexivity.
  - rewrite replace_from_cons. simpl.
    destruct (N.eqb 96 c1); simpl; rewrite ?andb_false_r; reflexivity.
  - simpl in H. rewrite andb_true_r in H.
    rewrite replace_from_cons.
    assert (E : starts_with tick3 (c1 :: c2 :: s) = false).
    { simpl. destruct (N.eqb 96 c1); [|reflexivity].
      destruct (N.eqb 96 c2); [discriminate H | reflexivity]. }
    rewrite E. simpl.
    destruct (N.eqb 96 c1) eqn:E1; [|reflexivity].
    simpl in H |- *. rewrite H. simpl.
    destruct (replace_from tick3 [] 0 s); rewrite ?H; reflexivity.
Qed.

(** No ["```"] is left after [replace("```", "")]. *)
Lemma tick3_gone (s : str) : contains tick3 (replace tick3 [] s) = false.
Proof.
  change (replace tick3 [] s) with (replace_from tick3 [] 0 s).
  remember (List.length s) as n eqn:Hn.
  revert s Hn. induction n as [n IH] using lt_wf_ind. intros s Hn.
  destruct s as [|c s]; [reflexivity|].
  rewrite replace_from_cons.
  destruct (starts_with tick3 (c :: s)) eqn:E.
  - simpl app. apply (IH (List.length (skipn (List.length tick3 - 1) s))); [|reflexivity].
    subst n. rewrite length_skipn. simpl. lia.
  - rewrite contains_cons, (IH (List.length s)); [| subst n; simpl; lia | reflexivity].
    rewrite orb_false_r.
    simpl in E |- *. destruct (N.eqb 96 c); [|reflexivity].
    simpl in E |- *.
    apply (tick2_not_created s). exact E.
Qed.

End FenceFacts.

(** ** [strip] *)

Section StripFacts.

Lemma lstrip_app_space (w s : str) :
  forallb isspace w = true -> lstrip (w ++ s) = lstrip s.
Proof.
  induction w as [|c w IH]; intros H; [reflexivity|].
  simpl in H. apply andb_true_iff in H as [H1 H2].
  simpl. rewrite H1. auto.
Qed.

Lemma rstrip_space (w : str) : forallb isspace w = true -> rstrip w = [].
Proof.
  induction w as [|c w IH]; intros H; [reflexivity|].
  simpl in H. apply andb_true_iff in H as [H1 H2].
  simpl. rewrite (IH H2), H1. reflexivity.
Qed.

Lemma rstrip_app_space (s w : str) :
  forallb isspace w = true -> rstrip (s ++ w) = rstrip s.
Proof.
  intros H. induction s as [|c s IH].
  - simpl. apply rstrip_space, H.
  - simpl. rewrite IH. reflexivity.
Qed.

Lemma rstrip_closed (s : str) (c : char) :
  isspace c = false -> rstrip (s ++ [c]) = s ++ [c].
Proof.
  intros H. induction s as [|x s IH].
  - simpl. rewrite H. reflexivity.
  - simpl. rewrite IH. destruct (s ++ [c]) eqn:E; [|reflexivity].
    destruct s; discriminate E.
Qed.

Lemma lstrip_split (s : str) :
  exists w, s = w ++ lstrip s /\ forallb isspace w = true.
Proof.
  induction s as [|c s [w [E H]]].
  - exists []. split; reflexivity.
  - simpl. destruct (isspace c) eqn:Ec.
    + exists (c :: w). split; [simpl; f_equal; exact E | simpl; rewrite Ec; exact H].
    + exists []. split; reflexivity.
Qed.

Lemma rstrip_split (s : str) :
  exists w, s = rstrip s ++ w /\ forallb isspace w = true.
Proof.
  induction s as [|c s [w [E H]]].
  - exists []. split; reflexivity.
  - simpl. destruct (rstrip s) as [|x t] eqn:Er.
    + simpl in E. subst w. destruct (isspace c) eqn:Ec.
      * exists (c :: s). split; [reflexivity | simpl; rewrite Ec; exact H].
      * exists s. split; [reflexivity | exact H].
    + exists w. split; [simpl; f_equal; exact E | exact H].
Qed.

(** [strip] removes a whitespace prefix and a whitespace suffix. *)
Lemma strip_split (s : str) :
  exists w1 w2, s = w1 ++ strip s ++ w2 /\
                forallb isspace w1 = true /\ forallb isspace w2 = true.
Proof.
  destruct (lstrip_split s) as [w1 [E1 H1]].
  destruct (rstrip_split (lstrip s)) as [w2 [E2 H2]].
  exists w1, w2. unfold strip. rewrite <- E2. auto.
Qed.

(** [strip] does not create occurrences. *)
Lemma contains_strip (p s : str) :
  contains p (strip s) = true -> contains p s = true.
Proof.
  intros H. destruct (strip_split s) as [w1 [w2 [E _]]]. rewrite E.
  apply contains_app_r, contains_app_l, H.
Qed.

(** A text between two non-blank characters is what [strip] leaves of it
    and of the whitespace around it. *)
Lemma strip_closed (w1 w2 inner : str) (a b : char) :
  forallb isspace w1 = true -> forallb isspace w2 = true ->
  isspace a = false -> isspace b = false ->
  strip (w1 ++ (a :: inner ++ [b]) ++ w2) = a :: inner ++ [b].
Proof.
  intros H1 H2 Ha Hb. unfold strip.
  rewrite (lstrip_app_space _ _ H1). simpl lstrip. rewrite Ha.
  change (a :: (inner ++ [b]) ++ w2) with ((a :: inner ++ [b]) ++ w2).
  rewrite (rstrip_app_space _ _ H2).
  change (a :: inner ++ [b]) with ((a :: inner) ++ [b]).
  apply rstrip_closed, Hb.
Qed.

Lemma space_not_tick (w : str) :
  forallb isspace w = true -> forallb (fun c => negb (N.eqb 96 c)) w = true.
Proof.
  induction w as [|c w IH]; intros H; [reflexivity|].
  cbn [forallb] in H |- *. apply andb_true_iff in H as [H1 H2].
  rewrite (IH H2), andb_true_r.
  destruct (N.eqb_spec 96 c) as [<-|]; [discriminate H1 | reflexivity].
Qed.

End StripFacts.

(** ** Cleaning a fenced response *)

Section CleanFacts.

Let tick3 : str := [96; 96; 96]%N.
Let fence : str := [96; 96; 96; 106; 115; 111; 110]%N.

Local Arguments N.eqb : simpl never.

Lemma starts_with_self (p s : str) : starts_with p (p ++ s) = true.
Proof.
  induction p as [|a p IH]; [reflexivity|].
  simpl. rewrite N.eqb_refl. exact IH.
Qed.

(** At an occurrence, [replace] writes [new] and goes on after it. *)
Lemma replace_from_match (a : char) (p new s : str) :
  replace_from (a :: p) new 0 ((a :: p) ++ s) =
  new ++ replace_from (a :: p) new 0 s.
Proof.
  change ((a :: p) ++ s) with (a :: (p ++ s)). rewrite replace_from_cons.
  change (a :: (p ++ s)) with ((a :: p) ++ s). rewrite starts_with_self.
  replace (List.length (a :: p) - 1) with (List.length p) by (simpl; lia).
  rewrite skipn_app, skipn_all, Nat.sub_diag. reflexivity.
Qed.

(** Whitespace is copied by both replacements. *)
Lemma replace_from_space (p new w t : str) :
  forallb isspace w = true ->
  replace_from (96%N :: p) new 0 (w ++ t) = w ++ replace_from (96%N :: p) new 0 t.
Proof.
  intros H. apply replace_from_no_start, no_start_other_head, space_not_tick, H.
Qed.

Lemma fence_not_in_closing (w : str) :
  forallb isspace w = true -> no_start fence tick3 w = true.
Proof.
  intros H. destruct w as [|c w]; [reflexivity|].
  cbn [forallb] in H. apply andb_true_iff in H as [H _].
  assert (E : N.eqb 106 c = false).
  { destruct (N.eqb_spec 106 c) as [<-|]; [discriminate H | reflexivity]. }
  assert (E' : N.eqb 96 c = false).
  { destruct (N.eqb_spec 96 c) as [<-|]; [discriminate H | reflexivity]. }
  simpl. rewrite E, E'. reflexivity.
Qed.

(** What [extract] parses when the response is an object between fences. *)
Lemma clean_fenced (w0 w1 w2 w3 inner : str) :
  forallb isspace w0 = true -> forallb isspace w1 = true ->
  forallb isspace w2 = true -> forallb isspace w3 = true ->
  contains tick3 (123%N :: inner ++ [125%N]) = false ->
  InvoiceAgent.clean
    (w0 ++ fence ++ w1 ++ (123%N :: inner ++ [125%N]) ++ w2 ++ tick3 ++ w3)
  = 123%N :: inner ++ [125%N].
Proof.
  intros H0 H1 H2 H3 Hb. unfold InvoiceAgent.clean.
  change (lit "```json") with fence. change (lit "```") with tick3.
  set (body := 123%N :: inner ++ [125%N]) in *.
  assert (B : forall t, no_start tick3 body t = true).
  { intros t. subst body.
    change (123%N :: inner ++ [125%N]) with ((123%N :: inner) ++ [125%N]).
    apply no_start_closed; [exact Hb|].
    intros [H | [H | [H | []]]]; discriminate H. }
  assert (J : forall t, no_start fence body t = true).
  { intros t. apply (no_start_weaken tick3 [106; 115; 111; 110]%N), B. }
  assert (R1 : replace fence []
                 (w0 ++ fence ++ w1 ++ body ++ w2 ++ tick3 ++ w3)
               = w0 ++ w1 ++ body ++ w2 ++ tick3 ++ w3).
  { pose proof (fence_not_in_closing _ H3) as F.
    specialize (J (w2 ++ tick3 ++ w3)).
    unfold fence, tick3 in *. unfold replace.
    rewrite (replace_from_space _ _ _ _ H0). f_equal.
    rewrite replace_from_match. simpl app at 1.
    rewrite (replace_from_space _ _ _ _ H1). f_equal.
    rewrite (replace_from_no_start _ _ _ _ J). f_equal.
    rewrite (replace_from_space _ _ _ _ H2). f_equal.
    rewrite (replace_from_no_start _ _ _ _ F). f_equal.
    rewrite <- (app_nil_r w3) at 1.
    rewrite (replace_from_space _ _ _ _ H3). apply app_nil_r. }
  rewrite R1. clear R1.
  assert (R2 : replace tick3 [] (w0 ++ w1 ++ body ++ w2 ++ tick3 ++ w3)
               = w0 ++ w1 ++ body ++ w2 ++ w3).
  { specialize (B (w2 ++ tick3 ++ w3)).
    unfold tick3 in *. unfold replace.
    rewrite (replace_from_space _ _ _ _ H0). f_equal.
    rewrite (replace_from_space _ _ _ _ H1). f_equal.
    rewrite (replace_from_no_start _ _ _ _ B). f_equal.
    rewrite (replace_from_space _ _ _ _ H2). f_equal.
    rewrite replace_from_match. simpl app at 1.
    rewrite <- (app_nil_r w3) at 1.
    rewrite (replace_from_space _ _ _ _ H3). apply app_nil_r. }
  rewrite R2. clear R2.
  replace (w0 ++ w1 ++ body ++ w2 ++ w3) with ((w0 ++ w1) ++ body ++ (w2 ++ w3))
    by (rewrite <- !app_assoc; reflexivity).
  subst body. apply strip_closed; try reflexivity.
  - rewrite forallb_app, H0, H1. reflexivity.
  - rewrite forallb_app, H2, H3. reflexivity.
Qed.

End CleanFacts.

(** ** Whitespace and the JSON lexer *)

Section SpaceFacts.

Local Open Scope N_scope.

(** Where the whitespace characters lie. *)
Lemma isspace_range (c : char) :
  isspace c = true ->
  (9 <= c <= 13) \/ (28 <= c <= 32) \/ c = 133 \/ c = 160 \/ 5760 <= c.
Proof.
  unfold isspace. intros H.
  repeat (apply orb_true_iff in H; destruct H as [H | H]);
    repeat (apply andb_true_iff in H; destruct H as [H ?]);
    repeat match goal with
           | H : (_ <=? _) = true |- _ => apply N.leb_le in H
           | H : (_ =? _) = true |- _ => apply N.eqb_eq in H
           end; lia.
Qed.

Lemma space_neq (c k : char) :
  isspace c = true -> 33 <= k < 133 -> (c =? k) = false.
Proof.
  intros H Hk. apply N.eqb_neq. apply isspace_range in H. lia.
Qed.

Lemma space_not_digit (c : char) : isspace c = true -> is_digit c = false.
Proof.
  intros H. apply isspace_range in H. unfold is_digit.
  destruct (N.leb_spec 48 c), (N.leb_spec c 57); try reflexivity. lia.
Qed.

Lemma space_not_hex (c : char) : isspace c = true -> hex_val c = None.
Proof.
  intros H. unfold hex_val. rewrite (space_not_digit _ H).
  apply isspace_range in H.
  destruct (N.leb_spec 97 c), (N.leb_spec c 102), (N.leb_spec 65 c), (N.leb_spec c 70);
    try reflexivity; lia.
Qed.

Lemma space_not_escape (c : char) : isspace c = true -> simple_escape c = None.
Proof.
  intros H. unfold simple_escape.
  rewrite !(space_neq c _ H) by lia. reflexivity.
Qed.

Lemma json_ws_space (c : char) : is_json_ws c = true -> isspace c = true.
Proof.
  unfold is_json_ws. intros H.
  repeat (apply orb_true_iff in H; destruct H as [H | H]);
    apply N.eqb_eq in H; subst c; reflexivity.
Qed.

End SpaceFacts.

Section HexFacts.

Lemma hex4_none_1 a b c d : hex_val a = None -> hex4 a b c d = None.
Proof. unfold hex4. intros ->. reflexivity. Qed.
Lemma hex4_none_2 a b c d : hex_val b = None -> hex4 a b c d = None.
Proof. unfold hex4. intros ->. destruct (hex_val a); reflexivity. Qed.
Lemma hex4_none_3 a b c d : hex_val c = None -> hex4 a b c d = None.
Proof. unfold hex4. intros ->. destruct (hex_val a), (hex_val b); reflexivity. Qed.
Lemma hex4_none_4 a b c d : hex_val d = None -> hex4 a b c d = None.
Proof.
  unfold hex4. intros ->. destruct (hex_val a), (hex_val b), (hex_val c); reflexivity.
Qed.

End HexFacts.

Section ScanFacts.

Local Arguments N.eqb : simpl never.
Local Arguments N.leb : simpl never.
Local Arguments N.ltb : simpl never.

(** Take the next character of a whitespace text. *)
Ltac next_space w H :=
  destruct w as [|?c w];
  [ | cbn [forallb] in H; apply andb_true_iff in H; destruct H as [?Hs H] ].

Ltac space_facts :=
  repeat match goal with
         | H : isspace ?c = true |- _ =>
             pose proof (space_not_hex c H);
             pose proof (space_not_escape c H);
             pose proof (space_neq c 92%N H ltac:(lia));
             pose proof (space_neq c 117%N H ltac:(lia));
             pose proof (space_neq c 34%N H ltac:(lia));
             clear H
         end.

Ltac use_space_facts :=
  repeat match goal with
         | E : (?c =? ?k)%N = false |- context [(?c =? ?k)%N] => rewrite E
         | E : simple_escape ?c = None |- context [simple_escape ?c] => rewrite E
         end.

(** Whitespace after the text changes an escape only where the text ends
    inside a second [\u] escape; the scan fails there in both cases. *)
Lemma escape_at_app_space (r w : str) :
  forallb isspace w = true ->
  escape_at (r ++ w) = escape_at r \/
  (escape_at (r ++ w) = None /\
   exists u, escape_at r = Some (u, 5) /\ scan_from 5 r = None).
Proof.
  intros H. destruct r as [|e r2].
  { left. next_space w H; [reflexivity|]. space_facts.
    cbn [app]. unfold escape_at. use_space_facts. reflexivity. }
  cbn [app]. unfold escape_at.
  destruct (N.eqb e 117) eqn:Ee; [|left; reflexivity].
  destruct r2 as [|h1 [|h2 [|h3 [|h4 r3]]]]; cbn [app].
  1-4: left; repeat (next_space w H; [reflexivity|]); space_facts;
       first [ rewrite hex4_none_1 by assumption
             | rewrite hex4_none_2 by assumption
             | rewrite hex4_none_3 by assumption
             | rewrite hex4_none_4 by assumption ]; reflexivity.
  destruct (hex4 h1 h2 h3 h4) as [u|]; [|left; reflexivity].
  destruct r3 as [|b [|e' [|g1 [|g2 [|g3 [|g4 r4]]]]]]; cbn [app];
    [ | | | | | | left; reflexivity ].
  - left. repeat (next_space w H; [reflexivity|]). space_facts.
    use_space_facts. rewrite ?andb_false_r. reflexivity.
  - left. repeat (next_space w H; [reflexivity|]). space_facts.
    use_space_facts. rewrite ?andb_false_r. reflexivity.
  - destruct (is_high_surrogate u && N.eqb b 92 && N.eqb e' 117) eqn:C.
    2:{ left. do 4 (next_space w H; [reflexivity|]). reflexivity. }
    apply andb_true_iff in C as [C C3]. apply andb_true_iff in C as [C1 C2].
    do 4 (next_space w H; [left; reflexivity|]). space_facts.
    right. rewrite hex4_none_1 by assumption. split; [reflexivity|].
    exists u. split; [reflexivity|].
    cbn [scan_from]. rewrite C2. 
    replace (N.eqb b 34) with false
      by (apply N.eqb_eq in C2; subst b; reflexivity).
    unfold escape_at. rewrite C3. reflexivity.
  - destruct (is_high_surrogate u && N.eqb b 92 && N.eqb e' 117) eqn:C.
    2:{ left. do 3 (next_space w H; [reflexivity|]). reflexivity. }
    apply andb_true_iff in C as [C C3]. apply andb_true_iff in C as [C1 C2].
    do 3 (next_space w H; [left; reflexivity|]). space_facts.
    right. rewrite hex4_none_2 by assumption. split; [reflexivity|].
    exists u. split; [reflexivity|].
    cbn [scan_from]. rewrite C2.
    replace (N.eqb b 34) with false
      by (apply N.eqb_eq in C2; subst b; reflexivity).
    unfold escape_at. rewrite C3. reflexivity.
  - destruct (is_high_surrogate u && N.eqb b 92 && N.eqb e' 117) eqn:C.
    2:{ left. do 2 (next_space w H; [reflexivity|]). reflexivity. }
    apply andb_true_iff in C as [C C3]. apply andb_true_iff in C as [C1 C2].
    do 2 (next_space w H; [left; reflexivity|]). space_facts.
    right. rewrite hex4_none_3 by assumption. split; [reflexivity|].
    exists u. split; [reflexivity|].
    cbn [scan_from]. rewrite C2.
    replace (N.eqb b 34) with false
      by (apply N.eqb_eq in C2; subst b; reflexivity).
    unfold escape_at. rewrite C3. reflexivity.
  - destruct (is_high_surrogate u && N.eqb b 92 && N.eqb e' 117) eqn:C.
    2:{ left. do 1 (next_space w H; [reflexivity|]). reflexivity. }
    apply andb_true_iff in C as [C C3]. apply andb_true_iff in C as [C1 C2].
    do 1 (next_space w H; [left; reflexivity|]). space_facts.
    right. rewrite hex4_none_4 by assumption. split; [reflexivity|].
    exists u. split; [reflexivity|].
    cbn [scan_from]. rewrite C2.
    replace (N.eqb b 34) with false
      by (apply N.eqb_eq in C2; subst b; reflexivity).
    unfold escape_at. rewrite C3. reflexivity.
Qed.

End ScanFacts.

Section TokenFacts.

Local Arguments N.eqb : simpl never.
Local Arguments N.leb : simpl never.
Local Arguments N.ltb : simpl never.

(** No string ends inside whitespace. *)
Lemma scan_from_space (w : str) (k : nat) :
  forallb isspace w = true -> scan_from k w = None.
Proof.
  revert k. induction w as [|c w IH]; intros k H; [reflexivity|].
  cbn [forallb] in H. apply andb_true_iff in H as [Hc H].
  destruct k as [|k]; cbn [scan_from].
  - rewrite (space_neq c 34%N Hc), (space_neq c 92%N Hc) by lia.
    rewrite (IH 0 H). destruct (N.ltb c 32); reflexivity.
  - rewrite (IH k H). reflexivity.
Qed.

Lemma scan_from_app_space (s w : str) (k : nat) :
  forallb isspace w = true -> scan_from k (s ++ w) = scan_from k s.
Proof.
  intros H. revert k. induction s as [|c s IH]; intros k.
  - simpl. rewrite (scan_from_space w k H). destruct k; reflexivity.
  - cbn [app scan_from]. destruct k as [|k]; [|rewrite IH; reflexivity].
    destruct (N.eqb c 34); [reflexivity|].
    destruct (N.eqb c 92).
    + destruct (escape_at_app_space s w H) as [E | [E [u [E1 E2]]]].
      * rewrite E. destruct (escape_at s) as [[x used]|]; [|reflexivity].
        rewrite IH. reflexivity.
      * rewrite E, E1, E2. reflexivity.
    + rewrite IH. reflexivity.
Qed.

Lemma scan_from_bound (s : str) (k : nat) (t : str) (n : nat) :
  scan_from k s = Some (t, n) -> 1 <= n <= List.length s.
Proof.
  revert k t n. induction s as [|c s IH]; intros k t n; [discriminate|].
  cbn [scan_from List.length]. destruct k as [|k].
  - destruct (N.eqb c 34).
    { intros E. injection E as <- <-. lia. }
    destruct (N.eqb c 92).
    + destruct (escape_at s) as [[x used]|]; [|discriminate].
      destruct (scan_from used s) as [[t' m]|] eqn:E; [|discriminate].
      intros E'. injection E' as <- <-. apply IH in E. lia.
    + destruct (N.ltb c 32); [discriminate|].
      destruct (scan_from 0 s) as [[t' m]|] eqn:E; [|discriminate].
      intros E'. injection E' as <- <-. apply IH in E. lia.
  - destruct (scan_from k s) as [[t' m]|] eqn:E; [|discriminate].
    intros E'. injection E' as <- <-. apply IH in E. lia.
Qed.

(** *** Numbers *)

Lemma digits_len_app_space (s w : str) :
  forallb isspace w = true -> digits_len (s ++ w) = digits_len s.
Proof.
  intros H. induction s as [|c s IH].
  - destruct w as [|c w]; [reflexivity|].
    cbn [forallb] in H. apply andb_true_iff in H as [Hc _].
    simpl. rewrite (space_not_digit c Hc). reflexivity.
  - simpl. rewrite IH. reflexivity.
Qed.

Lemma digits_len_bound (s : str) : digits_len s <= List.length s.
Proof.
  induction s as [|c s IH]; simpl; [lia|]. destruct (is_digit c); simpl; lia.
Qed.

Lemma int_len_app_space (s w : str) :
  forallb isspace w = true -> int_len (s ++ w) = int_len s.
Proof.
  intros H. destruct s as [|c s].
  - destruct w as [|c w]; [reflexivity|].
    cbn [forallb] in H. apply andb_true_iff in H as [Hc _].
    simpl. rewrite (space_not_digit c Hc), (space_neq c 48%N Hc) by lia.
    reflexivity.
  - simpl. rewrite (digits_len_app_space s w H). reflexivity.
Qed.

Lemma int_len_bound (s : str) : int_len s <= List.length s.
Proof.
  destruct s as [|c s]; simpl; [lia|].
  pose proof (digits_len_bound s).
  destruct (N.eqb c 48), (is_digit c); simpl; lia.
Qed.

Lemma frac_len_app_space (s w : str) :
  forallb isspace w = true -> frac_len (s ++ w) = frac_len s.
Proof.
  intros H. destruct s as [|c s].
  - destruct w as [|c w]; [reflexivity|].
    cbn [forallb] in H. apply andb_true_iff in H as [Hc _].
    simpl. rewrite (space_neq c 46%N Hc) by lia. reflexivity.
  - simpl. rewrite (digits_len_app_space s w H). reflexivity.
Qed.

Lemma frac_len_bound (s : str) : frac_len s <= List.length s.
Proof.
  destruct s as [|c s]; simpl; [lia|].
  pose proof (digits_len_bound s).
  destruct (N.eqb c 46); [|lia]. destruct (digits_len s); simpl; lia.
Qed.

Lemma exp_len_app_space (s w : str) :
  forallb isspace w = true -> exp_len (s ++ w) = exp_len s.
Proof.
  intros H. destruct s as [|c s].
  - destruct w as [|c w]; [reflexivity|].
    cbn [forallb] in H. apply andb_true_iff in H as [Hc _].
    simpl. rewrite (space_neq c 101%N Hc), (space_neq c 69%N Hc) by lia.
    reflexivity.
  - cbn [app exp_len]. destruct (N.eqb c 101 || N.eqb c 69); [|reflexivity].
    destruct s as [|sg s].
    + destruct w as [|c' w]; [reflexivity|].
      cbn [forallb] in H. apply andb_true_iff in H as [Hc H].
      cbn [app]. rewrite (space_neq c' 43%N Hc), (space_neq c' 45%N Hc) by lia.
      cbn [orb]. change (c' :: w) with ([] ++ c' :: w).
      rewrite (digits_len_app_space [] (c' :: w)); [reflexivity|].
      cbn [forallb]. rewrite Hc, H. reflexivity.
    + cbn [app].
      change (sg :: s ++ w) with ((sg :: s) ++ w).
      rewrite (digits_len_app_space s w H), (digits_len_app_space (sg :: s) w H).
      reflexivity.
Qed.

Lemma exp_len_bound (s : str) : exp_len s <= List.length s.
Proof.
  destruct s as [|c s]; cbn [exp_len List.length]; [lia|].
  destruct (N.eqb c 101 || N.eqb c 69); [|lia].
  destruct s as [|sg s]; [simpl; lia|].
  pose proof (digits_len_bound s). pose proof (digits_len_bound (sg :: s)).
  cbn [List.length] in *.
  destruct (N.eqb sg 43 || N.eqb sg 45).
  - destruct (digits_len s); lia.
  - destruct (digits_len (sg :: s)); lia.
Qed.

Lemma skipn_app_within {A : Type} (n : nat) (s w : list A) :
  n <= List.length s -> skipn n (s ++ w) = skipn n s ++ w.
Proof.
  intros H. rewrite skipn_app.
  replace (n - List.length s) with 0 by lia. reflexivity.
Qed.

Lemma firstn_app_within {A : Type} (n : nat) (s w : list A) :
  n <= List.length s -> firstn n (s ++ w) = firstn n s.
Proof.
  intros H. rewrite firstn_app.
  replace (n - List.length s) with 0 by lia. simpl. apply app_nil_r.
Qed.

(** The lengths [match_number] adds up stay inside the text. *)
Lemma number_parts_bound (body : str) :
  let il := int_len body in
  let fl := frac_len (skipn il body) in
  let el := exp_len (skipn (il + fl) body) in
  il <= List.length body /\ il + fl <= List.length body /\
  il + fl + el <= List.length body.
Proof.
  intros il fl el.
  pose proof (int_len_bound body) as Hi.
  pose proof (frac_len_bound (skipn il body)) as Hf.
  pose proof (exp_len_bound (skipn (il + fl) body)) as He.
  rewrite length_skipn in Hf, He. fold il in Hi. fold fl in Hf, He. fold el in He.
  lia.
Qed.

Lemma match_number_app_space (s w : str) :
  forallb isspace w = true -> match_number (s ++ w) = match_number s.
Proof.
  intros H. unfold match_number.
  set (sign := match s with c :: _ => if N.eqb c 45 then 1 else 0 | [] => 0 end).
  assert (Es : match s ++ w with c :: _ => if N.eqb c 45 then 1 else 0 | [] => 0 end = sign).
  { subst sign. destruct s as [|c s]; [|reflexivity].
    destruct w as [|c w]; [reflexivity|].
    cbn [forallb] in H. apply andb_true_iff in H as [Hc _].
    simpl. rewrite (space_neq c 45%N Hc) by lia. reflexivity. }
  rewrite Es.
  assert (Hsign : sign <= List.length s).
  { subst sign. destruct s as [|c s]; simpl; [lia|]. destruct (N.eqb c 45); lia. }
  rewrite (skipn_app_within sign s w Hsign).
  set (body := skipn sign s).
  assert (Hbody : sign + List.length body = List.length s).
  { subst body. rewrite length_skipn. lia. }
  rewrite (int_len_app_space body w H).
  destruct (number_parts_bound body) as [B1 [B2 B3]].
  destruct (int_len body) as [|il'] eqn:Ei; [reflexivity|].
  rewrite (skipn_app_within _ body w B1), (frac_len_app_space _ w H).
  rewrite (skipn_app_within _ body w B2), (exp_len_app_space _ w H).
  rewrite (firstn_app_within _ body w B1).
  rewrite (firstn_app_within _ s w) by lia.
  reflexivity.
Qed.

Lemma match_number_bound (s : str) (v : value) (n : nat) :
  match_number s = Some (v, n) -> 1 <= n <= List.length s.
Proof.
  unfold match_number.
  set (sign := match s with c :: _ => if N.eqb c 45 then 1 else 0 | [] => 0 end).
  assert (Hsign : sign <= List.length s).
  { subst sign. destruct s as [|c s]; simpl; [lia|]. destruct (N.eqb c 45); lia. }
  set (body := skipn sign s).
  assert (Hbody : sign + List.length body = List.length s).
  { subst body. rewrite length_skipn. lia. }
  destruct (number_parts_bound body) as [B1 [B2 B3]].
  destruct (int_len body) as [|il'] eqn:Ei; [discriminate|].
  set (fl := frac_len (skipn (S il') body)) in *.
  set (el := exp_len (skipn (S il' + fl) body)) in *.
  clearbody fl el.
  destruct (fl + el); intros E; injection E as <- <-; lia.
Qed.

End TokenFacts.

Section LexFacts.

Local Arguments N.eqb : simpl never.
Local Arguments N.leb : simpl never.
Local Arguments N.ltb : simpl never.

Lemma space_neq_sym (c k : char) :
  isspace c = true -> (33 <= k < 133)%N -> N.eqb k c = false.
Proof. intros H Hk. rewrite N.eqb_sym. apply space_neq; assumption. Qed.

Lemma starts_with_app_space (p s w : str) :
  forallb (fun c => negb (isspace c)) p = true ->
  forallb isspace w = true ->
  starts_with p (s ++ w) = starts_with p s.
Proof.
  intros Hp Hw. revert s. induction p as [|a p IH]; intros s.
  - destruct s, w; reflexivity.
  - cbn [forallb] in Hp. apply andb_true_iff in Hp as [Ha Hp].
    apply negb_true_iff in Ha.
    destruct s as [|b s].
    + destruct w as [|c w]; [reflexivity|].
      cbn [forallb] in Hw. apply andb_true_iff in Hw as [Hc _].
      simpl. destruct (N.eqb_spec a c) as [->|]; [congruence | reflexivity].
    + simpl. rewrite (IH Hp). reflexivity.
Qed.

(** No token begins with a whitespace character. *)
Lemma next_token_space (c : char) (s : str) :
  isspace c = true -> next_token (c :: s) = None.
Proof.
  intros H. unfold next_token.
  rewrite (space_neq c 34%N H), (space_neq c 123%N H), (space_neq c 125%N H),
    (space_neq c 91%N H), (space_neq c 93%N H), (space_neq c 44%N H),
    (space_neq c 58%N H) by lia.
  change (lit "null") with [110; 117; 108; 108]%N.
  change (lit "true") with [116; 114; 117; 101]%N.
  change (lit "false") with [102; 97; 108; 115; 101]%N.
  change (lit "NaN") with [78; 97; 78]%N.
  change (lit "Infinity") with [73; 110; 102; 105; 110; 105; 116; 121]%N.
  change (lit "-Infinity") with [45; 73; 110; 102; 105; 110; 105; 116; 121]%N.
  cbn [starts_with].
  rewrite (space_neq_sym c 110%N H), (space_neq_sym c 116%N H),
    (space_neq_sym c 102%N H), (space_neq_sym c 78%N H),
    (space_neq_sym c 73%N H), (space_neq_sym c 45%N H) by lia.
  cbn [andb].
  unfold match_number. rewrite (space_neq c 45%N H) by lia.
  cbn [skipn int_len]. rewrite (space_neq c 48%N H), (space_not_digit c H) by lia.
  reflexivity.
Qed.

Lemma next_token_app_space (s w : str) :
  forallb isspace w = true -> next_token (s ++ w) = next_token s.
Proof.
  intros H. destruct s as [|c s].
  - destruct w as [|c w]; [reflexivity|].
    cbn [forallb] in H. apply andb_true_iff in H as [Hc _].
    apply next_token_space, Hc.
  - change ((c :: s) ++ w) with (c :: (s ++ w)). unfold next_token.
    change (c :: (s ++ w)) with ((c :: s) ++ w).
    unfold scanstring. rewrite (scan_from_app_space s w 0 H).
    rewrite !(starts_with_app_space _ (c :: s) w) by (reflexivity || exact H).
    rewrite (match_number_app_space (c :: s) w H). reflexivity.
Qed.

Lemma next_token_bound (s : str) (t : token) (n : nat) :
  next_token s = Some (t, n) -> 1 <= n <= List.length s.
Proof.
  destruct s as [|c s]; [discriminate|]. unfold next_token.
  destruct (N.eqb c 34).
  { unfold scanstring. destruct (scan_from 0 s) as [[x m]|] eqn:E; [|discriminate].
    apply scan_from_bound in E. intros E'. injection E' as <- <-. simpl. lia. }
  repeat match goal with
         | |- (if N.eqb c ?k then _ else _) = _ -> _ =>
             destruct (N.eqb c k);
             [ intros E; injection E as <- <-; simpl; lia | ]
         end.
  repeat match goal with
         | |- (if starts_with ?p ?l then _ else _) = _ -> _ =>
             let E := fresh "E" in
             destruct (starts_with p l) eqn:E;
             [ apply starts_with_length in E; simpl in E;
               intros E'; injection E' as <- <-; simpl; lia | clear E ]
         end.
  destruct (match_number (c :: s)) as [[v m]|] eqn:E; [|discriminate].
  apply match_number_bound in E. intros E'. injection E' as <- <-. exact E.
Qed.

(** Whitespace before the text: skipped when it is JSON whitespace, an
    error otherwise. *)
Lemma lex_space_app (w s : str) :
  forallb isspace w = true ->
  lex_from 0 (w ++ s) = if forallb is_json_ws w then lex_from 0 s else None.
Proof.
  induction w as [|c w IH]; intros H; [reflexivity|].
  cbn [forallb] in H. apply andb_true_iff in H as [Hc H].
  cbn [app lex_from forallb]. destruct (is_json_ws c); cbn [andb].
  - apply IH, H.
  - rewrite (next_token_space c (w ++ s) Hc). reflexivity.
Qed.

(** Whitespace after the text: the same. *)
Lemma lex_app_space (s w : str) (k : nat) :
  forallb isspace w = true -> k <= List.length s ->
  lex_from k (s ++ w) = if forallb is_json_ws w then lex_from k s else None.
Proof.
  intros H. revert k. induction s as [|c s IH]; intros k Hk.
  - replace k with 0 by (simpl in Hk; lia). simpl app.
    rewrite <- (app_nil_r w) at 1. rewrite (lex_space_app w [] H). reflexivity.
  - cbn [app lex_from]. destruct k as [|k].
    + destruct (is_json_ws c).
      * apply IH. lia.
      * change (c :: s ++ w) with ((c :: s) ++ w).
        rewrite (next_token_app_space (c :: s) w H).
        destruct (next_token (c :: s)) as [[t n]|] eqn:E.
        -- apply next_token_bound in E. simpl in E.
           rewrite IH by lia.
           destruct (forallb is_json_ws w); [reflexivity|reflexivity].
        -- destruct (forallb is_json_ws w); reflexivity.
    + apply IH. simpl in Hk. lia.
Qed.

(** No token begins with a byte-order mark. *)
Lemma lex_bom (s : str) : lex (65279%N :: s) = None.
Proof. reflexivity. Qed.

(** Whitespace around a text is JSON whitespace when the whole is valid
    JSON, and the text alone then loads to the same value. *)
Lemma json_loads_around (w1 core w2 : str) (v : value) :
  forallb isspace w1 = true -> forallb isspace w2 = true ->
  json_loads (w1 ++ core ++ w2) = Some v ->
  json_loads core = Some v.
Proof.
  intros H1 H2. unfold json_loads.
  destruct (starts_with [65279%N] (w1 ++ core ++ w2)); [discriminate|].
  unfold lex. rewrite (lex_space_app w1 (core ++ w2) H1).
  destruct (forallb is_json_ws w1); [|discriminate].
  rewrite (lex_app_space core w2 0 H2) by lia.
  destruct (forallb is_json_ws w2); [|discriminate].
  destruct core as [|c core]; [auto|].
  simpl starts_with. destruct (N.eqb_spec 65279 c) as [<-|]; [|auto].
  fold (lex (65279%N :: core)). rewrite lex_bom. discriminate.
Qed.

(** [strip] does not change what valid JSON loads to. *)
Lemma json_loads_strip (s : str) (v : value) :
  json_loads s = Some v -> json_loads (strip s) = Some v.
Proof.
  destruct (strip_split s) as [w1 [w2 [E [H1 H2]]]].
  intros H. rewrite E in H. exact (json_loads_around w1 (strip s) w2 v H1 H2 H).
Qed.

(** A text that begins with a backtick is not JSON. *)
Lemma json_loads_backtick (s : str) : json_loads (96%N :: s) = None.
Proof. reflexivity. Qed.

End LexFacts.

(** ** String bodies *)

Section BodyFacts.

Local Arguments N.eqb : simpl never.
Local Arguments N.leb : simpl never.
Local Arguments N.ltb : simpl never.

Lemma scan_from_skip (k : nat) (s : str) :
  k <= List.length s ->
  scan_from k s =
  match scan_from 0 (skipn k s) with
  | Some (t, m) => Some (t, k + m)
  | None => None
  end.
Proof.
  revert k. induction s as [|c s IH]; intros k Hk.
  - simpl in Hk. replace k with 0 by lia. reflexivity.
  - destruct k as [|k].
    + simpl skipn. destruct (scan_from 0 (c :: s)) as [[t m]|]; reflexivity.
    + cbn [scan_from skipn]. rewrite IH by (simpl in Hk; lia).
      destruct (scan_from 0 (skipn k s)) as [[t m]|]; reflexivity.
Qed.

(** What a successful [escape_at] has read. *)
Lemma escape_at_some (r : str) (x : char) (used : nat) :
  escape_at r = Some (x, used) ->
  (used = 1 /\ exists e r2, r = e :: r2 /\ simple_escape e <> None) \/
  (used = 5 /\ exists h1 h2 h3 h4 r3,
      r = 117%N :: h1 :: h2 :: h3 :: h4 :: r3 /\ hex4 h1 h2 h3 h4 <> None) \/
  (used = 11 /\ exists h1 h2 h3 h4 g1 g2 g3 g4 r4,
      r = 117%N :: h1 :: h2 :: h3 :: h4 :: 92%N :: 117%N :: g1 :: g2 :: g3 :: g4 :: r4 /\
      hex4 h1 h2 h3 h4 <> None /\ hex4 g1 g2 g3 g4 <> None).
Proof.
  unfold escape_at. destruct r as [|e r2]; [discriminate|].
  destruct (N.eqb_spec e 117) as [->|Hne].
  - destruct r2 as [|h1 [|h2 [|h3 [|h4 r3]]]]; try discriminate.
    destruct (hex4 h1 h2 h3 h4) as [u|] eqn:Eh; [|discriminate].
    assert (F5 : Some (u, 5) = Some (x, used) ->
                 used = 5 /\ exists a b c d r',
                   117%N :: h1 :: h2 :: h3 :: h4 :: r3 = 117%N :: a :: b :: c :: d :: r' /\
                   hex4 a b c d <> None).
    { intros E. injection E as <- <-. split; [reflexivity|].
      exists h1, h2, h3, h4, r3. split; [reflexivity | congruence]. }
    destruct r3 as [|b [|e' [|g1 [|g2 [|g3 [|g4 r4]]]]]]; try (intros E; right; left; exact (F5 E)).
    destruct (is_high_surrogate u && N.eqb b 92 && N.eqb e' 117) eqn:C;
      [|intros E; right; left; exact (F5 E)].
    apply andb_true_iff in C as [C C3]. apply andb_true_iff in C as [C1 C2].
    apply N.eqb_eq in C2, C3. subst b e'.
    destruct (hex4 g1 g2 g3 g4) as [u2|] eqn:Eg; [|discriminate].
    destruct (is_low_surrogate u2); [|intros E; right; left; exact (F5 E)].
    intros E. injection E as <- <-. right. right. split; [reflexivity|].
    exists h1, h2, h3, h4, g1, g2, g3, g4, r4. repeat split; congruence.
  - destruct (simple_escape e) as [y|] eqn:Es; [|discriminate].
    intros E. injection E as <- <-. left. split; [reflexivity|].
    exists e, r2. split; [reflexivity | congruence].
Qed.

(** What [scanstring] accepts is a string body. *)
Lemma scan_from_body (s t : str) (n : nat) :
  scan_from 0 s = Some (t, n) -> StrBody (firstn n s).
Proof.
  remember (List.length s) as len eqn:Hlen.
  revert s t n Hlen. induction len as [len IH] using lt_wf_ind.
  intros s t n Hlen. destruct s as [|c r]; [discriminate|].
  cbn [scan_from].
  destruct (N.eqb_spec c 34) as [->|Hq].
  { intros E. injection E as <- <-. constructor. }
  destruct (N.eqb_spec c 92) as [->|Hb].
  - destruct (escape_at r) as [[x used]|] eqn:Ee; [|discriminate].
    destruct (escape_at_some r x used Ee)
      as [[-> [e [r2 [-> He]]]]
         | [[-> [h1 [h2 [h3 [h4 [r3 [-> Hh]]]]]]]
           | [-> [h1 [h2 [h3 [h4 [g1 [g2 [g3 [g4 [r4 [-> [Hh Hg]]]]]]]]]]]]]].
    + rewrite scan_from_skip by (simpl; lia). cbn [skipn].
      destruct (scan_from 0 r2) as [[t' m]|] eqn:E; [|discriminate].
      intros E'. injection E' as <- <-. cbn [Nat.add firstn].
      apply SB_esc; [exact He|].
      eapply (IH (List.length r2)); [ | reflexivity | exact E]. subst len. simpl. unfold char. lia.
    + rewrite scan_from_skip by (simpl; lia). cbn [skipn].
      destruct (scan_from 0 r3) as [[t' m]|] eqn:E; [|discriminate].
      intros E'. injection E' as <- <-. cbn [Nat.add firstn].
      apply SB_uni; [exact Hh|].
      eapply (IH (List.length r3)); [ | reflexivity | exact E]. subst len. simpl. unfold char. lia.
    + rewrite scan_from_skip by (simpl; lia). cbn [skipn].
      destruct (scan_from 0 r4) as [[t' m]|] eqn:E; [|discriminate].
      intros E'. injection E' as <- <-. cbn [Nat.add firstn].
      apply SB_uni; [exact Hh|]. apply SB_uni; [exact Hg|].
      eapply (IH (List.length r4)); [ | reflexivity | exact E]. subst len. simpl. unfold char. lia.
  - destruct (N.ltb_spec c 32) as [Hlt|Hge]; [discriminate|].
    destruct (scan_from 0 r) as [[t' m]|] eqn:E; [|discriminate].
    intros E'. injection E' as <- <-. cbn [firstn].
    apply SB_plain.
    + unfold plain. apply N.eqb_neq in Hq, Hb. rewrite Hq, Hb.
      apply N.leb_le in Hge. rewrite Hge. reflexivity.
    + eapply (IH (List.length r)); [ | reflexivity | exact E]. subst len. simpl. unfold char. lia.
Qed.

Lemma plain_facts (c : char) :
  plain c = true -> N.eqb c 34 = false /\ N.eqb c 92 = false /\ N.ltb c 32 = false.
Proof.
  unfold plain. intros H. apply andb_true_iff in H as [H H3].
  apply andb_true_iff in H as [H1 H2].
  apply negb_true_iff in H1, H2. apply N.leb_le in H3.
  repeat split; try assumption. apply N.ltb_ge. exact H3.
Qed.

Lemma simple_escape_not_u (e : char) : simple_escape e <> None -> N.eqb e 117 = false.
Proof.
  intros H. destruct (N.eqb_spec e 117) as [->|]; [|reflexivity].
  exfalso. apply H. reflexivity.
Qed.

Lemma body_length (b : str) : StrBody b -> 1 <= List.length b.
Proof. intros H. destruct H; simpl; lia. Qed.

Lemma scan_from_backslash (r : str) :
  scan_from 0 (92%N :: r) =
  match escape_at r with
  | Some (x, used) => push x (scan_from used r)
  | None => None
  end.
Proof. reflexivity. Qed.

(** After [\uXXXX] the escape is that one, unless a [\uXXXX] follows. *)
Lemma escape_at_single (h1 h2 h3 h4 : char) (rest : str) (u : N) :
  hex4 h1 h2 h3 h4 = Some u ->
  match rest with
  | b :: e :: _ => N.eqb b 92 && N.eqb e 117
  | _ => false
  end = false ->
  escape_at (117%N :: h1 :: h2 :: h3 :: h4 :: rest) = Some (u, 5).
Proof.
  intros Hu Hr. unfold escape_at.
  replace (N.eqb 117 117) with true by reflexivity. rewrite Hu.
  destruct rest as [|b [|e [|g1 [|g2 [|g3 [|g4 r4]]]]]]; try reflexivity.
  rewrite <- andb_assoc, Hr, andb_false_r. reflexivity.
Qed.

(** Any string body is accepted, whatever follows it. *)
Lemma body_scan_from (b x : str) :
  StrBody b -> exists t, scan_from 0 (b ++ x) = Some (t, List.length b).
Proof.
  remember (List.length b) as len eqn:Hlen.
  revert b Hlen. induction len as [len IH] using lt_wf_ind.
  intros b Hlen Hb. destruct Hb as [|c b Hc Hb|e b He Hb|h1 h2 h3 h4 b Hh Hb].
  - exists []. subst len. reflexivity.
  - destruct (IH (List.length b)) with (b := b) as [t Ht];
      [subst len; simpl; unfold char; lia | reflexivity | exact Hb |].
    destruct (plain_facts c Hc) as [H1 [H2 H3]].
    exists (c :: t). cbn [app scan_from]. rewrite H1, H2, H3, Ht.
    subst len. reflexivity.
  - destruct (IH (List.length b)) with (b := b) as [t Ht];
      [subst len; simpl; unfold char; lia | reflexivity | exact Hb |].
    destruct (simple_escape e) as [y|] eqn:Ey; [|congruence].
    exists (y :: t). cbn [app]. rewrite scan_from_backslash.
    unfold escape_at. rewrite (simple_escape_not_u e) by congruence. rewrite Ey.
    cbn [scan_from]. rewrite Ht. subst len. reflexivity.
  - destruct (hex4 h1 h2 h3 h4) as [u|] eqn:Eu; [|congruence].
    destruct (IH (List.length b)) with (b := b) as [t Ht];
      [subst len; simpl; unfold char; lia | reflexivity | exact Hb |].
    cbn [app]. rewrite scan_from_backslash.
    assert (Single :
      escape_at (117%N :: h1 :: h2 :: h3 :: h4 :: b ++ x) = Some (u, 5) ->
      exists t',
        match escape_at (117%N :: h1 :: h2 :: h3 :: h4 :: b ++ x) with
        | Some (x0, used) =>
            push x0 (scan_from used (117%N :: h1 :: h2 :: h3 :: h4 :: b ++ x))
        | None => None
        end = Some (t', len)).
    { intros ->. exists (u :: t). cbn [scan_from]. rewrite Ht.
      subst len. reflexivity. }
    destruct Hb as [|c b Hc Hb|e b He Hb|g1 g2 g3 g4 b Hg Hb].
    + apply Single, escape_at_single; [exact Eu|].
      cbn [app]. destruct x; reflexivity.
    + apply Single, escape_at_single; [exact Eu|].
      destruct (plain_facts c Hc) as [H1 [H2 H3]].
      cbn [app]. rewrite H2. destruct (b ++ x); reflexivity.
    + apply Single, escape_at_single; [exact Eu|].
      cbn [app]. rewrite (simple_escape_not_u e He). apply andb_false_r.
    + destruct (hex4 g1 g2 g3 g4) as [u2|] eqn:Eg; [|congruence].
      destruct (is_high_surrogate u && is_low_surrogate u2) eqn:C.
      * apply andb_true_iff in C as [C1 C2].
        destruct (IH (List.length b)) with (b := b) as [t2 Ht2];
          [subst len; simpl; unfold char; lia | reflexivity | exact Hb |].
        exists (join_surrogates u u2 :: t2).
        cbn [app]. unfold escape_at.
        replace (N.eqb 117 117) with true by reflexivity.
        replace (N.eqb 92 92) with true by reflexivity.
        rewrite Eu, C1, Eg, C2. cbn [andb scan_from]. rewrite Ht2.
        subst len. reflexivity.
      * apply Single. cbn [app]. unfold escape_at.
        replace (N.eqb 117 117) with true by reflexivity.
        replace (N.eqb 92 92) with true by reflexivity.
        rewrite Eu, Eg. 
        destruct (is_high_surrogate u); cbn [andb]; [|reflexivity].
        cbn [andb] in C. rewrite C. reflexivity.
Qed.

End BodyFacts.

(** ** Deleting a pattern inside a string body *)

Section DeleteInBody.

Local Arguments N.eqb : simpl never.
Local Arguments N.leb : simpl never.
Local Arguments N.ltb : simpl never.

Variable p : str.
Hypothesis Hp : deletable p.

Let R (s : str) : str := replace_from p [] 0 s.

(** [replace] copies a character that is not a backtick. *)
Lemma delete_copy (c : char) (s : str) :
  N.eqb 96 c = false -> R (c :: s) = c :: R s.
Proof.
  intros Hc. unfold R. rewrite replace_from_cons.
  destruct Hp as [[p' ->] _]. simpl starts_with. rewrite Hc. reflexivity.
Qed.

Lemma delete_match (s : str) :
  starts_with p s = true -> R s = R (skipn (List.length p) s).
Proof.
  intros H. destruct s as [|c s].
  - destruct Hp as [[p' ->] _]. discriminate H.
  - unfold R. rewrite replace_from_cons, H.
    destruct Hp as [[p' ->] _]. simpl. rewrite Nat.sub_0_r. reflexivity.
Qed.

Lemma delete_no_match (c : char) (s : str) :
  starts_with p (c :: s) = false -> R (c :: s) = c :: R s.
Proof. intros H. unfold R. rewrite replace_from_cons, H. reflexivity. Qed.

Lemma quote_not_in_pattern : ~ In 34%N p.
Proof.
  destruct Hp as [_ H]. intros Hin.
  rewrite forallb_forall in H. specialize (H _ Hin). discriminate H.
Qed.

Lemma body_has_quote (b : str) : StrBody b -> In 34%N b.
Proof.
  induction 1; simpl; auto.
  right. right. right. right. right. right. assumption.
Qed.

Lemma body_after_plain (c : char) (b : str) :
  plain c = true -> StrBody (c :: b) -> StrBody b.
Proof.
  intros Hc H. inversion H; subst; try assumption; discriminate Hc.
Qed.

Lemma body_after_match (q s : str) :
  forallb plain q = true -> starts_with q s = true -> StrBody s ->
  StrBody (skipn (List.length q) s).
Proof.
  revert s. induction q as [|a q IH]; intros s Hq Hs Hb; [exact Hb|].
  destruct s as [|c s]; [discriminate Hs|].
  simpl in Hq, Hs. apply andb_true_iff in Hq as [Ha Hq].
  apply andb_true_iff in Hs as [Hac Hs]. apply N.eqb_eq in Hac. subst c.
  simpl. apply IH; [exact Hq | exact Hs |]. exact (body_after_plain a s Ha Hb).
Qed.

(** An occurrence that begins in a string body lies inside it. *)
Lemma match_inside_body (b x : str) :
  StrBody b -> starts_with p (b ++ x) = starts_with p b.
Proof.
  intros Hb. destruct (starts_with p (b ++ x)) eqn:E.
  - destruct (starts_with_app_inv p b x E) as [E' | E']; [congruence|].
    exfalso. apply quote_not_in_pattern, E', body_has_quote, Hb.
  - destruct (starts_with p b) eqn:E'; [|reflexivity].
    rewrite (starts_with_app p b x E') in E. discriminate E.
Qed.

Lemma escape_not_tick (e : char) : simple_escape e <> None -> N.eqb 96 e = false.
Proof.
  intros H. destruct (N.eqb_spec 96 e) as [<-|]; [|reflexivity].
  exfalso. apply H. reflexivity.
Qed.

Lemma hex_not_tick (h : char) : hex_val h <> None -> N.eqb 96 h = false.
Proof.
  intros H. destruct (N.eqb_spec 96 h) as [<-|]; [|reflexivity].
  exfalso. apply H. reflexivity.
Qed.

Lemma hex4_some (a b c d : char) :
  hex4 a b c d <> None ->
  hex_val a <> None /\ hex_val b <> None /\ hex_val c <> None /\ hex_val d <> None.
Proof.
  unfold hex4.
  destruct (hex_val a), (hex_val b), (hex_val c), (hex_val d);
    intros H; repeat split; congruence.
Qed.

(** Deleting the occurrences of [p] leaves a string body a string body,
    and goes on after it as if it began there. *)
Lemma delete_in_body (b : str) :
  StrBody b -> StrBody (R b) /\ forall x, R (b ++ x) = R b ++ R x.
Proof.
  remember (List.length b) as len eqn:Hlen.
  revert b Hlen. induction len as [len IH] using lt_wf_ind.
  intros b Hlen Hb.
  assert (Plain : forallb plain p = true) by apply Hp.
  destruct Hb as [|c b Hc Hb|e b He Hb|h1 h2 h3 h4 b Hh Hb].
  - split; [|intros x]; cbn [app]; rewrite !delete_copy by reflexivity.
    + constructor.
    + reflexivity.
  - destruct (starts_with p (c :: b)) eqn:E.
    + pose proof (SB_plain c b Hc Hb) as Hcb.
      pose proof (body_after_match p (c :: b) Plain E Hcb) as Hrest.
      pose proof (starts_with_length p (c :: b) E) as Hle.
      destruct (IH (List.length (skipn (List.length p) (c :: b))))
        with (b := skipn (List.length p) (c :: b)) as [I1 I2];
        [ subst len; rewrite length_skipn; destruct Hp as [[p' ->] _];
          simpl; unfold char; lia
        | reflexivity | exact Hrest | ].
      rewrite (delete_match (c :: b) E). split; [exact I1|].
      intros x. rewrite delete_match
        by (rewrite (match_inside_body (c :: b) x Hcb); exact E).
      rewrite skipn_app.
      replace (List.length p - List.length (c :: b)) with 0 by lia.
      apply I2.
    + destruct (IH (List.length b)) with (b := b) as [I1 I2];
        [subst len; simpl; unfold char; lia | reflexivity | exact Hb |].
      rewrite (delete_no_match c b E). split; [apply SB_plain; assumption|].
      intros x. cbn [app]. rewrite delete_no_match.
      * rewrite I2. reflexivity.
      * change (c :: b ++ x) with ((c :: b) ++ x).
        rewrite (match_inside_body (c :: b) x (SB_plain c b Hc Hb)). exact E.
  - destruct (IH (List.length b)) with (b := b) as [I1 I2];
      [subst len; simpl; unfold char; lia | reflexivity | exact Hb |].
    split; [|intros x]; cbn [app];
      rewrite !delete_copy by (reflexivity || apply escape_not_tick, He).
    + apply SB_esc; assumption.
    + rewrite I2. reflexivity.
  - destruct (IH (List.length b)) with (b := b) as [I1 I2];
      [subst len; simpl; unfold char; lia | reflexivity | exact Hb |].
    destruct (hex4_some h1 h2 h3 h4 Hh) as [X1 [X2 [X3 X4]]].
    split; [|intros x]; cbn [app];
      rewrite !delete_copy by (reflexivity || apply hex_not_tick; assumption).
    + apply SB_uni; assumption.
    + rewrite I2. reflexivity.
Qed.

End DeleteInBody.

(** ** Numbers and what follows them *)

Section NumberFacts.

Local Arguments N.eqb : simpl never.
Local Arguments N.leb : simpl never.
Local Arguments N.ltb : simpl never.

Lemma digits_len_local (a x y : str) :
  digits_len (a ++ x) <= List.length a -> hd_error y = hd_error x ->
  digits_len (a ++ y) = digits_len (a ++ x).
Proof.
  intros H Hh. induction a as [|c a IH].
  - simpl in *. destruct x as [|cx x], y as [|cy y]; try discriminate; try reflexivity.
    injection Hh as ->. simpl in *. destruct (is_digit cx); [lia | reflexivity].
  - simpl in *. destruct (is_digit c); [|reflexivity].
    f_equal. apply IH. lia.
Qed.

Lemma int_len_local (a x y : str) :
  int_len (a ++ x) <= List.length a -> hd_error y = hd_error x ->
  int_len (a ++ y) = int_len (a ++ x).
Proof.
  intros H Hh. destruct a as [|c a].
  - simpl in *. destruct x as [|cx x], y as [|cy y]; try discriminate; try reflexivity.
    injection Hh as ->. simpl in *.
    destruct (N.eqb cx 48); [lia|]. destruct (is_digit cx); [lia | reflexivity].
  - simpl in *. destruct (N.eqb c 48); [reflexivity|].
    destruct (is_digit c); [|reflexivity].
    f_equal. apply digits_len_local; [lia | exact Hh].
Qed.

Lemma ok_after_head (x y : str) :
  hd_error y = hd_error x -> ok_after x = true -> ok_after y = true.
Proof.
  destruct x as [|cx x], y as [|cy y]; try discriminate; auto.
  intros E. injection E as ->. auto.
Qed.

Lemma frac_len_after (x : str) : ok_after x = true -> frac_len x = 0.
Proof.
  destruct x as [|c x]; [reflexivity|]. simpl. intros H.
  apply andb_true_iff in H as [H _]. apply andb_true_iff in H as [H _].
  apply negb_true_iff in H. rewrite H. reflexivity.
Qed.

Lemma exp_len_after (x : str) : ok_after x = true -> exp_len x = 0.
Proof.
  destruct x as [|c x]; [reflexivity|]. simpl. intros H.
  apply andb_true_iff in H as [H H3]. apply andb_true_iff in H as [_ H2].
  apply negb_true_iff in H2, H3. rewrite H2, H3. reflexivity.
Qed.

Lemma frac_len_local (a x y : str) :
  frac_len (a ++ x) <= List.length a -> ok_after x = true ->
  hd_error y = hd_error x ->
  frac_len (a ++ y) = frac_len (a ++ x).
Proof.
  intros H Hx Hh. destruct a as [|c a].
  - simpl app. rewrite (frac_len_after x Hx).
    apply frac_len_after, (ok_after_head x y Hh Hx).
  - simpl in *. destruct (N.eqb c 46); [|reflexivity].
    rewrite (digits_len_local a x y); [reflexivity | | exact Hh].
    destruct (digits_len (a ++ x)); lia.
Qed.

Lemma exp_len_exact (a x y : str) :
  exp_len (a ++ x) = List.length a -> ok_after x = true ->
  hd_error y = hd_error x ->
  exp_len (a ++ y) = List.length a.
Proof.
  intros H Hx Hh. destruct a as [|c a].
  - simpl app. simpl List.length.
    apply exp_len_after, (ok_after_head x y Hh Hx).
  - cbn [app exp_len List.length] in *.
    destruct (N.eqb c 101 || N.eqb c 69); [|discriminate H].
    destruct a as [|sg a].
    + cbn [app List.length] in *. exfalso.
      destruct x as [|sg x]; [discriminate H|].
      destruct (N.eqb sg 43 || N.eqb sg 45).
      * destruct (digits_len x); discriminate H.
      * destruct (digits_len (sg :: x)); [discriminate H|].
        injection H as H. discriminate H.
    + cbn [app List.length] in *.
      destruct (N.eqb sg 43 || N.eqb sg 45).
      * rewrite (digits_len_local a x y); [exact H | | exact Hh].
        destruct (digits_len (a ++ x)); [discriminate H|]. lia.
      * change (sg :: a ++ y) with ((sg :: a) ++ y).
        change (sg :: a ++ x) with ((sg :: a) ++ x) in H.
        rewrite (digits_len_local (sg :: a) x y); [exact H | | exact Hh].
        destruct (digits_len ((sg :: a) ++ x)); [discriminate H|].
        simpl. lia.
Qed.

(** A number is the same number when what follows it is replaced by a
    text with the same first character. *)
Lemma match_number_local (u x y : str) (v : value) :
  match_number (u ++ x) = Some (v, List.length u) ->
  ok_after x = true -> hd_error y = hd_error x ->
  match_number (u ++ y) = Some (v, List.length u).
Proof.
  intros H Hx Hh.
  destruct u as [|c u].
  { apply match_number_bound in H. simpl in H. lia. }
  unfold match_number in *. cbn [app] in *.
  set (sign := if N.eqb c 45 then 1 else 0) in *.
  assert (Hsign : sign <= List.length (c :: u))
    by (subst sign; simpl; destruct (N.eqb c 45); lia).
  change (c :: u ++ x) with ((c :: u) ++ x) in H.
  change (c :: u ++ y) with ((c :: u) ++ y).
  rewrite (skipn_app_within sign (c :: u) x Hsign) in H.
  rewrite (skipn_app_within sign (c :: u) y Hsign).
  set (ub := skipn sign (c :: u)) in *.
  assert (Hub : sign + List.length ub = List.length (c :: u))
    by (subst ub; rewrite length_skipn; lia).
  destruct (int_len (ub ++ x)) as [|il'] eqn:Ei; [discriminate H|].
  remember (S il') as il eqn:Hil0.
  set (fl := frac_len (skipn il (ub ++ x))) in *.
  set (el := exp_len (skipn (il + fl) (ub ++ x))) in *.
  assert (Hn : sign + il + fl + el = List.length (c :: u)).
  { destruct (fl + el); injection H as _ H; exact H. }
  assert (Hil : il <= List.length ub) by lia.
  assert (Ei' : int_len (ub ++ y) = S il').
  { rewrite (int_len_local ub x y); [congruence | rewrite Ei; lia | exact Hh]. }
  rewrite Ei'. cbv beta iota. rewrite <- Hil0.
  assert (Ef : frac_len (skipn il (ub ++ y)) = fl).
  { subst fl. rewrite !skipn_app_within by exact Hil.
    apply frac_len_local; [| exact Hx | exact Hh].
    rewrite <- (skipn_app_within il ub x Hil).
    rewrite length_skipn.
    assert (frac_len (skipn il (ub ++ x)) + il <= List.length ub); [|lia].
    clear - Hn Hub. unfold char in *. lia. }
  rewrite Ef.
  assert (Hifl : il + fl <= List.length ub) by lia.
  assert (Ee : exp_len (skipn (il + fl) (ub ++ y)) = el).
  { assert (X : exp_len (skipn (il + fl) ub ++ x) = List.length (skipn (il + fl) ub)).
    { rewrite <- (skipn_app_within (il + fl) ub x Hifl). fold el.
      rewrite length_skipn. lia. }
    rewrite (skipn_app_within (il + fl) ub y Hifl).
    rewrite (exp_len_exact _ x y X Hx Hh).
    rewrite <- X. rewrite <- (skipn_app_within (il + fl) ub x Hifl). reflexivity. }
  rewrite Ee.
  rewrite (firstn_app_within il ub x Hil) in H.
  rewrite (firstn_app_within il ub y Hil).
  rewrite (firstn_app_within _ (c :: u) x) in H by lia.
  rewrite (firstn_app_within _ (c :: u) y) by lia.
  exact H.
Qed.

End NumberFacts.

(** ** The kinds of token *)

Section TokenKinds.

Local Arguments N.eqb : simpl never.
Local Arguments N.leb : simpl never.
Local Arguments N.ltb : simpl never.

Lemma digit_range (c : char) : is_digit c = true -> (48 <= c <= 57)%N.
Proof.
  unfold is_digit. intros H. apply andb_true_iff in H as [H1 H2].
  apply N.leb_le in H1, H2. lia.
Qed.

Lemma digit_neq (c k : char) :
  is_digit c = true -> (k < 48 \/ 57 < k)%N -> N.eqb c k = false /\ N.eqb k c = false.
Proof.
  intros H Hk. apply digit_range in H. split; apply N.eqb_neq; lia.
Qed.

Lemma int_len_head (c : char) (r : str) :
  int_len (c :: r) <> 0 -> is_digit c = true.
Proof.
  simpl. destruct (N.eqb_spec c 48) as [->|]; [reflexivity|].
  destruct (is_digit c); [reflexivity | congruence].
Qed.

(** A number begins with a digit, or with a minus sign and a digit. *)
Lemma match_number_head (c : char) (r : str) (v : value) (n : nat) :
  match_number (c :: r) = Some (v, n) ->
  is_digit c = true \/
  (c = 45%N /\ exists d r', r = d :: r' /\ is_digit d = true).
Proof.
  unfold match_number.
  destruct (N.eqb_spec c 45) as [->|Hc].
  - cbn [skipn]. destruct r as [|d r']; [discriminate|].
    destruct (int_len (d :: r')) eqn:E; [discriminate|].
    intros _. right. split; [reflexivity|]. exists d, r'. split; [reflexivity|].
    apply (int_len_head d r'). congruence.
  - cbn [skipn]. destruct (int_len (c :: r)) eqn:E; [discriminate|].
    intros _. left. apply (int_len_head c r). congruence.
Qed.

(** At such a beginning [next_token] is [match_number]. *)
Lemma next_token_number (c : char) (r : str) :
  is_digit c = true \/
  (c = 45%N /\ exists d r', r = d :: r' /\ is_digit d = true) ->
  next_token (c :: r) =
  match match_number (c :: r) with
  | Some (v, n) => Some (TVal v, n)
  | None => None
  end.
Proof.
  intros [Hd | [-> [d [r' [-> Hd]]]]].
  - unfold next_token.
    change (lit "null") with [110; 117; 108; 108]%N.
    change (lit "true") with [116; 114; 117; 101]%N.
    change (lit "false") with [102; 97; 108; 115; 101]%N.
    change (lit "NaN") with [78; 97; 78]%N.
    change (lit "Infinity") with [73; 110; 102; 105; 110; 105; 116; 121]%N.
    change (lit "-Infinity") with [45; 73; 110; 102; 105; 110; 105; 116; 121]%N.
    cbn [starts_with].
    repeat match goal with
           | |- context [N.eqb c ?k] =>
               rewrite (proj1 (digit_neq c k Hd ltac:(lia)))
           | |- context [N.eqb ?k c] =>
               rewrite (proj2 (digit_neq c k Hd ltac:(lia)))
           end.
    reflexivity.
  - unfold next_token.
    change (lit "-Infinity") with [45; 73; 110; 102; 105; 110; 105; 116; 121]%N.
    cbn [starts_with].
    rewrite (proj2 (digit_neq d 73%N Hd ltac:(lia))).
    reflexivity.
Qed.

Lemma starts_with_split (p s : str) :
  starts_with p s = true -> s = p ++ skipn (List.length p) s.
Proof.
  revert s. induction p as [|a p IH]; intros s H; [reflexivity|].
  destruct s as [|b s]; [discriminate H|].
  simpl in H. apply andb_true_iff in H as [Hab H]. apply N.eqb_eq in Hab.
  subst b. simpl. f_equal. apply IH, H.
Qed.

(** The kinds of token: a string; a token whose text [u] is fixed (a
    punctuation mark, a literal); a number. *)
Lemma next_token_kind (s : str) (tk : token) (n : nat) :
  next_token s = Some (tk, n) ->
  (exists r, s = 34%N :: r) \/
  (exists u, s = u ++ skipn n s /\ List.length u = n /\
             forallb not_tick u = true /\
             forall z, next_token (u ++ z) = Some (tk, n)) \/
  (exists c r v, s = c :: r /\ tk = TVal v /\ match_number s = Some (v, n) /\
                 (is_digit c = true \/
                  (c = 45%N /\ exists d r', r = d :: r' /\ is_digit d = true))).
Proof.
  destruct s as [|c r]; [discriminate|]. unfold next_token.
  destruct (N.eqb_spec c 34) as [->|_]; [intros _; left; exists r; reflexivity|].
  repeat match goal with
         | |- (if N.eqb c ?k then _ else _) = _ -> _ =>
             destruct (N.eqb_spec c k) as [->|_];
             [ intros E; injection E as <- <-; right; left;
               exists [k]; repeat split; reflexivity
             | ]
         end.
  repeat match goal with
         | |- (if starts_with ?p ?l then _ else _) = _ -> _ =>
             let E := fresh "E" in
             destruct (starts_with p l) eqn:E;
             [ intros E'; injection E' as <- <-; right; left;
               exists p; split; [exact (starts_with_split p l E)|];
               repeat split; reflexivity
             | clear E ]
         end.
  destruct (match_number (c :: r)) as [[v m]|] eqn:E; [|discriminate].
  intros E'. injection E' as <- <-. right. right.
  exists c, r, v. repeat split; try assumption.
  exact (match_number_head c r v m E).
Qed.

Lemma firstn_add {A : Type} (a b : nat) (s : list A) :
  firstn (a + b) s = firstn a s ++ firstn b (skipn a s).
Proof.
  revert s. induction a as [|a IH]; intros s; [reflexivity|].
  destruct s as [|c s]; [destruct b; reflexivity|].
  simpl. f_equal. apply IH.
Qed.

Lemma digit_not_tick (c : char) : is_digit c = true -> not_tick c = true.
Proof.
  intros H. unfold not_tick. rewrite (proj2 (digit_neq c 96%N H ltac:(lia))).
  reflexivity.
Qed.

Lemma digits_not_tick (s : str) : forallb not_tick (firstn (digits_len s) s) = true.
Proof.
  induction s as [|c s IH]; [reflexivity|].
  simpl. destruct (is_digit c) eqn:E; [|reflexivity].
  simpl. rewrite (digit_not_tick c E), IH. reflexivity.
Qed.

Lemma int_not_tick (s : str) : forallb not_tick (firstn (int_len s) s) = true.
Proof.
  destruct s as [|c s]; [reflexivity|]. simpl.
  destruct (N.eqb_spec c 48) as [->|]; [reflexivity|].
  destruct (is_digit c) eqn:E; [|reflexivity].
  simpl. rewrite (digit_not_tick c E), digits_not_tick. reflexivity.
Qed.

Lemma frac_not_tick (s : str) : forallb not_tick (firstn (frac_len s) s) = true.
Proof.
  destruct s as [|c s]; [reflexivity|]. simpl.
  destruct (N.eqb_spec c 46) as [->|]; [|reflexivity].
  pose proof (digits_not_tick s) as D.
  destruct (digits_len s); [reflexivity|].
  rewrite firstn_cons. cbn [forallb]. rewrite D. reflexivity.
Qed.

Lemma exp_not_tick (s : str) : forallb not_tick (firstn (exp_len s) s) = true.
Proof.
  destruct s as [|c s]; [reflexivity|]. cbn [exp_len].
  destruct (N.eqb c 101 || N.eqb c 69) eqn:Ec; [|reflexivity].
  assert (Hc : not_tick c = true).
  { unfold not_tick. destruct (N.eqb_spec 96 c) as [<-|]; [discriminate Ec|reflexivity]. }
  destruct s as [|sg s]; [reflexivity|].
  destruct (N.eqb sg 43 || N.eqb sg 45) eqn:Es.
  - assert (Hs : not_tick sg = true).
    { unfold not_tick. destruct (N.eqb_spec 96 sg) as [<-|]; [discriminate Es|reflexivity]. }
    pose proof (digits_not_tick s) as D.
    destruct (digits_len s); [reflexivity|].
    rewrite !firstn_cons. cbn [forallb]. rewrite Hc, Hs, D. reflexivity.
  - pose proof (digits_not_tick (sg :: s)) as D.
    destruct (digits_len (sg :: s)); [reflexivity|].
    rewrite (firstn_cons _ c). cbn [forallb]. rewrite Hc, D. reflexivity.
Qed.

(** The text of a number holds no backtick. *)
Lemma number_not_tick (s : str) (v : value) (n : nat) :
  match_number s = Some (v, n) -> forallb not_tick (firstn n s) = true.
Proof.
  unfold match_number.
  set (sign := match s with c :: _ => if N.eqb c 45 then 1 else 0 | [] => 0 end).
  set (body := skipn sign s).
  destruct (int_len body) as [|il'] eqn:Ei; [discriminate|].
  remember (S il') as il eqn:Hil.
  set (fl := frac_len (skipn il body)).
  set (el := exp_len (skipn (il + fl) body)).
  assert (A : forallb not_tick (firstn il body) = true)
    by (rewrite <- Ei; apply int_not_tick).
  assert (B : forallb not_tick (firstn fl (skipn il body)) = true)
    by apply frac_not_tick.
  assert (C : forallb not_tick (firstn el (skipn (il + fl) body)) = true)
    by apply exp_not_tick.
  assert (S0 : forallb not_tick (firstn sign s) = true).
  { subst sign. destruct s as [|c s]; [reflexivity|].
    destruct (N.eqb_spec c 45) as [->|]; reflexivity. }
  clearbody fl el.
  assert (T : forallb not_tick (firstn (sign + (il + (fl + el))) s) = true).
  { rewrite firstn_add, forallb_app. fold body.
    rewrite firstn_add, forallb_app, firstn_add, forallb_app.
    rewrite skipn_skipn, (Nat.add_comm fl il).
    rewrite S0, A, B, C. reflexivity. }
  replace (sign + (il + (fl + el))) with (sign + il + fl + el) in T by lia.
  destruct (fl + el); intros E; injection E as _ <-; exact T.
Qed.

End TokenKinds.

(** ** Deleting a pattern from a text that lexes *)

Section LexDelete.

Local Arguments N.eqb : simpl never.
Local Arguments N.leb : simpl never.
Local Arguments N.ltb : simpl never.

Variable p : str.
Hypothesis Hp : deletable p.

Let R (s : str) : str := replace_from p [] 0 s.

Lemma same_kind_refl (v : value) : same_kind v v.
Proof. destruct v; simpl; auto. Qed.

Lemma sim_tok_refl (t : token) : sim_tok t t.
Proof. destruct t; simpl; auto. apply same_kind_refl. Qed.

Lemma lex_from_skip (k : nat) (s : str) : lex_from k s = lex_from 0 (skipn k s).
Proof.
  revert k. induction s as [|c s IH]; intros [|k]; try reflexivity.
  cbn [lex_from skipn]. apply IH.
Qed.

Lemma lex_from_cons (c : char) (r : str) :
  lex_from 0 (c :: r) =
  if is_json_ws c then lex_from 0 r
  else
    match next_token (c :: r) with
    | None => None
    | Some (t, n) =>
        match lex_from 0 (skipn (n - 1) r) with
        | Some ts => Some (t :: ts)
        | None => None
        end
    end.
Proof.
  cbn [lex_from]. destruct (is_json_ws c); [reflexivity|].
  destruct (next_token (c :: r)) as [[t n]|]; [|reflexivity].
  rewrite lex_from_skip. reflexivity.
Qed.

(** A text that lexes begins with no backtick and with nothing that would
    have continued a number. *)
Lemma lex_head (x : str) (ts : list token) :
  lex_from 0 x = Some ts ->
  ok_after x = true /\ hd_error (R x) = hd_error x.
Proof.
  destruct x as [|c x]; [intros _; split; reflexivity|].
  rewrite lex_from_cons. intros H.
  assert (C : N.eqb c 46 = false /\ N.eqb c 101 = false /\ N.eqb c 69 = false /\
              N.eqb 96 c = false).
  { destruct (is_json_ws c) eqn:Ew.
    - unfold is_json_ws in Ew.
      repeat (apply orb_true_iff in Ew; destruct Ew as [Ew | Ew]);
        apply N.eqb_eq in Ew; subst c; repeat split; reflexivity.
    - destruct (next_token (c :: x)) as [[t n]|] eqn:E; [|discriminate H].
      repeat split.
      + destruct (N.eqb_spec c 46) as [->|]; [discriminate E | reflexivity].
      + destruct (N.eqb_spec c 101) as [->|]; [discriminate E | reflexivity].
      + destruct (N.eqb_spec c 69) as [->|]; [discriminate E | reflexivity].
      + destruct (N.eqb_spec 96 c) as [<-|]; [discriminate E | reflexivity]. }
  destruct C as [C1 [C2 [C3 C4]]]. split.
  - simpl. rewrite C1, C2, C3. reflexivity.
  - unfold R. rewrite (delete_copy p Hp c x C4). reflexivity.
Qed.

(** [replace] copies a text without backtick. *)
Lemma delete_tick_free (u x : str) :
  forallb not_tick u = true -> R (u ++ x) = u ++ R x.
Proof.
  intros H. unfold R. destruct Hp as [[p' ->] _].
  apply replace_from_no_start, no_start_other_head, H.
Qed.

(** Deleting the occurrences of [p] from a text that lexes leaves a text
    that lexes, into the same tokens up to the text of the strings. *)
Lemma lex_delete (s : str) (ts : list token) :
  lex_from 0 s = Some ts ->
  exists ts', lex_from 0 (R s) = Some ts' /\ Forall2 sim_tok ts ts'.
Proof.
  remember (List.length s) as len eqn:Hlen.
  revert s ts Hlen. induction len as [len IH] using lt_wf_ind.
  intros s ts Hlen H. destruct s as [|c r].
  { injection H as <-. exists []. split; [reflexivity | constructor]. }
  rewrite lex_from_cons in H.
  destruct (is_json_ws c) eqn:Ew.
  { assert (Hc : N.eqb 96 c = false).
    { unfold is_json_ws in Ew.
      repeat (apply orb_true_iff in Ew; destruct Ew as [Ew | Ew]);
        apply N.eqb_eq in Ew; subst c; reflexivity. }
    destruct (IH (List.length r)) with (s := r) (ts := ts) as [ts' [L S]];
      [subst len; simpl; unfold char; lia | reflexivity | exact H |].
    exists ts'. split; [|exact S].
    unfold R. rewrite (delete_copy p Hp c r Hc), lex_from_cons, Ew. exact L. }
  destruct (next_token (c :: r)) as [[tk n]|] eqn:Et; [|discriminate H].
  destruct (lex_from 0 (skipn (n - 1) r)) as [ts0|] eqn:E0; [|discriminate H].
  injection H as <-.
  pose proof (next_token_bound (c :: r) tk n Et) as Hn.
  assert (Ex : skipn (n - 1) r = skipn n (c :: r)).
  { destruct n as [|n]; [lia|]. simpl. rewrite Nat.sub_0_r. reflexivity. }
  set (x := skipn n (c :: r)) in *. rewrite Ex in E0.
  destruct (IH (List.length x)) with (s := x) (ts := ts0) as [ts0' [L0 S0]];
    [ subst len x; rewrite length_skipn; cbn [List.length] in *; unfold char in *; lia
    | reflexivity | exact E0 | ].
  destruct (lex_head x ts0 E0) as [Hok Hhd].
  (* the rest of the text, once the token is read again *)
  assert (Rest : forall (u : str) (tk' : token),
             u <> [] -> hd_error u = Some c ->
             next_token (u ++ R x) = Some (tk', List.length u) ->
             lex_from 0 (u ++ R x) = Some (tk' :: ts0')).
  { intros u tk' Hu Hc Ht. destruct u as [|c' u]; [congruence|].
    injection Hc as ->. cbn [app]. rewrite lex_from_cons, Ew.
    change (c :: u ++ R x) with ((c :: u) ++ R x). rewrite Ht.
    replace (List.length (c :: u) - 1) with (List.length u) by (simpl; lia).
    rewrite skipn_app, skipn_all, Nat.sub_diag. cbn [app skipn].
    rewrite L0. reflexivity. }
  destruct (next_token_kind (c :: r) tk n Et)
    as [[r0 Es] | [[u [Es [Hu [Ht Hz]]]] | [c0 [r0 [v [Es [-> [Em Hd]]]]]]]].
  - (* a string *)
    injection Es as -> <-. unfold next_token in Et.
    replace (N.eqb 34 34) with true in Et by reflexivity.
    unfold scanstring in Et.
    destruct (scan_from 0 r) as [[t m]|] eqn:Esc; [|discriminate Et].
    injection Et as <- <-.
    pose proof (scan_from_body r t m Esc) as Hb.
    change (skipn (S m) (34%N :: r)) with (skipn m r) in *.
    set (x' := skipn m r) in *. set (b := firstn m r) in *.
    assert (Er : r = b ++ x') by (subst b x'; symmetry; apply firstn_skipn).
    destruct (delete_in_body p Hp b Hb) as [Hb' Happ].
    destruct (body_scan_from (R b) (R x') Hb') as [t' Ht'].
    exists (TVal (VStr t') :: ts0'). split; [|constructor; [exact I | exact S0]].
    rewrite Er. unfold R at 1.
    rewrite (delete_copy p Hp 34%N (b ++ x')) by reflexivity.
    fold (R (b ++ x')). unfold R at 1. rewrite (Happ x'). fold R.
    apply (Rest (34%N :: R b) (TVal (VStr t'))); [discriminate | reflexivity |].
    cbn [app]. unfold next_token.
    replace (N.eqb 34 34) with true by reflexivity.
    unfold scanstring. unfold R in Ht' |- *.
    change (replace_from p [] 0 x) with (replace_from p [] 0 x').
    rewrite Ht'. reflexivity.
  - (* a punctuation mark or a literal *)
    exists (tk :: ts0'). split; [|constructor; [apply sim_tok_refl | exact S0]].
    fold x in Es. rewrite Es, (delete_tick_free u x Ht).
    apply Rest.
    + intros ->. simpl in Hu. lia.
    + destruct u as [|c' u]; [simpl in Hu; lia|]. injection Es as -> _. reflexivity.
    + rewrite Hu. apply Hz.
  - (* a number *)
    injection Es as <- <-.
    exists (TVal v :: ts0'). split; [|constructor; [apply same_kind_refl | exact S0]].
    set (u := firstn n (c :: r)).
    assert (Es : c :: r = u ++ x) by (subst u x; symmetry; apply firstn_skipn).
    assert (Hu : List.length u = n) by (subst u; apply firstn_length_le; lia).
    pose proof (number_not_tick (c :: r) v n Em) as Ht. fold u in Ht.
    rewrite Es in Em. rewrite <- Hu in Em.
    pose proof (match_number_local u x (R x) v Em Hok Hhd) as Em'.
    rewrite Es, (delete_tick_free u x Ht).
    assert (Hc : exists u', u = c :: u').
    { destruct u as [|c' u']; [simpl in Hu; lia|]. injection Es as -> _. eauto. }
    destruct Hc as [u' Eu].
    apply Rest.
    + rewrite Eu. discriminate.
    + rewrite Eu. reflexivity.
    + rewrite Eu in Em' |- *. cbn [app] in Em' |- *.
      rewrite (next_token_number c (u' ++ R x)
                 (match_number_head c (u' ++ R x) v _ Em')).
      rewrite Em'. reflexivity.
Qed.

End LexDelete.

(** ** Deleting a pattern from valid JSON *)

Section ParseSim.

Lemma push_value_sim (v v' : value) (s s' : list frame) :
  same_kind v v' -> Forall2 sim_frame s s' ->
  sim_state (push_value v s) (push_value v' s').
Proof.
  intros Hv Hs. destruct Hs as [|f f' s s' Hf Hs]; [exact Hv|].
  destruct f, f'; simpl in Hf; try contradiction; simpl; exact Hs.
Qed.

Lemma begin_value_sim (t t' : token) (s s' : list frame) :
  sim_tok t t' -> Forall2 sim_frame s s' ->
  sim_result (begin_value s t) (begin_value s' t').
Proof.
  intros Ht Hs. destruct t, t'; simpl in Ht; try discriminate Ht; simpl; auto.
  apply push_value_sim; assumption.
Qed.

Lemma begin_key_sim (t t' : token) (m m' : dict) (s s' : list frame) :
  sim_tok t t' -> Forall2 sim_frame s s' ->
  sim_result (begin_key m s t) (begin_key m' s' t').
Proof.
  intros Ht Hs.
  destruct t as [| | | | | |v], t' as [| | | | | |v'];
    simpl in Ht; try discriminate Ht; simpl; auto.
  destruct v, v'; simpl in Ht; try discriminate Ht; try contradiction; simpl; auto.
Qed.

Lemma step_sim (st st' : pstate) (t t' : token) :
  sim_state st st' -> sim_tok t t' -> sim_result (step st t) (step st' t').
Proof.
  intros Hst Ht.
  assert (L : forall s s', Forall2 sim_frame s s' ->
                Forall2 sim_frame (FList [] :: s) (FList [] :: s'))
    by (intros; constructor; [exact I | assumption]).
  destruct st, st'; simpl in Hst; try contradiction; cbn [step];
    try (apply begin_value_sim; assumption);
    try (apply begin_key_sim; assumption);
    try exact I;
    destruct t as [| | | | | |v], t' as [| | | | | |v'];
    simpl in Ht; try discriminate Ht;
    try (apply begin_value_sim; [exact Ht | apply L; assumption]);
    try (apply begin_key_sim; [exact Ht | assumption]);
    try (apply push_value_sim; [exact I | assumption]);
    try exact I;
    try (simpl; assumption);
    simpl; constructor; try exact I; assumption.
Qed.

Lemma run_sim (ts ts' : list token) :
  Forall2 sim_tok ts ts' ->
  forall st st', sim_state st st' -> sim_result (run st ts) (run st' ts').
Proof.
  induction 1 as [|t t' ts ts' Ht Hts IH]; intros st st' Hst; [exact Hst|].
  cbn [run]. pose proof (step_sim st st' t t' Hst Ht) as Hs.
  destruct (step st t), (step st' t'); simpl in Hs; try contradiction; auto.
Qed.

(** Tokens alike parse alike. *)
Lemma parse_sim (ts ts' : list token) (v : value) :
  Forall2 sim_tok ts ts' -> parse ts = Some v ->
  exists v', parse ts' = Some v' /\ same_kind v v'.
Proof.
  intros Hts. unfold parse.
  pose proof (run_sim ts ts' Hts (AwaitValue []) (AwaitValue []) (Forall2_nil _)) as H.
  destruct (run (AwaitValue []) ts) as [st|]; [|discriminate].
  destruct (run (AwaitValue []) ts') as [st'|]; [|contradiction].
  destruct st; try discriminate. intros E. injection E as ->.
  destruct st'; simpl in H; try contradiction.
  eexists. split; [reflexivity | exact H].
Qed.

End ParseSim.

Section LoadsDelete.

Local Arguments N.eqb : simpl never.

Variable p : str.
Hypothesis Hp : deletable p.

Lemma replace_deletable (s : str) : replace p [] s = replace_from p [] 0 s.
Proof. destruct Hp as [[p' ->] _]. reflexivity. Qed.

Lemma starts_with_single (a : char) (s : str) :
  starts_with [a] s = match hd_error s with Some b => N.eqb a b | None => false end.
Proof. destruct s as [|b s]; [reflexivity|]. simpl. apply andb_true_r. Qed.

(** Deleting the occurrences of [p] from valid JSON leaves valid JSON, of
    the same kind. *)
Lemma json_loads_delete (s : str) (v : value) :
  json_loads s = Some v ->
  exists v', json_loads (replace p [] s) = Some v' /\ same_kind v v'.
Proof.
  unfold json_loads. rewrite replace_deletable.
  destruct (starts_with [65279%N] s) eqn:Eb; [discriminate|].
  unfold lex. destruct (lex_from 0 s) as [ts|] eqn:El; [|discriminate].
  intros Hv.
  destruct (lex_delete p Hp s ts El) as [ts' [El' Hts]].
  destruct (lex_head p Hp s ts El) as [_ Hh].
  rewrite starts_with_single in Eb |- *. rewrite Hh, Eb, El'.
  exact (parse_sim ts ts' v Hts Hv).
Qed.

Lemma starts_with_closed (u : str) (c : char) :
  forall q, ~ In c q -> starts_with q (u ++ [c]) = true -> starts_with q u = true.
Proof.
  induction u as [|b u IH]; intros q Hc H.
  - destruct q as [|a q]; [reflexivity|]. simpl in H.
    apply andb_true_iff in H as [H _]. apply N.eqb_eq in H. subst a.
    exfalso. apply Hc. left. reflexivity.
  - destruct q as [|a q]; [reflexivity|]. simpl in H |- *.
    apply andb_true_iff in H as [-> H]. simpl.
    apply IH; [|exact H]. intros Hin. apply Hc. right. exact Hin.
Qed.

(** A text that ends in a character foreign to [p] keeps that end, and
    [replace] goes on after it as if it began there. *)
Lemma delete_closed (b : str) (c : char) :
  ~ In c p ->
  (exists b', replace_from p [] 0 (b ++ [c]) = b' ++ [c]) /\
  forall x, replace_from p [] 0 ((b ++ [c]) ++ x) =
            replace_from p [] 0 (b ++ [c]) ++ replace_from p [] 0 x.
Proof.
  intros Hc.
  assert (Hc96 : N.eqb 96 c = false).
  { destruct (N.eqb_spec 96 c) as [<-|]; [|reflexivity].
    exfalso. apply Hc. destruct Hp as [[p' ->] _]. left. reflexivity. }
  remember (List.length b) as len eqn:Hlen.
  revert b Hlen. induction len as [len IH] using lt_wf_ind.
  intros b Hlen. destruct b as [|a b].
  - split; [exists [] | intros x]; cbn [app];
      rewrite !(delete_copy p Hp c) by exact Hc96; reflexivity.
  - destruct (starts_with p ((a :: b) ++ [c])) eqn:E.
    + pose proof (starts_with_closed (a :: b) c p Hc E) as E'.
      pose proof (starts_with_length p (a :: b) E') as Hle.
      assert (Hpos : 1 <= List.length p)
        by (destruct Hp as [[p' ->] _]; simpl; lia).
      destruct (IH (List.length (skipn (List.length p) (a :: b))))
        with (b := skipn (List.length p) (a :: b)) as [[b' I1] I2];
        [ subst len; rewrite length_skipn; cbn [List.length] in *;
          unfold char in *; lia
        | reflexivity | ].
      assert (Sk : forall z, skipn (List.length p) (((a :: b) ++ [c]) ++ z) =
                             (skipn (List.length p) (a :: b) ++ [c]) ++ z).
      { intros z. rewrite <- app_assoc, skipn_app.
        replace (List.length p - List.length (a :: b)) with 0 by lia.
        cbn [skipn]. rewrite <- app_assoc. reflexivity. }
      pose proof (Sk []) as Sk0. rewrite !app_nil_r in Sk0.
      split.
      * exists b'. rewrite (delete_match p Hp _ E), Sk0. exact I1.
      * intros x. rewrite (delete_match p Hp _ (starts_with_app p _ x E)).
        rewrite (delete_match p Hp _ E), (Sk x), Sk0. apply I2.
    + destruct (IH (List.length b)) with (b := b) as [[b' I1] I2];
        [subst len; simpl; unfold char; lia | reflexivity |].
      assert (Ex : forall x, starts_with p (((a :: b) ++ [c]) ++ x) = false).
      { intros x. destruct (starts_with p (((a :: b) ++ [c]) ++ x)) eqn:E2; [|reflexivity].
        destruct (starts_with_app_inv p _ x E2) as [E3 | E3]; [congruence|].
        exfalso. apply Hc, E3. apply in_or_app. right. left. reflexivity. }
      cbn [app] in *. split.
      * exists (a :: b'). rewrite (delete_no_match p a _ E), I1. reflexivity.
      * intros x. rewrite (delete_no_match p a _ (Ex x)).
        rewrite (delete_no_match p a _ E), I2. reflexivity.
Qed.

End LoadsDelete.

(** ** Dicts *)

Lemma str_eqb_eq (a b : str) : str_eqb a b = true <-> a = b.
Proof.
  unfold str_eqb. destruct (list_eq_dec N.eq_dec a b); split; congruence.
Qed.

Lemma dict_get_set_same (d : dict) (k : str) (v : value) :
  dict_get (dict_set d k v) k = Some v.
Proof.
  induction d as [|[k' v'] d IH]; simpl.
  - destruct (str_eqb k k) eqn:E; [reflexivity|].
    assert (str_eqb k k = true) by (apply str_eqb_eq; reflexivity). congruence.
  - destruct (str_eqb k' k) eqn:E; simpl; rewrite E; [reflexivity | exact IH].
Qed.

Lemma dict_get_set_other (d : dict) (k k' : str) (v : value) :
  k' <> k -> dict_get (dict_set d k v) k' = dict_get d k'.
Proof.
  intros Hk. induction d as [|[k0 v0] d IH]; simpl.
  - destruct (str_eqb k k') eqn:E; [|reflexivity].
    apply str_eqb_eq in E. congruence.
  - destruct (str_eqb k0 k) eqn:E; simpl.
    + destruct (str_eqb k0 k') eqn:E'; [|reflexivity].
      apply str_eqb_eq in E, E'. congruence.
    + rewrite IH. reflexivity.
Qed.

(** ** The agents on a given response *)

Lemma classify_on_response (self : agent) (doc txt : str) (more : Anthropic.message) :
  agent_client self (RouterAgent.request_for self doc) = Ok (txt :: more) ->
  RouterAgent.classify self doc = RouterAgent.classify_response self txt.
Proof. intros H. unfold RouterAgent.classify. rewrite H. reflexivity. Qed.

Lemma extract_on_response (self : agent) (doc txt : str) (more : Anthropic.message) :
  agent_client self (InvoiceAgent.request_for self doc) = Ok (txt :: more) ->
  InvoiceAgent.extract self doc = InvoiceAgent.extract_response self txt.
Proof. intros H. unfold InvoiceAgent.extract. rewrite H. reflexivity. Qed.

Lemma starts_with_weaken (p q s : str) :
  starts_with (p ++ q) s = true -> starts_with p s = true.
Proof.
  revert s. induction p as [|a p IH]; intros s H; [destruct s; reflexivity|].
  destruct s as [|b s]; [discriminate H|].
  simpl in *. apply andb_true_iff in H as [-> H]. simpl. auto.
Qed.

Lemma contains_weaken (p q s : str) :
  contains p s = false -> contains (p ++ q) s = false.
Proof.
  induction s as [|c s IH]; intros H.
  - simpl in *. rewrite orb_false_r in *.
    destruct (starts_with (p ++ q) []) eqn:E; [|reflexivity].
    apply starts_with_weaken in E. congruence.
  - rewrite contains_cons in *. apply orb_false_iff in H as [H1 H2].
    rewrite (IH H2), orb_false_r.
    destruct (starts_with (p ++ q) (c :: s)) eqn:E; [|reflexivity].
    apply starts_with_weaken in E. congruence.
Qed.

(** Without any ["```"] the cleaning is [strip]. *)
Lemma clean_without_fence (txt : str) :
  contains (lit "```") txt = false -> InvoiceAgent.clean txt = strip txt.
Proof.
  intros H. unfold InvoiceAgent.clean.
  rewrite (replace_absent (lit "```json") [] txt)
    by (apply (contains_weaken (lit "```") (lit "json")), H).
  rewrite (replace_absent _ _ _ H). reflexivity.
Qed.

(** The cleaned text holds no ["```"], wherever the response had them. *)
Lemma clean_has_no_fence (txt : str) :
  contains (lit "```") (InvoiceAgent.clean txt) = false.
Proof.
  unfold InvoiceAgent.clean.
  destruct (contains (lit "```") (strip (replace (lit "```") [] (replace (lit "```json") [] txt)))) eqn:E;
    [|reflexivity].
  apply contains_strip in E.
  pose proof (tick3_gone (replace (lit "```json") [] txt)) as G.
  change [96; 96; 96]%N with (lit "```") in G.
  rewrite G in E. discriminate E.
Qed.

(** A fenced text is not JSON. *)
Lemma json_loads_fenced (w rest : str) :
  forallb isspace w = true -> json_loads (w ++ 96%N :: rest) = None.
Proof.
  intros H. unfold json_loads.
  destruct (starts_with [65279%N] (w ++ 96%N :: rest)); [reflexivity|].
  unfold lex. rewrite (lex_space_app w (96%N :: rest) H).
  destruct (forallb is_json_ws w); reflexivity.
Qed.

(** ** A JSON object between fences *)

Section FencedObject.

Local Arguments N.eqb : simpl never.

Let tick3 : str := [96; 96; 96]%N.
Let fence : str := [96; 96; 96; 106; 115; 111; 110]%N.

Lemma tick3_deletable : deletable tick3.
Proof. split; [eexists; reflexivity | reflexivity]. Qed.

Lemma fence_deletable : deletable fence.
Proof. split; [eexists; reflexivity | reflexivity]. Qed.

Lemma lstrip_app (s t : str) :
  lstrip (s ++ t) = match lstrip s with [] => lstrip t | l => l ++ t end.
Proof.
  induction s as [|c s IH]; [reflexivity|].
  simpl. destruct (isspace c); [exact IH | reflexivity].
Qed.

Lemma lstrip_space (w : str) : forallb isspace w = true -> lstrip w = [].
Proof.
  induction w as [|c w IH]; intros H; [reflexivity|].
  cbn [forallb] in H. apply andb_true_iff in H as [Hc H].
  simpl. rewrite Hc. auto.
Qed.

Lemma strip_around (w1 w2 s : str) :
  forallb isspace w1 = true -> forallb isspace w2 = true ->
  strip (w1 ++ s ++ w2) = strip s.
Proof.
  intros H1 H2. unfold strip.
  rewrite (lstrip_app_space w1 _ H1), lstrip_app.
  destruct (lstrip s) as [|c l].
  - rewrite (lstrip_space w2 H2). reflexivity.
  - apply rstrip_app_space, H2.
Qed.

(** What [extract] parses when the response is a text in braces between
    fences: that text with the fence markers it holds deleted. *)
Lemma clean_fenced_any (w0 w1 w2 w3 inner : str) :
  forallb isspace w0 = true -> forallb isspace w1 = true ->
  forallb isspace w2 = true -> forallb isspace w3 = true ->
  InvoiceAgent.clean
    (w0 ++ fence ++ w1 ++ (123%N :: inner ++ [125%N]) ++ w2 ++ tick3 ++ w3)
  = strip (replace tick3 [] (replace fence [] (123%N :: inner ++ [125%N]))).
Proof.
  intros H0 H1 H2 H3. unfold InvoiceAgent.clean.
  change (lit "```json") with fence. change (lit "```") with tick3.
  set (body := 123%N :: inner ++ [125%N]).
  destruct (delete_closed fence fence_deletable (123%N :: inner) 125%N)
    as [[b7 E7] A7].
  { intros H. repeat (destruct H as [H | H]; [discriminate H|]). exact H. }
  change ((123%N :: inner) ++ [125%N]) with body in E7, A7.
  destruct (delete_closed tick3 tick3_deletable b7 125%N) as [[b3 E3] A3].
  { intros H. repeat (destruct H as [H | H]; [discriminate H|]). exact H. }
  pose proof (fence_not_in_closing w3 H3) as F.
  assert (R1 : replace fence []
                 (w0 ++ fence ++ w1 ++ body ++ w2 ++ tick3 ++ w3)
               = w0 ++ w1 ++ (b7 ++ [125%N]) ++ w2 ++ tick3 ++ w3).
  { unfold fence, tick3 in *. unfold replace.
    rewrite (replace_from_space _ _ _ _ H0). f_equal.
    rewrite replace_from_match, app_nil_l.
    rewrite (replace_from_space _ _ _ _ H1). f_equal.
    rewrite A7, E7. f_equal.
    rewrite (replace_from_space _ _ _ _ H2). f_equal.
    rewrite (replace_from_no_start _ _ _ _ F). f_equal.
    rewrite <- (app_nil_r w3) at 1.
    rewrite (replace_from_space _ _ _ _ H3). apply app_nil_r. }
  rewrite R1. clear R1.
  assert (R2 : replace tick3 [] (w0 ++ w1 ++ (b7 ++ [125%N]) ++ w2 ++ tick3 ++ w3)
               = w0 ++ w1 ++ replace tick3 [] (b7 ++ [125%N]) ++ w2 ++ w3).
  { unfold tick3 in *. unfold replace.
    rewrite (replace_from_space _ _ _ _ H0). f_equal.
    rewrite (replace_from_space _ _ _ _ H1). f_equal.
    rewrite A3. f_equal.
    rewrite (replace_from_space _ _ _ _ H2). f_equal.
    rewrite replace_from_match, app_nil_l.
    rewrite <- (app_nil_r w3) at 1.
    rewrite (replace_from_space _ _ _ _ H3). apply app_nil_r. }
  rewrite R2. clear R2.
  replace (replace fence [] body) with (b7 ++ [125%N]) by (symmetry; exact E7).
  replace (w0 ++ w1 ++ replace tick3 [] (b7 ++ [125%N]) ++ w2 ++ w3)
    with ((w0 ++ w1) ++ replace tick3 [] (b7 ++ [125%N]) ++ (w2 ++ w3))
    by (rewrite <- !app_assoc; reflexivity).
  apply strip_around.
  - rewrite forallb_app, H0, H1. reflexivity.
  - rewrite forallb_app, H2, H3. reflexivity.
Qed.

(** That text is still a JSON object when it was one. *)
Lemma fenced_object_loads (inner : str) (d : dict) :
  json_loads (123%N :: inner ++ [125%N]) = Some (VDict d) ->
  exists d',
    json_loads (strip (replace tick3 [] (replace fence [] (123%N :: inner ++ [125%N]))))
    = Some (VDict d').
Proof.
  intros H.
  destruct (json_loads_delete fence fence_deletable _ _ H) as [v1 [L1 K1]].
  destruct v1 as [| | | | | |d1]; simpl in K1; try discriminate K1; try contradiction.
  destruct (json_loads_delete tick3 tick3_deletable _ _ L1) as [v2 [L2 K2]].
  destruct v2 as [| | | | | |d2]; simpl in K2; try discriminate K2; try contradiction.
  exists d2. apply json_loads_strip, L2.
Qed.

End FencedObject.

Lemma same_kind_trans (a b c : value) :
  same_kind a b -> same_kind b c -> same_kind a c.
Proof.
  destruct a, b; simpl; intros H1; try discriminate H1; try contradiction;
    try (injection H1 as <-); destruct c; simpl; intros H2;
    try discriminate H2; try contradiction; auto.
Qed.

(** The cleaning of [extract] leaves valid JSON valid, of the same kind. *)
Lemma clean_keeps_json (txt : str) (v : value) :
  json_loads txt = Some v ->
  exists v', json_loads (InvoiceAgent.clean txt) = Some v' /\ same_kind v v'.
Proof.
  intros H. unfold InvoiceAgent.clean.
  destruct (json_loads_delete (lit "```json") fence_deletable txt v H)
    as [v1 [L1 K1]].
  destruct (json_loads_delete (lit "```") tick3_deletable _ v1 L1)
    as [v2 [L2 K2]].
  exists v2. split; [apply json_loads_strip, L2|].
  exact (same_kind_trans v v1 v2 K1 K2).
Qed.

(** ** Fences, cleaning and the two agents *)











(** ** What the agents return and raise *)

Lemma setitem_dict (v : value) (k : str) (x : value) (r : value) :
  setitem v k x = Ok r ->
  exists d, v = VDict d /\ r = VDict (dict_set d k x).
Proof.
  destruct v; simpl; intros H; try discriminate H.
  injection H as <-. eexists; split; reflexivity.
Qed.

Lemma setitem_raises (v : value) (k : str) (x : value) (e : exn) :
  setitem v k x = Raise e ->
  exn_cls e = TypeError /\ forall d, v <> VDict d.
Proof.
  destruct v; simpl; intros H; try discriminate H;
    injection H as <-; (split; [reflexivity | intros d; discriminate]).
Qed.

(** X1: whatever [classify] or [extract] returns is a dict that holds the
    tracking entry of the agent under [_meta]; an entry [_meta] of the
    response is overwritten. *)
Theorem results_carry_meta (self : agent) (doc : str) (v : value) :
  RouterAgent.classify self doc = Ok v \/ InvoiceAgent.extract self doc = Ok v ->
  exists d, v = VDict d /\
            dict_get d (lit "_meta") =
              Some (VDict [ (lit "model", VStr (agent_model self));
                            (lit "prompt_version", VStr (agent_prompt_version self)) ]).
Proof.
  intros [H | H].
  - unfold RouterAgent.classify in H.
    destruct (agent_client self _) as [[|t more]|e]; simpl in H; try discriminate H.
    unfold RouterAgent.classify_response in H.
    apply setitem_dict in H. destruct H as [d [_ ->]].
    eexists. split; [reflexivity|]. apply dict_get_set_same.
  - unfold InvoiceAgent.extract in H.
    destruct (agent_client self _) as [[|t more]|e]; simpl in H; try discriminate H.
    unfold InvoiceAgent.extract_response in H.
    apply setitem_dict in H. destruct H as [d [_ ->]].
    eexists. split; [reflexivity|]. apply dict_get_set_same.
Qed.

Lemma results_carry_meta_witness :
  exists d,
    VDict [ (lit "_meta", tracking); (lit "document_type", VStr (lit "contract")) ] = VDict d /\
    dict_get d (lit "_meta") =
      Some (VDict [ (lit "model", VStr (lit "claude-sonnet-4-20250514"));
                    (lit "prompt_version", VStr (lit "v1")) ]).
Proof.
  apply (results_carry_meta (router with_own_meta) (lit "scan")
           (VDict [ (lit "_meta", tracking);
                    (lit "document_type", VStr (lit "contract")) ])).
  left. vm_compute. reflexivity.
Defined.



(** ** Key order *)

Lemma dict_set_keys (d : dict) (k : str) (v : value) :
  List.map fst (dict_set d k v) =
  if dict_has d k then List.map fst d else List.map fst d ++ [k].
Proof.
  unfold dict_has. induction d as [|[k' v'] d IH]; [reflexivity|].
  cbn [dict_set dict_get]. destruct (str_eqb k' k) eqn:E.
  - reflexivity.
  - cbn [List.map fst app]. rewrite IH.
    destruct (dict_get d k); reflexivity.
Qed.

(** ** [strip] and the cleaning as normal forms *)

Lemma lstrip_head (s : str) :
  lstrip s = [] \/ exists a m, lstrip s = a :: m /\ isspace a = false.
Proof.
  induction s as [|c s IH]; [left; reflexivity|].
  cbn [lstrip]. destruct (isspace c) eqn:E; [exact IH|].
  right. exists c, s. split; [reflexivity | exact E].
Qed.

Lemma rstrip_cons (a : char) (m : str) :
  isspace a = false -> rstrip (a :: m) = a :: rstrip m.
Proof.
  intros H. cbn [rstrip]. destruct (rstrip m); [rewrite H|]; reflexivity.
Qed.

Lemma rstrip_idem (s : str) : rstrip (rstrip s) = rstrip s.
Proof.
  induction s as [|c s IH]; [reflexivity|].
  change (rstrip (c :: s)) with
    (match rstrip s with
     | [] => if isspace c then [] else [c]
     | t => c :: t
     end).
  destruct (rstrip s) as [|b t] eqn:E.
  - destruct (isspace c) eqn:Ec; [reflexivity|].
    cbn [rstrip]. rewrite Ec. reflexivity.
  - change (rstrip (c :: b :: t)) with
      (match rstrip (b :: t) with
       | [] => if isspace c then [] else [c]
       | t => c :: t
       end).
    rewrite IH. reflexivity.
Qed.

Lemma strip_idem (s : str) : strip (strip s) = strip s.
Proof.
  unfold strip. destruct (lstrip_head s) as [-> | [a [m [-> Ha]]]]; [reflexivity|].
  rewrite (rstrip_cons a m Ha). cbn [lstrip]. rewrite Ha.
  rewrite <- (rstrip_cons a m Ha). apply rstrip_idem.
Qed.

Lemma strip_no_space_head (s : str) (c : char) (r : str) :
  strip s = c :: r -> isspace c = false.
Proof.
  unfold strip. destruct (lstrip_head s) as [-> | [a [m [-> Ha]]]]; [discriminate|].
  rewrite (rstrip_cons a m Ha). intros H. injection H as <- _. exact Ha.
Qed.

Lemma rstrip_no_space_last (s r : str) (c : char) :
  rstrip s = r ++ [c] -> isspace c = false.
Proof.
  revert r. induction s as [|a s IH]; intros r; [destruct r; discriminate|].
  cbn [rstrip]. destruct (rstrip s) as [|b t] eqn:E.
  - destruct (isspace a) eqn:Ea; [destruct r; discriminate|].
    destruct r as [|x r]; [|destruct r; discriminate].
    intros H. injection H as <-. exact Ea.
  - destruct r as [|x r]; [discriminate|].
    intros H. injection H as _ H. exact (IH r H).
Qed.

(** X5: the cleaning of [extract] is a normal form: cleaning a cleaned text
    changes nothing, and a cleaned text holds no fence marker and neither
    begins nor ends with whitespace. *)
Theorem clean_is_idempotent (txt : str) :
  InvoiceAgent.clean (InvoiceAgent.clean txt) = InvoiceAgent.clean txt /\
  contains (lit "```") (InvoiceAgent.clean txt) = false /\
  (forall c r, InvoiceAgent.clean txt = c :: r -> isspace c = false) /\
  (forall r c, InvoiceAgent.clean txt = r ++ [c] -> isspace c = false).
Proof.
  split; [|split; [|split]].
  - rewrite (clean_without_fence _ (clean_has_no_fence txt)).
    unfold InvoiceAgent.clean. apply strip_idem.
  - apply clean_has_no_fence.
  - intros c r. unfold InvoiceAgent.clean. apply strip_no_space_head.
  - intros r c. unfold InvoiceAgent.clean, strip. apply rstrip_no_space_last.
Qed.

Lemma clean_is_idempotent_witness : isspace 123%N = false.
Proof.
  apply (proj1 (proj2 (proj2 (clean_is_idempotent fenced_invoice)))
           123%N (invoice_members ++ [125%N])).
  reflexivity.
Defined.

(** ** Whitespace around the response *)

Section Padding.

Local Arguments N.eqb : simpl never.

Lemma replace_from_app_space (p new s w : str) :
  forallb (fun c => negb (isspace c)) (96%N :: p) = true ->
  forallb isspace w = true ->
  replace_from (96%N :: p) new 0 (s ++ w) = replace_from (96%N :: p) new 0 s ++ w.
Proof.
  intros Hp Hw.
  remember (List.length s) as n eqn:En. revert s En.
  induction n as [n IH] using lt_wf_ind. intros s En.
  destruct s as [|c s].
  - rewrite app_nil_l.
    change (replace_from (96%N :: p) new 0 [] ++ w) with w.
    pose proof (replace_from_space p new w [] Hw) as G.
    rewrite app_nil_r in G. rewrite G. apply app_nil_r.
  - change ((c :: s) ++ w) with (c :: (s ++ w)).
    rewrite !replace_from_cons.
    change (c :: s ++ w) with ((c :: s) ++ w).
    rewrite (starts_with_app_space (96%N :: p) (c :: s) w Hp Hw).
    destruct (starts_with (96%N :: p) (c :: s)) eqn:E.
    + apply starts_with_length in E. cbn [List.length] in E.
      rewrite skipn_app_within by (cbn [List.length]; unfold char in *; lia).
      rewrite (IH (List.length (skipn (List.length (96%N :: p) - 1) s))).
      * rewrite app_assoc. reflexivity.
      * subst n. rewrite length_skipn. cbn [List.length]. unfold char in *. lia.
      * reflexivity.
    + rewrite (IH (List.length s)); [reflexivity| subst n; simpl; lia | reflexivity].
Qed.

Lemma clean_padded (w1 w2 txt : str) :
  forallb isspace w1 = true -> forallb isspace w2 = true ->
  InvoiceAgent.clean (w1 ++ txt ++ w2) = InvoiceAgent.clean txt.
Proof.
  intros H1 H2. unfold InvoiceAgent.clean, replace.
  change (lit "```json") with (96%N :: [96; 96; 106; 115; 111; 110]%N).
  change (lit "```") with (96%N :: [96; 96]%N).
  rewrite (replace_from_space [96; 96; 106; 115; 111; 110]%N [] w1 (txt ++ w2) H1).
  rewrite (replace_from_app_space [96; 96; 106; 115; 111; 110]%N [] txt w2 eq_refl H2).
  rewrite (replace_from_space [96; 96]%N [] w1 _ H1).
  rewrite (replace_from_app_space [96; 96]%N [] _ w2 eq_refl H2).
  apply strip_around; assumption.
Qed.

End Padding.

(** X7: [extract] does not see whitespace around the response: two responses
    that differ by leading and trailing whitespace only (any character
    [str.isspace] accepts) give the same result, the excerpt of the fallback
    included. *)
Theorem extract_ignores_outer_whitespace
    (self : agent) (doc doc' w1 w2 txt : str) (more more' : Anthropic.message) :
  forallb isspace w1 = true -> forallb isspace w2 = true ->
  agent_client self (InvoiceAgent.request_for self doc) = Ok ((w1 ++ txt ++ w2) :: more) ->
  agent_client self (InvoiceAgent.request_for self doc') = Ok (txt :: more') ->
  InvoiceAgent.extract self doc = InvoiceAgent.extract self doc'.
Proof.
  intros H1 H2 Ha Hb.
  rewrite (extract_on_response self doc _ more Ha).
  rewrite (extract_on_response self doc' _ more' Hb).
  unfold InvoiceAgent.extract_response.
  rewrite (clean_padded w1 w2 txt H1 H2). reflexivity.
Qed.

Lemma extract_ignores_outer_whitespace_witness :
  InvoiceAgent.extract
    (InvoiceAgent.init (answering_about (lit "a") padded_invoice invoice_json)) (lit "a") =
  InvoiceAgent.extract
    (InvoiceAgent.init (answering_about (lit "a") padded_invoice invoice_json)) (lit "b").
Proof.
  apply (extract_ignores_outer_whitespace
           (InvoiceAgent.init (answering_about (lit "a") padded_invoice invoice_json))
           (lit "a") (lit "b") [10%N] [9%N; 160%N] invoice_json [] []);
    reflexivity.
Defined.

(** ** JSON whitespace and the other whitespace *)

Lemma json_loads_padded (w1 w2 txt : str) :
  forallb isspace w1 = true -> forallb isspace w2 = true ->
  json_loads (w1 ++ txt ++ w2) =
  if forallb is_json_ws (w1 ++ w2) then json_loads txt else None.
Proof.
  intros H1 H2.
  destruct (json_loads (w1 ++ txt ++ w2)) as [v|] eqn:E.
  - pose proof (json_loads_around w1 txt w2 v H1 H2 E) as Ht. rewrite Ht.
    revert E. unfold json_loads.
    destruct (starts_with [65279%N] (w1 ++ txt ++ w2)); [discriminate|].
    unfold lex. rewrite (lex_space_app w1 (txt ++ w2) H1).
    rewrite forallb_app.
    destruct (forallb is_json_ws w1); [|discriminate].
    rewrite (lex_app_space txt w2 0 H2) by lia.
    destruct (forallb is_json_ws w2); [reflexivity|discriminate].
  - rewrite forallb_app.
    destruct (forallb is_json_ws w1) eqn:J1; [|reflexivity].
    destruct (forallb is_json_ws w2) eqn:J2; [|reflexivity].
    cbn [andb]. revert E. unfold json_loads, lex.
    rewrite (lex_space_app w1 (txt ++ w2) H1), J1.
    rewrite (lex_app_space txt w2 0 H2), J2 by lia.
    destruct (starts_with [65279%N] (w1 ++ txt ++ w2)) eqn:B.
    + intros _. destruct w1 as [|c w1].
      * destruct txt as [|c txt].
        -- reflexivity.
        -- simpl app in B. cbn [starts_with] in B.
           cbn [starts_with]. destruct (N.eqb 65279 c); [reflexivity|discriminate B].
      * exfalso. cbn [app starts_with] in B.
        cbn [forallb] in J1. destruct (N.eqb_spec 65279 c) as [<-|]; discriminate.
    + intros E. destruct (starts_with [65279%N] txt); [reflexivity|exact (eq_sym E)].
Qed.

Lemma json_ws_are_spaces (w : str) :
  forallb is_json_ws w = true -> forallb isspace w = true.
Proof.
  induction w as [|c w IH]; [reflexivity|].
  cbn [forallb]. intros H. apply andb_true_iff in H as [Hc H].
  rewrite (json_ws_space c Hc), (IH H). reflexivity.
Qed.









(** ** How long the excerpt of a fallback is *)

Lemma replace_from_shrinks (p s : str) (k : nat) :
  List.length (replace_from p [] k s) <= List.length s.
Proof.
  revert k. induction s as [|c s IH]; intros k; [simpl; lia|].
  cbn [replace_from]. destruct k as [|k].
  - destruct (starts_with p (c :: s)).
    + rewrite app_nil_l. specialize (IH (List.length p - 1)). simpl. lia.
    + specialize (IH 0). simpl. lia.
  - specialize (IH k). simpl. lia.
Qed.

Lemma strip_shrinks (s : str) : List.length (strip s) <= List.length s.
Proof.
  destruct (strip_split s) as [w1 [w2 [E _]]].
  rewrite E at 2. rewrite !length_app. lia.
Qed.

Lemma clean_shrinks (txt : str) :
  List.length (InvoiceAgent.clean txt) <= List.length txt.
Proof.
  unfold InvoiceAgent.clean, replace.
  change (lit "```json") with [96; 96; 96; 106; 115; 111; 110]%N.
  change (lit "```") with [96; 96; 96]%N. cbv iota.
  etransitivity; [apply strip_shrinks|].
  etransitivity; [apply replace_from_shrinks|].
  apply replace_from_shrinks.
Qed.



(** ** The cleaning only deletes *)

Lemma replace_from_incl (p s : str) (k : nat) :
  incl (replace_from p [] k s) s.
Proof.
  revert k. induction s as [|c s IH]; intros k; [apply incl_refl|].
  cbn [replace_from]. destruct k as [|k].
  - destruct (starts_with p (c :: s)).
    + rewrite app_nil_l. apply incl_tl, IH.
    + apply incl_cons; [left; reflexivity | apply incl_tl, IH].
  - apply incl_tl, IH.
Qed.

Lemma replace_from_same_length (p s : str) (k : nat) :
  List.length (replace_from p [] k s) = List.length s -> replace_from p [] k s = s.
Proof.
  revert k. induction s as [|c s IH]; intros k; [reflexivity|].
  cbn [replace_from]. destruct k as [|k].
  - destruct (starts_with p (c :: s)).
    + rewrite app_nil_l. pose proof (replace_from_shrinks p s (List.length p - 1)).
      cbn [List.length]. unfold char in *. lia.
    + cbn [List.length]. intros H. f_equal. apply IH. unfold char in *. lia.
  - pose proof (replace_from_shrinks p s k). cbn [List.length]. unfold char in *. lia.
Qed.

Lemma strip_incl (s : str) : incl (strip s) s.
Proof.
  destruct (strip_split s) as [w1 [w2 [E _]]]. rewrite E at 2.
  apply incl_appr, incl_appl, incl_refl.
Qed.

Lemma strip_same_length (s : str) :
  List.length (strip s) = List.length s -> strip s = s.
Proof.
  destruct (strip_split s) as [w1 [w2 [E _]]]. intros H.
  rewrite E in H at 2. rewrite !length_app in H.
  destruct w1; [|simpl in H; lia]. destruct w2; [|simpl in H; lia].
  rewrite app_nil_l, app_nil_r in E. symmetry. exact E.
Qed.

(** X6: the cleaning of [extract] only deletes: the cleaned text is never
    longer than the response, holds no character the response does not
    hold, and equals the response when nothing was deleted. *)
Theorem clean_only_deletes (txt : str) :
  List.length (InvoiceAgent.clean txt) <= List.length txt /\
  (forall c, In c (InvoiceAgent.clean txt) -> In c txt) /\
  (List.length (InvoiceAgent.clean txt) = List.length txt -> InvoiceAgent.clean txt = txt).
Proof.
  split; [apply clean_shrinks|]. split.
  - unfold InvoiceAgent.clean, replace.
    change (lit "```json") with [96; 96; 96; 106; 115; 111; 110]%N.
    change (lit "```") with [96; 96; 96]%N. cbv iota.
    intros c H. apply strip_incl in H. apply replace_from_incl in H.
    apply replace_from_incl in H. exact H.
  - unfold InvoiceAgent.clean, replace.
    change (lit "```json") with [96; 96; 96; 106; 115; 111; 110]%N.
    change (lit "```") with [96; 96; 96]%N. cbv iota.
    set (a := replace_from [96; 96; 96; 106; 115; 111; 110]%N [] 0 txt).
    set (b := replace_from [96; 96; 96]%N [] 0 a).
    intros H.
    pose proof (strip_shrinks b) as L1.
    pose proof (replace_from_shrinks [96; 96; 96]%N a 0) as L2. fold b in L2.
    pose proof (replace_from_shrinks [96; 96; 96; 106; 115; 111; 110]%N txt 0) as L3.
    fold a in L3.
    assert (Ea : a = txt) by (apply replace_from_same_length; fold a; unfold char in *; lia).
    assert (Eb : b = a) by (apply replace_from_same_length; fold b; unfold char in *; lia).
    rewrite (strip_same_length b) by (unfold char in *; lia).
    rewrite Eb. exact Ea.
Qed.

Lemma clean_only_deletes_witness :
  InvoiceAgent.clean invoice_json = invoice_json.
Proof.
  apply (proj2 (proj2 (clean_only_deletes invoice_json))). reflexivity.
Defined.

(** ** What is sent to the language model *)

(** X11: both agents send the whole document, unabridged, between the two
    lines of dashes of their user message, so that different documents
    give different requests; the model name is the agent's, the token limit
    1000 for [classify] and 2000 for [extract], and the system prompt does
    not depend on the document. *)
Theorem requests_embed_the_document (self : agent) (doc doc' : str) :
  (RouterAgent.request_for self doc = RouterAgent.request_for self doc' -> doc = doc') /\
  (InvoiceAgent.request_for self doc = InvoiceAgent.request_for self doc' -> doc = doc') /\
  List.length (Anthropic.req_user (RouterAgent.request_for self doc)) = List.length doc + 58 /\
  List.length (Anthropic.req_user (InvoiceAgent.request_for self doc)) = List.length doc + 56 /\
  RouterAgent.request_for self doc <> InvoiceAgent.request_for self doc'.
Proof.
  split; [|split; [|split; [|split]]].
  - unfold RouterAgent.request_for, RouterAgent.user_message. intros H.
    injection H as H. apply app_inv_tail in H. exact H.
  - unfold InvoiceAgent.request_for, InvoiceAgent.user_message. intros H.
    injection H as H. apply app_inv_tail in H. exact H.
  - cbn [RouterAgent.request_for Anthropic.req_user]. unfold RouterAgent.user_message.
    rewrite !length_app. simpl. lia.
  - cbn [InvoiceAgent.request_for Anthropic.req_user]. unfold InvoiceAgent.user_message.
    rewrite !length_app. simpl. lia.
  - intros H. apply (f_equal Anthropic.req_max_tokens) in H.
    cbn [RouterAgent.request_for InvoiceAgent.request_for Anthropic.req_max_tokens] in H.
    discriminate H.
Qed.

Lemma requests_embed_the_document_witness :
  lit "scan" = lit "scan" /\
  List.length (Anthropic.req_user (RouterAgent.request_for (router prose) (lit "scan"))) = 62.
Proof.
  split.
  - apply (proj1 (requests_embed_the_document (router prose) (lit "scan") (lit "scan"))).
    reflexivity.
  - apply (proj1 (proj2 (proj2 (requests_embed_the_document (router prose)
                                  (lit "scan") (lit "scan"))))).
Defined.

(** ** More on text extraction *)

Lemma falsy_false (x : option str) :
  PdfUtils.falsy x = false <-> exists s, x = Some s /\ s <> [].
Proof.
  split.
  - destruct x as [[|c s]|]; try discriminate. intros _.
    exists (c :: s). split; [reflexivity|discriminate].
  - intros [s [-> H]]. destruct s; [congruence|reflexivity].
Qed.

(** X12: [_get_client] reads both secrets, the endpoint first, whether or not
    the first one is there, and touches nothing else; it returns a client
    exactly when both are set and non-empty, built from these two values,
    and raises its [ValueError] otherwise. *)
Theorem get_client_returns_iff_both_secrets (w : PdfUtils.world) :
  fst (PdfUtils._get_client w) =
    [PdfUtils.EvGetenv PdfUtils.endpoint_name; PdfUtils.EvGetenv PdfUtils.key_name] /\
  (forall c,
     snd (PdfUtils._get_client w) = Ok c <->
     PdfUtils.getenv w PdfUtils.endpoint_name = Some (PdfUtils.client_endpoint c) /\
     PdfUtils.client_endpoint c <> [] /\
     PdfUtils.getenv w PdfUtils.key_name = Some (PdfUtils.client_key c) /\
     PdfUtils.client_key c <> []) /\
  (forall e,
     snd (PdfUtils._get_client w) = Raise e ->
     e = Exn ValueError
           (lit "Missing AZURE_DOC_INTEL_ENDPOINT or AZURE_DOC_INTEL_KEY in .env") None /\
     (PdfUtils.falsy (PdfUtils.getenv w PdfUtils.endpoint_name) = true \/
      PdfUtils.falsy (PdfUtils.getenv w PdfUtils.key_name) = true)).
Proof.
  unfold PdfUtils._get_client, PdfUtils.call, PdfUtils.iobind, PdfUtils.ret, PdfUtils.throw.
  destruct (PdfUtils.getenv w PdfUtils.endpoint_name) as [[|a ep]|];
    destruct (PdfUtils.getenv w PdfUtils.key_name) as [[|b k]|];
    cbn [PdfUtils.falsy orb fst snd app PdfUtils.or_empty];
    (split; [reflexivity|split]).
  all: try (intros [ce ck]; cbn [PdfUtils.client_endpoint PdfUtils.client_key];
            split; [intros H | intros [H1 [H2 [H3 H4]]]]).
  all: try (intros e H).
  all: try discriminate H.
  all: try congruence.
  all: try (injection H as <-; split; [reflexivity | solve [auto]]).
  injection H as <- <-. repeat split; discriminate.
Qed.

Lemma get_client_returns_iff_both_secrets_witness :
  snd (PdfUtils._get_client healthy) =
    Ok {| PdfUtils.client_endpoint := lit "https://ocr.example";
          PdfUtils.client_key := lit "k3y" |}.
Proof.
  apply (proj2 (proj1 (proj2 (get_client_returns_iff_both_secrets healthy))
                  {| PdfUtils.client_endpoint := lit "https://ocr.example";
                     PdfUtils.client_key := lit "k3y" |})).
  repeat split; discriminate.
Defined.

Section Extraction.

Import PdfUtils.

Variable w : world.
Variable path : str.

Let full_trace : list event :=
  [ EvExists path; EvGetenv endpoint_name; EvGetenv key_name; EvOpen path;
    EvBeginAnalyze (lit "prebuilt-read"); EvPollerResult ].

(** Every run of [extract_text], step by step. *)
Lemma extract_text_cases :
  (path_exists w path = false /\
   extract_text w path =
     (firstn 1 full_trace,
      Raise (Exn FileNotFoundError (lit "File not found: " ++ path) None))) \/
  (path_exists w path = true /\
   ((secret_missing w = true /\
     extract_text w path =
       (firstn 3 full_trace,
        Raise (Exn RuntimeError (lit "Failed to extract text: " ++ missing_secret)
                 (Some (Exn ValueError missing_secret None))))) \/
    (secret_missing w = false /\
     ((exists e, open_rb w path = Raise e /\
                 extract_text w path =
                   (firstn 4 full_trace,
                    Raise (Exn RuntimeError (lit "Failed to extract text: " ++ exn_str e)
                             (Some e)))) \/
      (exists body,
          open_rb w path = Ok body /\
          let submitted :=
            begin_analyze_document w (or_empty (getenv w endpoint_name))
              (or_empty (getenv w key_name)) (lit "prebuilt-read") body in
          ((exists e, submitted = Raise e /\
                      extract_text w path =
                        (firstn 5 full_trace,
                         Raise (Exn RuntimeError
                                  (lit "Failed to extract text: " ++ exn_str e) (Some e)))) \/
           (exists e, submitted = Ok (Raise e) /\
                      extract_text w path =
                        (full_trace,
                         Raise (Exn RuntimeError
                                  (lit "Failed to extract text: " ++ exn_str e) (Some e)))) \/
           (exists r, submitted = Ok (Ok r) /\
                      extract_text w path =
                        (full_trace, Ok (join_lines (text_parts r)))))))))).
Proof.
  unfold extract_text, call, iobind at 1.
  destruct (path_exists w path) eqn:Hex; cbn [negb]; cbv iota.
  2:{ left. split; reflexivity. }
  right. split; [reflexivity|].
  unfold extract_body, _get_client, secret_missing, call, iobind, try_except, ret, throw.
  destruct (falsy (getenv w endpoint_name) || falsy (getenv w key_name)) eqn:Hs.
  { left. split; reflexivity. }
  right. split; [reflexivity|].
  destruct (open_rb w path) as [body|e] eqn:Hopen.
  2:{ left. exists e. split; reflexivity. }
  right. exists body. split; [reflexivity|]. cbv zeta.
  cbn [client_endpoint client_key].
  destruct (begin_analyze_document w _ _ _ body) as [[r|e]|e] eqn:Hb.
  - right; right. exists r. split; reflexivity.
  - right; left. exists e. split; reflexivity.
  - left. exists e. split; reflexivity.
Qed.

End Extraction.

(** X13: how [extract_text] can end, whatever the file system, the
    environment and the service answer: with a text, and then the path
    exists and both secrets are set; with [FileNotFoundError], exactly when
    the path does not exist; or with a [RuntimeError] that carries the text
    of the exception it wraps and that exception as its context.  No other
    exception leaves it. *)
Theorem extract_text_outcomes (w : PdfUtils.world) (path : str) :
  match snd (PdfUtils.extract_text w path) with
  | Ok text =>
      PdfUtils.path_exists w path = true /\ PdfUtils.secret_missing w = false /\
      exists body r, PdfUtils.open_rb w path = Ok body /\
                     text = PdfUtils.join_lines (PdfUtils.text_parts r)
  | Raise e =>
      (PdfUtils.path_exists w path = false /\
       e = Exn FileNotFoundError (lit "File not found: " ++ path) None) \/
      (PdfUtils.path_exists w path = true /\
       exists cause,
         e = Exn RuntimeError (lit "Failed to extract text: " ++ exn_str cause)
               (Some cause))
  end.
Proof.
  destruct (extract_text_cases w path)
    as [[Hex ->] | [Hex [[Hs ->] | [Hs [[e [Ho ->]] | [body [Ho H]]]]]]];
    cbn [snd].
  - left. split; [exact Hex | reflexivity].
  - right. split; [exact Hex|].
    exists (Exn ValueError PdfUtils.missing_secret None). reflexivity.
  - right. split; [exact Hex|]. exists e. reflexivity.
  - cbv zeta in H. destruct H as [[e [_ ->]] | [[e [_ ->]] | [r [_ ->]]]]; cbn [snd].
    + right. split; [exact Hex|]. exists e. reflexivity.
    + right. split; [exact Hex|]. exists e. reflexivity.
    + split; [exact Hex|]. split; [exact Hs|]. exists body, r. split; [exact Ho | reflexivity].
Qed.

(** X14: the calls [extract_text] makes are always an initial part of the
    same sequence: the existence check, the two secrets, the opening of the
    file, the submission under the model name "prebuilt-read", the wait for
    the result.  It stops at the first failure, never repeats or reorders a
    call, and a text is returned only after all six. *)
Theorem extract_text_call_order (w : PdfUtils.world) (path : str) :
  exists n,
    1 <= n <= 6 /\
    fst (PdfUtils.extract_text w path) =
      firstn n [ PdfUtils.EvExists path;
                 PdfUtils.EvGetenv (lit "AZURE_DOC_INTEL_ENDPOINT");
                 PdfUtils.EvGetenv (lit "AZURE_DOC_INTEL_KEY");
                 PdfUtils.EvOpen path;
                 PdfUtils.EvBeginAnalyze (lit "prebuilt-read");
                 PdfUtils.EvPollerResult ] /\
    (forall text, snd (PdfUtils.extract_text w path) = Ok text -> n = 6) /\
    (existsb PdfUtils.is_network (fst (PdfUtils.extract_text w path)) = true -> 5 <= n).
Proof.
  destruct (extract_text_cases w path)
    as [[Hex ->] | [Hex [[Hs ->] | [Hs [[e [Ho ->]] | [body [Ho H]]]]]]].
  - exists 1. repeat split; try lia; cbn [snd fst]; discriminate.
  - exists 3. repeat split; try lia; cbn [snd fst]; discriminate.
  - exists 4. repeat split; try lia; cbn [snd fst]; discriminate.
  - cbv zeta in H. destruct H as [[e [_ ->]] | [[e [_ ->]] | [r [_ ->]]]].
    + exists 5. repeat split; try lia; cbn [snd fst]; discriminate.
    + exists 6. repeat split; try lia; cbn [snd fst]; discriminate.
    + exists 6. repeat split; lia.
Qed.

Lemma extract_text_call_order_witness :
  exists n,
    1 <= n <= 6 /\
    fst (PdfUtils.extract_text no_endpoint (lit "a.pdf")) =
      firstn n [ PdfUtils.EvExists (lit "a.pdf");
                 PdfUtils.EvGetenv (lit "AZURE_DOC_INTEL_ENDPOINT");
                 PdfUtils.EvGetenv (lit "AZURE_DOC_INTEL_KEY");
                 PdfUtils.EvOpen (lit "a.pdf");
                 PdfUtils.EvBeginAnalyze (lit "prebuilt-read");
                 PdfUtils.EvPollerResult ] /\
    (forall text, snd (PdfUtils.extract_text no_endpoint (lit "a.pdf")) = Ok text -> n = 6) /\
    (existsb PdfUtils.is_network (fst (PdfUtils.extract_text no_endpoint (lit "a.pdf"))) = true ->
     5 <= n).
Proof. exact (extract_text_call_order no_endpoint (lit "a.pdf")). Defined.

(** X15: when the file exists, both secrets are set and the file cannot be
    opened, the exception of [open] is wrapped like a failure of the
    service: a [RuntimeError] with its text and with it as context, and
    nothing has been sent over the network. *)
Theorem extract_text_wraps_open_failure
    (w : PdfUtils.world) (path : str) (e : exn) :
  PdfUtils.path_exists w path = true ->
  PdfUtils.secret_missing w = false ->
  PdfUtils.open_rb w path = Raise e ->
  PdfUtils.extract_text w path =
    ([ PdfUtils.EvExists path; PdfUtils.EvGetenv PdfUtils.endpoint_name;
       PdfUtils.EvGetenv PdfUtils.key_name; PdfUtils.EvOpen path ],
     Raise (Exn RuntimeError (lit "Failed to extract text: " ++ exn_str e) (Some e))) /\
  existsb PdfUtils.is_network (fst (PdfUtils.extract_text w path)) = false.
Proof.
  intros Hex Hs Ho.
  destruct (extract_text_cases w path)
    as [[Hex' _] | [_ [[Hs' _] | [_ [[e' [Ho' E]] | [body [Ho' _]]]]]]];
    try congruence.
  rewrite Ho in Ho'. injection Ho' as <-. rewrite E. split; reflexivity.
Qed.

Lemma extract_text_wraps_open_failure_witness :
  PdfUtils.extract_text unreadable (lit "a.pdf") =
    ([ PdfUtils.EvExists (lit "a.pdf"); PdfUtils.EvGetenv PdfUtils.endpoint_name;
       PdfUtils.EvGetenv PdfUtils.key_name; PdfUtils.EvOpen (lit "a.pdf") ],
     Raise (Exn RuntimeError
              (lit "Failed to extract text: " ++ exn_str permission_denied)
              (Some permission_denied))) /\
  existsb PdfUtils.is_network (fst (PdfUtils.extract_text unreadable (lit "a.pdf"))) = false.
Proof.
  apply (extract_text_wraps_open_failure unreadable (lit "a.pdf") permission_denied);
    reflexivity.
Defined.

(** X16: when the file exists, both secrets are set, the file opens and the
    analysis succeeds, [extract_text] returns the contents of the lines of
    all pages, in order, separated by single line feeds; the service was
    given the two secrets, the model name "prebuilt-read" and the bytes of
    the file, and the six calls were made in order. *)
Theorem extract_text_returns_joined_lines
    (w : PdfUtils.world) (path endpoint key : str) (body : list N)
    (r : PdfUtils.analyze_result) :
  PdfUtils.path_exists w path = true ->
  PdfUtils.getenv w PdfUtils.endpoint_name = Some endpoint -> endpoint <> [] ->
  PdfUtils.getenv w PdfUtils.key_name = Some key -> key <> [] ->
  PdfUtils.open_rb w path = Ok body ->
  PdfUtils.begin_analyze_document w endpoint key (lit "prebuilt-read") body = Ok (Ok r) ->
  PdfUtils.extract_text w path =
    ([ PdfUtils.EvExists path; PdfUtils.EvGetenv PdfUtils.endpoint_name;
       PdfUtils.EvGetenv PdfUtils.key_name; PdfUtils.EvOpen path;
       PdfUtils.EvBeginAnalyze (lit "prebuilt-read"); PdfUtils.EvPollerResult ],
     Ok (PdfUtils.join_lines
           (flat_map (fun pg => match PdfUtils.page_lines pg with
                                | Some ls => List.map PdfUtils.line_content ls
                                | None => []
                                end)
              (PdfUtils.result_pages r)))).
Proof.
  intros Hex He Hne Hk Hnk Ho Hb.
  destruct (extract_text_cases w path)
    as [[Hex' _] | [_ [[Hs' _] | [_ [[e' [Ho' E]] | [body' [Ho' H]]]]]]];
    try congruence.
  - exfalso. unfold PdfUtils.secret_missing in Hs'. rewrite He, Hk in Hs'.
    destruct endpoint; [congruence|]. destruct key; [congruence|]. discriminate Hs'.
  - rewrite Ho in Ho'. injection Ho' as <-. cbv zeta in H.
    rewrite He, Hk in H. cbn [PdfUtils.or_empty] in H. rewrite Hb in H.
    destruct H as [[e [H _]] | [[e [H _]] | [r' [H ->]]]]; try discriminate H.
    injection H as <-. f_equal. f_equal. f_equal.
    unfold PdfUtils.text_parts. apply flat_map_ext.
    intros pg. destruct (PdfUtils.page_lines pg); reflexivity.
Qed.

Lemma extract_text_returns_joined_lines_witness :
  snd (PdfUtils.extract_text healthy (lit "a.pdf")) =
    Ok (lit "TAX INVOICE" ++ [10%N] ++ lit "ABN 12 345 678 901" ++ [10%N] ++
        lit "TOTAL 24200.00").
Proof.
  refine (f_equal snd
            (extract_text_returns_joined_lines healthy (lit "a.pdf")
               (lit "https://ocr.example") (lit "k3y") [37; 80; 68; 70]%N two_pages
               _ _ _ _ _ _ _));
    try reflexivity; discriminate.
Defined.

(** ** Joining the lines *)

Lemma join_lines_cons (p : str) (rest : list str) :
  rest <> [] -> PdfUtils.join_lines (p :: rest) = p ++ 10%N :: PdfUtils.join_lines rest.
Proof. destruct rest; [congruence|reflexivity]. Qed.

Lemma join_lines_app (a b : list str) :
  a <> [] -> b <> [] ->
  PdfUtils.join_lines (a ++ b) = PdfUtils.join_lines a ++ 10%N :: PdfUtils.join_lines b.
Proof.
  intros Ha Hb. induction a as [|p a IH]; [congruence|].
  destruct a as [|q a].
  - simpl app. rewrite (join_lines_cons p b Hb). reflexivity.
  - change ((p :: q :: a) ++ b) with (p :: ((q :: a) ++ b)).
    rewrite (join_lines_cons p ((q :: a) ++ b)) by discriminate.
    rewrite IH by discriminate.
    rewrite (join_lines_cons p (q :: a)) by discriminate.
    rewrite <- app_assoc. reflexivity.
Qed.

(** X17: the text of a document is the text of its first pages, a line feed,
    and the text of its last pages, wherever the pages are split; a part
    without lines (no page, pages whose [lines] is [None] or empty)
    contributes nothing, not even a line feed. *)
Theorem text_of_pages_app (ps1 ps2 : list PdfUtils.page) :
  let lines ps := PdfUtils.text_parts {| PdfUtils.result_pages := ps |} in
  let text ps := PdfUtils.join_lines (lines ps) in
  text (ps1 ++ ps2) =
    match lines ps1, lines ps2 with
    | [], _ => text ps2
    | _, [] => text ps1
    | _, _ => text ps1 ++ [10%N] ++ text ps2
    end.
Proof.
  intros lines text. unfold text, lines, PdfUtils.text_parts.
  cbn [PdfUtils.result_pages]. rewrite flat_map_app.
  set (f := fun pg => List.map PdfUtils.line_content
                        match PdfUtils.page_lines pg with Some ls => ls | None => [] end).
  destruct (flat_map f ps1) as [|a l1] eqn:E1; [reflexivity|].
  destruct (flat_map f ps2) as [|b l2] eqn:E2; [rewrite app_nil_r; reflexivity|].
  apply join_lines_app; discriminate.
Qed.

(** X18: the length of the joined text is the sum of the lengths of the
    lines plus one line feed between two lines; when no line holds a line
    feed of its own, the text has one line feed fewer than there are lines,
    so the lines can be counted and told apart in it. *)
Theorem join_lines_counts (parts : list str) :
  List.length (PdfUtils.join_lines parts) =
    list_sum (List.map (@List.length char) parts) + (List.length parts - 1) /\
  (Forall (fun p => ~ In 10%N p) parts ->
   count_occ N.eq_dec (PdfUtils.join_lines parts) 10%N = List.length parts - 1).
Proof.
  split.
  - induction parts as [|p rest IH]; [reflexivity|].
    destruct rest as [|q rest].
    + simpl. lia.
    + rewrite (join_lines_cons p (q :: rest)) by discriminate.
      rewrite length_app. cbn [List.length]. rewrite IH.
      cbn [List.map List.length]. unfold list_sum, char in *. cbn [fold_right]. lia.
  - induction 1 as [|p rest Hp Hrest IH]; [reflexivity|].
    destruct rest as [|q rest].
    + simpl. apply count_occ_not_In. exact Hp.
    + rewrite join_lines_cons by discriminate.
      rewrite count_occ_app. rewrite (proj1 (count_occ_not_In _ _ _) Hp).
      rewrite count_occ_cons_eq by reflexivity. rewrite IH.
      cbn [List.length]. lia.
Qed.

Lemma join_lines_counts_witness :
  count_occ N.eq_dec
    (PdfUtils.join_lines [lit "TAX INVOICE"; lit "ABN 12 345 678 901"; lit "TOTAL 24200.00"])
    10%N = 2.
Proof.
  apply (proj2 (join_lines_counts
                  [lit "TAX INVOICE"; lit "ABN 12 345 678 901"; lit "TOTAL 24200.00"])).
  repeat constructor; intros H; vm_compute in H; intuition discriminate.
Defined.

(** ** The pipeline script *)

Section PipelineFacts.

Import Pipeline.

Variable w : PdfUtils.world.
Variable service : Anthropic.client.
Variables dumps repr : value -> str.

Let router : agent := RouterAgent.init service.
Let invoice_agent : agent := InvoiceAgent.init service.

(** What the script has done once [classify] was called on [text]. *)
Let classified (calls : list PdfUtils.event) (text : str) : list event :=
  List.map Pdf calls ++
  [ Print (lit "=== Extracted Text ===");
    Print (slice_to 500 text);
    Print (10%N :: lit "=== Router Classification ===");
    Request (RouterAgent.request_for router text) ].

(** The script, case by case. *)
Lemma run_cases :
  run w service dumps repr =
  match PdfUtils.extract_text w pdf_name with
  | (calls, Raise e) => (List.map Pdf calls, Raise e)
  | (calls, Ok text) =>
      match RouterAgent.classify router text with
      | Raise e => (classified calls text, Raise e)
      | Ok v =>
          match get v (lit "document_type") with
          | Raise e => (classified calls text ++ [Print (dumps v)], Raise e)
          | Ok document_type =>
              if equals_str document_type (lit "invoice")
              then
                match InvoiceAgent.extract invoice_agent text with
                | Raise e =>
                    (classified calls text ++
                     [ Print (dumps v);
                       Print (10%N :: lit "=== Invoice Extraction ===");
                       Request (InvoiceAgent.request_for invoice_agent text) ],
                     Raise e)
                | Ok extraction =>
                    (classified calls text ++
                     [ Print (dumps v);
                       Print (10%N :: lit "=== Invoice Extraction ===");
                       Request (InvoiceAgent.request_for invoice_agent text);
                       Print (dumps extraction) ],
                     Ok tt)
                end
              else
                (classified calls text ++
                 [ Print (dumps v);
                   Print (10%N :: lit "Skipping invoice extraction - document is: "
                            ++ fstr repr document_type) ],
                 Ok tt)
          end
      end
  end.
Proof.
  unfold run, of_pdf, andthen at 1.
  destruct (PdfUtils.extract_text w pdf_name) as [calls [text|e]]; cbn [fst snd];
    [|reflexivity].
  unfold classified, print, asking, pure, andthen. fold router invoice_agent.
  destruct (RouterAgent.classify router text) as [v|e]; [|reflexivity].
  destruct (get v (lit "document_type")) as [dt|e];
    [|rewrite <- !app_assoc; reflexivity].
  destruct (equals_str dt (lit "invoice")).
  - destruct (InvoiceAgent.extract invoice_agent text) as [x|e];
      rewrite <- !app_assoc; reflexivity.
  - rewrite <- !app_assoc. reflexivity.
Qed.

End PipelineFacts.

Lemma requests_of_pdf (calls : list PdfUtils.event) :
  Pipeline.requests (List.map Pipeline.Pdf calls) = [].
Proof. induction calls as [|c calls IH]; [reflexivity | exact IH]. Qed.

Lemma printed_of_pdf (calls : list PdfUtils.event) :
  Pipeline.printed (List.map Pipeline.Pdf calls) = [].
Proof. induction calls as [|c calls IH]; [reflexivity | exact IH]. Qed.

Lemma requests_app (a b : list Pipeline.event) :
  Pipeline.requests (a ++ b) = Pipeline.requests a ++ Pipeline.requests b.
Proof. apply flat_map_app. Qed.

Lemma printed_app (a b : list Pipeline.event) :
  Pipeline.printed (a ++ b) = Pipeline.printed a ++ Pipeline.printed b.
Proof. apply flat_map_app. Qed.

(** What [classify] returned when the pipeline goes on to the extraction. *)
Lemma classified_as_invoice (self : agent) (text : str) (v : value) :
  RouterAgent.classify self text = Ok v ->
  (exists dt, Pipeline.get v (lit "document_type") = Ok dt) /\
  (forall dt, Pipeline.get v (lit "document_type") = Ok dt ->
     (Pipeline.equals_str dt (lit "invoice") = true <->
      exists txt more d,
        agent_client self (RouterAgent.request_for self text) = Ok (txt :: more) /\
        json_loads txt = Some (VDict d) /\
        dict_get d (lit "document_type") = Some (VStr (lit "invoice")))).
Proof.
  unfold RouterAgent.classify.
  destruct (agent_client self _) as [[|txt more]|e]; simpl; try discriminate.
  unfold RouterAgent.classify_response. intros H.
  apply setitem_dict in H. destruct H as [d [Hd ->]].
  cbn [Pipeline.get]. split; [eexists; reflexivity|].
  intros dt Hdt. injection Hdt as <-.
  rewrite dict_get_set_other by (intros C; vm_compute in C; discriminate C).
  destruct (json_loads txt) as [v|] eqn:Hj.
  - subst v. split.
    + intros E. exists txt, more, d. split; [reflexivity|]. split; [exact Hj|].
      destruct (dict_get d (lit "document_type")) as [[| | | |s| |]|];
        try discriminate E.
      cbn [Pipeline.equals_str] in E. apply str_eqb_eq in E. rewrite E. reflexivity.
    + intros [txt' [more' [d' [E1 [E2 E3]]]]].
      injection E1 as <- <-. rewrite Hj in E2. injection E2 as <-.
      rewrite E3. reflexivity.
  - injection Hd as <-. split.
    + intros E. vm_compute in E. discriminate E.
    + intros [txt' [more' [d' [E1 [E2 E3]]]]].
      injection E1 as <- <-. rewrite Hj in E2. discriminate E2.
Qed.

(** X19: when [extract_text] fails, the script ends with that exception (a
    [FileNotFoundError] or a [RuntimeError]) having printed nothing and
    sent nothing to the language model. *)
Theorem pipeline_needs_the_text
    (w : PdfUtils.world) (service : Anthropic.client) (dumps repr : value -> str)
    (e : exn) :
  snd (PdfUtils.extract_text w (lit "Invoice INV-0911.pdf")) = Raise e ->
  snd (Pipeline.run w service dumps repr) = Raise e /\
  Pipeline.requests (fst (Pipeline.run w service dumps repr)) = [] /\
  Pipeline.printed (fst (Pipeline.run w service dumps repr)) = [].
Proof.
  intros H. rewrite run_cases. change Pipeline.pdf_name with (lit "Invoice INV-0911.pdf").
  destruct (PdfUtils.extract_text w (lit "Invoice INV-0911.pdf")) as [calls [text|e']];
    cbn [snd] in H; [discriminate H|].
  injection H as ->. cbn [fst snd].
  split; [reflexivity|]. split; [apply requests_of_pdf | apply printed_of_pdf].
Qed.

Lemma pipeline_needs_the_text_witness :
  snd (Pipeline.run no_file invoice_service no_text no_text) =
    Raise (Exn FileNotFoundError (lit "File not found: Invoice INV-0911.pdf") None) /\
  Pipeline.requests (fst (Pipeline.run no_file invoice_service no_text no_text)) = [] /\
  Pipeline.printed (fst (Pipeline.run no_file invoice_service no_text no_text)) = [].
Proof.
  apply (pipeline_needs_the_text no_file invoice_service no_text no_text).
  reflexivity.
Defined.



(** The script when the classification is not an invoice. *)
Lemma run_skips
    (w : PdfUtils.world) (service : Anthropic.client) (dumps repr : value -> str)
    (text : str) (d : dict) :
  snd (PdfUtils.extract_text w (lit "Invoice INV-0911.pdf")) = Ok text ->
  RouterAgent.classify (RouterAgent.init service) text = Ok (VDict d) ->
  Pipeline.equals_str (dict_get d (lit "document_type")) (lit "invoice") = false ->
  snd (Pipeline.run w service dumps repr) = Ok tt /\
  Pipeline.requests (fst (Pipeline.run w service dumps repr)) =
    [RouterAgent.request_for (RouterAgent.init service) text] /\
  last (Pipeline.printed (fst (Pipeline.run w service dumps repr))) [] =
    10%N :: lit "Skipping invoice extraction - document is: " ++
    Pipeline.fstr repr (dict_get d (lit "document_type")).
Proof.
  intros H Hc He. rewrite run_cases.
  change Pipeline.pdf_name with (lit "Invoice INV-0911.pdf").
  destruct (PdfUtils.extract_text w (lit "Invoice INV-0911.pdf")) as [calls [text'|e]];
    cbn [snd] in H; [|discriminate H].
  injection H as ->. rewrite Hc. cbn [Pipeline.get]. rewrite He. cbn [fst snd].
  rewrite !requests_app, !printed_app, requests_of_pdf, printed_of_pdf.
  repeat split.
Qed.



(** ** pdf_utils.py as a script *)

Lemma preview_slice (text : str) : PdfMain.preview text = slice_to 500 text.
Proof.
  unfold PdfMain.preview, slice_to.
  destruct (Nat.ltb_spec 500 (List.length text)) as [H|H]; [reflexivity|].
  symmetry. apply firstn_all2. exact H.
Qed.

Lemma extract_text_raises (w : PdfUtils.world) (path : str) (e : exn) :
  snd (PdfUtils.extract_text w path) = Raise e ->
  exn_cls e = FileNotFoundError \/ exn_cls e = RuntimeError.
Proof.
  destruct (extract_text_cases w path)
    as [[Hex ->] | [Hex [[Hs ->] | [Hs [[e' [Ho ->]] | [body [Ho H]]]]]]];
    cbn [snd]; try (intros E; injection E as <-; auto).
  cbv zeta in H. destruct H as [[e' [_ ->]] | [[e' [_ ->]] | [r [_ ->]]]]; cbn [snd];
    intros E; try discriminate E; injection E as <-; auto.
Qed.

(** X22: the preview the script prints is [text[:500]] in both branches of
    its conditional: never more than 500 characters, a prefix of the text,
    and the whole text when it has 500 characters or fewer. *)
Theorem preview_is_the_first_500 (text : str) :
  PdfMain.preview text = slice_to 500 text /\
  List.length (PdfMain.preview text) = Nat.min 500 (List.length text) /\
  text = PdfMain.preview text ++ skipn 500 text /\
  (List.length text <= 500 -> PdfMain.preview text = text).
Proof.
  rewrite preview_slice. unfold slice_to.
  split; [reflexivity|]. split; [apply length_firstn|].
  split; [symmetry; apply firstn_skipn|].
  intros H. apply firstn_all2. exact H.
Qed.

Lemma preview_is_the_first_500_witness :
  PdfMain.preview (lit "TAX INVOICE") = lit "TAX INVOICE".
Proof.
  apply (proj2 (proj2 (proj2 (preview_is_the_first_500 (lit "TAX INVOICE"))))).
  vm_compute. repeat constructor.
Defined.

(** X23: how the script ends.  With no argument it prints the usage line and
    exits with status 1 without touching the file system, the environment
    or the network.  With an argument it never exits by itself: it ends
    normally exactly when [extract_text] returns for the first argument,
    after the preview and the total number of characters, and otherwise
    with the uncaught [FileNotFoundError] or [RuntimeError] of
    [extract_text]; further arguments are ignored. *)
Theorem main_outcomes (w : PdfUtils.world) (argv : list str) :
  match snd (PdfMain.main w argv) with
  | PdfMain.Exit status =>
      status = 1%N /\ List.length argv < 2 /\
      fst (PdfMain.main w argv) =
        [PdfMain.Print (lit "Usage: python pdf_utils.py <path_to_pdf>")]
  | PdfMain.Completed =>
      exists script pdf_path rest text,
        argv = script :: pdf_path :: rest /\
        snd (PdfUtils.extract_text w pdf_path) = Ok text /\
        fst (PdfMain.main w argv) =
          [ PdfMain.Print (lit "Processing: " ++ pdf_path ++ [10%N]);
            PdfMain.Print (lit "=== extract_text ===") ] ++
          List.map PdfMain.Pdf (fst (PdfUtils.extract_text w pdf_path)) ++
          [ PdfMain.Print (slice_to 500 text);
            PdfMain.Print (10%N :: lit "[Total: " ++
                           PdfMain.decimal (List.length text) ++ lit " characters]") ]
  | PdfMain.Uncaught e =>
      exists script pdf_path rest,
        argv = script :: pdf_path :: rest /\
        snd (PdfUtils.extract_text w pdf_path) = Raise e /\
        (exn_cls e = FileNotFoundError \/ exn_cls e = RuntimeError) /\
        fst (PdfMain.main w argv) =
          [ PdfMain.Print (lit "Processing: " ++ pdf_path ++ [10%N]);
            PdfMain.Print (lit "=== extract_text ===") ] ++
          List.map PdfMain.Pdf (fst (PdfUtils.extract_text w pdf_path))
  end /\
  (forall script pdf_path rest,
     argv = script :: pdf_path :: rest -> PdfMain.main w argv = PdfMain.main w [script; pdf_path]).
Proof.
  split.
  - unfold PdfMain.main.
    destruct argv as [|script [|pdf_path rest]]; cbn [List.length Nat.ltb Nat.leb nth].
    + cbn [snd fst]. repeat split. lia.
    + cbn [snd fst]. repeat split. simpl. lia.
    + pose proof (extract_text_raises w pdf_path) as O.
      destruct (PdfUtils.extract_text w pdf_path) as [calls [text|e]] eqn:E; cbn [snd fst] in *.
      * exists script, pdf_path, rest, text. rewrite E. split; [reflexivity|].
        split; [reflexivity|].
        rewrite preview_slice. reflexivity.
      * exists script, pdf_path, rest. rewrite E. split; [reflexivity|].
        split; [reflexivity|].
        split; [exact (O e eq_refl) | reflexivity].
  - intros script pdf_path rest ->. reflexivity.
Qed.

Lemma main_outcomes_witness :
  PdfMain.main healthy [lit "pdf_utils.py"; lit "a.pdf"; lit "b.pdf"] =
  PdfMain.main healthy [lit "pdf_utils.py"; lit "a.pdf"].
Proof.
  apply (proj2 (main_outcomes healthy [lit "pdf_utils.py"; lit "a.pdf"; lit "b.pdf"])
           (lit "pdf_utils.py") (lit "a.pdf") [lit "b.pdf"]).
  reflexivity.
Defined.
